(** * The executor's job driver ([job_driver.py]): a shallow embedding

    The driver runs one job in four stages (startup, volume download,
    execution, result upload) under a deadline, reports exactly one
    terminal message to the miner and always cleans the runner up.

    The embedding follows the Python source method by method.  A driver
    method is a computation in the monad [M]: it reads and updates the
    driver's (and runner's) attributes, emits events (messages sent to the
    miner, calls made on the runner and on the timer, error logs) and
    either returns a value or raises a Python exception.  Everything the
    driver awaits from a collaborator (the miner client, the job runner,
    the probe containers, asyncio's timeouts) is read from a [World]
    record that fixes, for one run, what each of those calls returns or
    raises. *)

From Stdlib Require Import ZArith String Ascii List Bool Lia DecimalString.
From Stdlib Require Import Sorted.
From stdpp Require Import base strings gmap.
Import ListNotations.

Local Open Scope string_scope.
Local Open Scope Z_scope.

(** ** Python strings and bytes *)

Module Py.

(** [str] and [bytes] values.  Both payloads are character sequences;
    for [PBytes] a character is one byte, for [PStr] one code point
    (probe output is ASCII). *)
Inductive value : Type :=
  | PStr (s : string)
  | PBytes (b : string).

(** The double quote, which f-strings of the source embed in messages. *)
Definition dquote : string := String (ascii_of_nat 34) EmptyString.

(** [str(n)] for an [int]. *)
Definition str_of_int (n : Z) : string := NilZero.string_of_int (Z.to_int n).

Fixpoint starts_with (p s : string) : bool :=
  match p, s with
  | EmptyString, _ => true
  | String a p', String b s' => if Ascii.eqb a b then starts_with p' s' else false
  | String _ _, EmptyString => false
  end.

(** [needle in hay] for two [str]. *)
Fixpoint contains (needle hay : string) : bool :=
  starts_with needle hay
  || match hay with
     | EmptyString => false
     | String _ hay' => contains needle hay'
     end.

Fixpoint has_char (c : ascii) (s : string) : bool :=
  match s with
  | EmptyString => false
  | String a s' => Ascii.eqb a c || has_char c s'
  end.

(** [s.rpartition(sep)] for a one-character separator: the part before
    the last occurrence, the separator, the part after; when [sep] does
    not occur, two empty strings and [s]. *)
Fixpoint rpartition (sep : ascii) (s : string) : string * string * string :=
  match s with
  | EmptyString => ("", "", "")
  | String a s' =>
      if has_char sep s' then
        let '(h, m, t) := rpartition sep s' in (String a h, m, t)
      else if Ascii.eqb a sep then ("", String sep EmptyString, s')
      else ("", "", s)
  end.

(** Line boundaries of [str.splitlines] below code point 256, and of
    [bytes.splitlines]. *)
Definition str_linebreak (c : ascii) : bool :=
  let n := nat_of_ascii c in
  (Nat.leb 10 n && Nat.leb n 13 || Nat.leb 28 n && Nat.leb n 30 || Nat.eqb n 133)%bool.

Definition bytes_linebreak (c : ascii) : bool :=
  let n := nat_of_ascii c in (Nat.eqb n 10 || Nat.eqb n 13)%bool.

Definition CR : ascii := ascii_of_nat 13.
Definition LF : ascii := ascii_of_nat 10.

(** [splitlines()]: [cur] is the line being read. *)
Fixpoint splitlines_from (brk : ascii -> bool) (cur : string) (started : bool)
    (s : string) : list string :=
  match s with
  | EmptyString => if started then [cur] else []
  | String a s' =>
      if brk a then
        match s' with
        | String b s'' =>
            if (Ascii.eqb a CR && Ascii.eqb b LF)%bool
            then cur :: splitlines_from brk "" false s''
            else cur :: splitlines_from brk "" false s'
        | EmptyString => [cur]
        end
      else splitlines_from brk (cur ++ String a EmptyString) true s'
  end.

Definition splitlines (brk : ascii -> bool) (s : string) : list string :=
  splitlines_from brk "" false s.

End Py.


(** ** Protocol constants ([compute_horde.protocol_consts])

    Modelled from the spec: the enums are declared outside [src/]; their
    members are those the driver names and the spec lists. *)

Module JobStage.
Inductive t : Type :=
  | UNKNOWN
  | EXECUTOR_STARTUP
  | VOLUME_DOWNLOAD
  | EXECUTION
  | RESULT_UPLOAD.
End JobStage.

Module JobFailureReason.
Inductive t : Type :=
  | TIMEOUT
  | NONZERO_RETURN_CODE
  | DOWNLOAD_FAILED
  | UPLOAD_FAILED.
End JobFailureReason.

(** Modelled from the spec: the members of [HordeFailureReason] other than
    [SECURITY_CHECK_FAILED] are not named in the driver; the spec gives a
    generic horde reason (what [HordeError(message)] carries when no reason
    is passed) and a catch-all for wrapped unexpected exceptions. *)
Module HordeFailureReason.
Inductive t : Type :=
  | SECURITY_CHECK_FAILED
  | GENERIC_ERROR
  | UNHANDLED_EXCEPTION.
End HordeFailureReason.

Module JobParticipantType.
Inductive t : Type :=
  | EXECUTOR
  | MINER
  | VALIDATOR.
End JobParticipantType.

(** ** Failure contexts and exceptions *)

(** A value stored in a [FailureContext] (a [dict[str, Any]]). *)
Inductive ctx_value : Type :=
  | CtxInt (n : Z)
  | CtxPy (v : Py.value)
  | CtxStage (stage : JobStage.t).

(** [FailureContext | None]. *)
Abbreviation FailureContext := (option (gmap string ctx_value)).

(** Python exceptions the driver can meet: every constructor stands for a
    subclass of [Exception].  [JobError] and [HordeError] are the two
    classes of [compute_horde.job_errors] (disjoint, as the spec has them);
    [TimeoutError] is what asyncio's timeouts raise at expiry; [OtherError]
    is any other exception class, given by its qualified name.  Signals
    outside [Exception] (the cancellation of the driver's own task from
    outside, interpreter exit) are not part of a run here. *)
Inductive exn : Type :=
  | JobError (message : string) (reason : JobFailureReason.t)
      (context : FailureContext)
  | HordeError (message : string) (reason : HordeFailureReason.t)
      (context : FailureContext)
  | TimeoutError
  | AssertionError (message : string)
  | AttributeError (message : string)
  | TypeError (message : string)
  | InvalidVersion (text : string)
  | UnicodeDecodeError
  | OtherError (qualname message : string).

(** What a call does: return a value or raise. *)
Inductive Outcome (A : Type) : Type :=
  | Ok (a : A)
  | Raise (e : exn).
Arguments Ok {A} a.
Arguments Raise {A} e.

Definition is_JobError (e : exn) : bool :=
  match e with JobError _ _ _ => true | _ => false end.

Definition is_HordeError (e : exn) : bool :=
  match e with HordeError _ _ _ => true | _ => false end.

Definition is_TimeoutError (e : exn) : bool :=
  match e with TimeoutError => true | _ => false end.

(** ** Messages and data exchanged with the collaborators

    Modelled from the spec: the message classes of
    [compute_horde.protocol_messages], [MachineSpecs] and the runner's
    result classes are declared outside [src/].  The records below have the
    fields the driver reads or writes, typed as the spec's data model has
    them; seconds are integers, opaque documents are strings. *)

Inductive MachineSpecs : Type := MkMachineSpecs (document : string).

Record ExecutorTimingDetails : Type := {
  allowed_leeway : Z;
  download_time_limit : Z;
  execution_time_limit : Z;
  streaming_start_time_limit : Z;
  upload_time_limit : Z
}.

(** Modelled from the spec: [streaming_details = {executor_ip, public_key}].
    The driver asserts [executor_ip is not None] before using it and passes
    [public_key] on as it is: the first is optional, the second is not. *)
Record StreamingDetails : Type := {
  executor_ip : option string;
  public_key : string
}.

(** The fields of [V0InitialJobRequest] the driver reads. *)
Record V0InitialJobRequest : Type := {
  executor_timing : option ExecutorTimingDetails;
  timeout_seconds : option Z;
  streaming_details : option StreamingDetails
}.

(** The full payload is handed to the runner unread. *)
Inductive V0JobRequest : Type := MkV0JobRequest (payload : string).

Record ExecutionResult : Type := {
  return_code : Z;
  stdout : Py.value;
  stderr : Py.value;
  timed_out : bool
}.

(** What [runner.upload_results()] returns; the driver stamps [specs]. *)
Module JobResult.
Record t : Type := {
  result : string;
  specs : option MachineSpecs
}.
Definition with_specs (r : t) (sp : option MachineSpecs) : t :=
  {| result := result r; specs := sp |}.
End JobResult.

Module V0JobFailedRequest.
Record t : Type := {
  job_uuid : string;
  stage : JobStage.t;
  reason : JobFailureReason.t;
  message : string;
  docker_process_exit_status : option Z;
  docker_process_stdout : option Py.value;
  docker_process_stderr : option Py.value;
  context : FailureContext
}.
End V0JobFailedRequest.

Module V0HordeFailedRequest.
Record t : Type := {
  job_uuid : string;
  reported_by : JobParticipantType.t;
  reason : HordeFailureReason.t;
  message : string;
  context : FailureContext
}.
End V0HordeFailedRequest.

(** Outbound messages, named after what the miner client puts on the
    wire: [send_result] emits a [V0JobFinishedRequest]. *)
Inductive OutMsg : Type :=
  | V0ExecutorReadyRequest
  | V0StreamingJobReadyRequest (certificate : string)
  | V0VolumesReadyRequest
  | V0ExecutionDoneRequest
  | V0JobFinishedRequest (r : JobResult.t)
  | V0JobFailedRequest (m : V0JobFailedRequest.t)
  | V0HordeFailedRequest (m : V0HordeFailedRequest.t).

Inductive RunnerCall : Type :=
  | prepare_initial_call (req : V0InitialJobRequest)
  | generate_streaming_certificate_call (executor_ip public_key : string)
  | prepare_full_call (req : V0JobRequest)
  | download_volume_call
  | start_job_enter_call
  | start_job_exit_call
  | upload_results_call
  | clean_call.

Inductive Probe : Type := CVE_2022_0492_probe | nvidia_toolkit_probe.

Inductive LogRecord : Type :=
  | LogJobError (e : exn)
  | LogHordeError (e : exn)
  | LogCleanupFailed (e : exn).

(** What a run leaves behind, in order. *)
Inductive Event : Type :=
  | MinerClientEntered
  | MinerClientExited
  | TimerSetTimeout (seconds : Z)
  | TimerExtendTimeout (seconds : Z)
  | StageEntered (stage : JobStage.t)
  | MachineSpecsRead
  | ProbeRun (p : Probe)
  | InitialMsgAwaited
  | FullPayloadAwaited
  | Runner (c : RunnerCall)
  | Sent (m : OutMsg)
  | SentryCaptured (e : exn)
  | Logged (r : LogRecord).

(** ** The driver monad *)

Local Open Scope list_scope.

(** The attributes a run mutates: [self.current_stage], [self.specs] and
    the runner's [execution_result]. *)
Record Driver : Type := {
  current_stage : JobStage.t;
  specs : option MachineSpecs;
  execution_result : option ExecutionResult
}.

(** [JobDriver.__init__]; the runner starts without an execution result
    (the spec: the runner populates it when the job scope is left). *)
Definition init : Driver :=
  {| current_stage := JobStage.UNKNOWN; specs := None; execution_result := None |}.

Definition M (A : Type) : Type := Driver -> Outcome A * Driver * list Event.

Definition ret {A} (a : A) : M A := fun d => (Ok a, d, []).

Definition raise {A} (e : exn) : M A := fun d => (Raise e, d, []).

Definition bind {A B} (c : M A) (k : A -> M B) : M B :=
  fun d =>
    match c d with
    | (Ok a, d1, t1) => let '(r, d2, t2) := k a d1 in (r, d2, t1 ++ t2)
    | (Raise e, d1, t1) => (Raise e, d1, t1)
    end.

Declare Scope driver_scope.
Delimit Scope driver_scope with driver.
Notation "'let*' x ':=' c 'in' k" := (bind c (fun x => k))
  (at level 10, x name, c at level 100, k at level 200) : driver_scope.
Notation "c1 ';;' c2" := (bind c1 (fun _ => c2))
  (at level 100, c2 at level 200, right associativity) : driver_scope.
Local Open Scope driver_scope.

Definition emit (ev : Event) : M unit := fun d => (Ok tt, d, [ev]).

(** The outcome of an awaited collaborator call. *)
Definition lift {A} (o : Outcome A) : M A := fun d => (o, d, []).

Definition get {A} (f : Driver -> A) : M A := fun d => (Ok (f d), d, []).

Definition update (f : Driver -> Driver) : M unit := fun d => (Ok tt, f d, []).

(** [try: c  except Exception as e: handler e].  A handler that re-raises
    is how an [except] clause for one class lets the others through. *)
Definition try_except {A} (c : M A) (handler : exn -> M A) : M A :=
  fun d =>
    match c d with
    | (Ok a, d1, t1) => (Ok a, d1, t1)
    | (Raise e, d1, t1) => let '(r, d2, t2) := handler e d1 in (r, d2, t1 ++ t2)
    end.

(** [try: c  finally: f]: [f] always runs; when it raises, its exception
    replaces the outcome of [c]. *)
Definition try_finally {A} (c : M A) (f : M unit) : M A :=
  fun d =>
    let '(r, d1, t1) := c d in
    match f d1 with
    | (Ok _, d2, t2) => (r, d2, t1 ++ t2)
    | (Raise e, d2, t2) => (Raise e, d2, t1 ++ t2)
    end.

(** [async with cm: body], for a context manager that does not swallow
    exceptions: [leave] runs whether or not the body raised. *)
Definition async_with {A} (enter : M unit) (body : M A) (leave : M unit) : M A :=
  enter ;; try_finally body leave.

Definition outcome_of {A} (x : Outcome A * Driver * list Event) : Outcome A :=
  fst (fst x).
Definition driver_of {A} (x : Outcome A * Driver * list Event) : Driver :=
  snd (fst x).
Definition trace_of {A} (x : Outcome A * Driver * list Event) : list Event :=
  snd x.

(** ** The world of one run *)

Record ProbeOutput : Type := {
  StatusCode : Z;
  probe_stdout : Py.value;
  probe_stderr : Py.value
}.

(** What each collaborator call of the run returns or raises.  The driver
    is one linear pass, so each call is made at most once.
    [is_streaming_job] and [executor_certificate] are runner attributes.
    [start_job_exit] gives the runner's [execution_result] once the job
    scope is left, and whether leaving raised.  The [*_expired_on_entry]
    flags say whether the deadline had already passed when
    [asyncio.wait_for] was called with [time_left] (then [wait_for] raises
    [TimeoutError] and the stage's coroutine never starts). *)
Record World : Type := {
  DEBUG_NO_GPU_MODE : bool;
  get_machine_specs : Outcome MachineSpecs;
  cve_2022_0492_container : Outcome ProbeOutput;
  nvidia_toolkit_container : Outcome ProbeOutput;
  initial_msg : Outcome V0InitialJobRequest;
  prepare_initial : Outcome unit;
  generate_streaming_certificate : Outcome unit;
  full_payload : Outcome V0JobRequest;
  prepare_full : Outcome unit;
  download_volume : Outcome unit;
  is_streaming_job : bool;
  executor_certificate : option string;
  start_job_enter : Outcome unit;
  start_job_exit : option ExecutionResult * Outcome unit;
  upload_results : Outcome JobResult.t;
  clean : Outcome unit;
  download_expired_on_entry : bool;
  execution_expired_on_entry : bool;
  upload_expired_on_entry : bool
}.

(** ** What the driver is built with

    The constructor arguments ([miner_client.job_uuid],
    [startup_time_limit]) and the library functions the driver calls:
    [packaging.version] ([parse], or [None] where it raises
    [InvalidVersion]; [>=] and [str] on versions; the value of
    [packaging.version.parse("1.17.4")]), [bytes.decode()], and the message
    and context [HordeError.wrap_unhandled] gives to an exception that is
    not a [HordeError]. *)
Record Env : Type := {
  job_uuid : string;
  startup_time_limit : Z;
  Version : Type;
  version_parse : string -> option Version;
  version_ge : Version -> Version -> bool;
  version_str : Version -> string;
  NVIDIA_CONTAINER_TOOLKIT_MINIMUM_SAFE_VERSION : Version;
  bytes_decode : string -> Outcome string;
  unhandled_message : exn -> string;
  unhandled_context : exn -> FailureContext
}.

(** ** The driver *)

Section JobDriver.

Variable env : Env.

Variable w : World.

(** *** Operations on [str | bytes] values, with Python's type errors *)

Definition decode (v : Py.value) : Outcome Py.value :=
  match v with
  | Py.PBytes b =>
      match bytes_decode env b with
      | Ok s => Ok (Py.PStr s)
      | Raise e => Raise e
      end
  | Py.PStr _ => Raise (AttributeError "'str' object has no attribute 'decode'")
  end.

(** [needle not in v] for a [str] needle. *)
Definition str_not_in (needle : string) (v : Py.value) : Outcome bool :=
  match v with
  | Py.PStr s => Ok (negb (Py.contains needle s))
  | Py.PBytes _ => Raise (TypeError "a bytes-like object is required, not 'str'")
  end.

Definition splitlines (v : Py.value) : list Py.value :=
  match v with
  | Py.PStr s => map Py.PStr (Py.splitlines Py.str_linebreak s)
  | Py.PBytes b => map Py.PBytes (Py.splitlines Py.bytes_linebreak b)
  end.

(** [line.rpartition(" ")[2]]. *)
Definition rpartition_space_2 (line : Py.value) : Outcome string :=
  match line with
  | Py.PStr s => Ok (snd (Py.rpartition " " s))
  | Py.PBytes _ => Raise (TypeError "a bytes-like object is required, not 'str'")
  end.

Definition packaging_version_parse (version : string) : Outcome (Version env) :=
  match version_parse env version with
  | Some v => Ok v
  | None => Raise (InvalidVersion version)
  end.

(** *** Small steps *)

Definition set_current_stage (stage : JobStage.t) (d : Driver) : Driver :=
  {| current_stage := stage; specs := specs d;
     execution_result := execution_result d |}.

Definition set_specs (sp : option MachineSpecs) (d : Driver) : Driver :=
  {| current_stage := current_stage d; specs := sp;
     execution_result := execution_result d |}.

Definition set_execution_result (er : option ExecutionResult) (d : Driver) : Driver :=
  {| current_stage := current_stage d; specs := specs d;
     execution_result := er |}.

(** Modelled from the spec: the miner client's [send_*] methods are not
    under [src/]; outbound messages are fire-and-forget, so a send puts
    its message on the wire and returns. *)
Definition send (m : OutMsg) : M unit := emit (Sent m).

(** A call on the runner: made, then returning or raising. *)
Definition runner {A} (c : RunnerCall) (o : Outcome A) : M A :=
  emit (Runner c) ;; lift o.

(** [asyncio.wait_for(stage, self.time_left)]. *)
Definition wait_for {A} (expired_on_entry : bool) (stage : M A) : M A :=
  if expired_on_entry then raise TimeoutError else stage.

(** [except TimeoutError as e: raise replacement from e]. *)
Definition except_TimeoutError {A} (replacement : exn) (e : exn) : M A :=
  if is_TimeoutError e then raise replacement else raise e.

(** Modelled from the spec: [compute_horde.utils.Timer] is not under
    [src/]; [set_timeout] replaces the deadline and [extend_timeout] moves
    it outward.  The two calls are recorded as they are made. *)
Definition _set_deadline (seconds : Z) : M unit :=
  emit (TimerSetTimeout seconds).

Definition _extend_deadline (seconds : Z) : M unit :=
  emit (TimerExtendTimeout seconds).

Definition _enter_stage (stage : JobStage.t) : M unit :=
  update (set_current_stage stage) ;;
  emit (StageEntered stage).

(** *** Security checks *)

Definition expected_output : string := "Contained: cannot escape via CVE-2022-0492".

(** What [run_cve_2022_0492_check_or_fail] does once the probe container
    has exited with [return_code] and its output has been read. *)
Definition cve_2022_0492_verdict (return_code : Z) (stdout stderr : Py.value)
    : Outcome unit :=
  if negb (return_code =? 0) then
    match decode stdout with
    | Raise e => Raise e
    | Ok out =>
        match decode stderr with
        | Raise e => Raise e
        | Ok err =>
            Raise (HordeError "CVE-2022-0492 check failed"
                     HordeFailureReason.SECURITY_CHECK_FAILED
                     (Some {[ "return_code" := CtxInt return_code;
                              "stdout" := CtxPy out;
                              "stderr" := CtxPy err ]}))
        end
    end
  else
    match str_not_in expected_output stdout with
    | Raise e => Raise e
    | Ok true =>
        Raise (HordeError
                 ("CVE-HordeFailureReason-0492 check failed: " +:+ Py.dquote
                    +:+ expected_output +:+ Py.dquote +:+ " not in stdout.")
                 HordeFailureReason.SECURITY_CHECK_FAILED
                 (Some {[ "stdout" := CtxPy stdout; "stderr" := CtxPy stderr ]}))
    | Ok false => Ok tt
    end.

Definition run_cve_2022_0492_check_or_fail : M unit :=
  emit (ProbeRun CVE_2022_0492_probe) ;;
  let* out := lift (cve_2022_0492_container w) in
  lift (cve_2022_0492_verdict (StatusCode out) (probe_stdout out) (probe_stderr out)).

Definition nvidia_toolkit_context (return_code : Z) (stdout stderr : Py.value)
    : FailureContext :=
  Some {[ "return_code" := CtxInt return_code;
          "stdout" := CtxPy stdout;
          "stderr" := CtxPy stderr ]}.

(** What [run_nvidia_toolkit_version_check_or_fail] does once the probe
    container has exited and its output has been read. *)
Definition nvidia_toolkit_verdict (return_code : Z) (stdout stderr : Py.value)
    : Outcome unit :=
  if negb (return_code =? 0) then
    Raise (HordeError
             ("nvidia-container-toolkit check failed: exit code "
                +:+ Py.str_of_int return_code)
             HordeFailureReason.SECURITY_CHECK_FAILED
             (nvidia_toolkit_context return_code stdout stderr))
  else
    match splitlines stdout with
    | [] =>
        Raise (HordeError
                 "nvidia-container-toolkit check failed: no output from nvidia-container-toolkit"
                 HordeFailureReason.SECURITY_CHECK_FAILED
                 (nvidia_toolkit_context return_code stdout stderr))
    | line0 :: _ =>
        match rpartition_space_2 line0 with
        | Raise e => Raise e
        | Ok version =>
            match packaging_version_parse version with
            | Raise e => Raise e
            | Ok parsed =>
                let is_fixed_version :=
                  version_ge env parsed
                    (NVIDIA_CONTAINER_TOOLKIT_MINIMUM_SAFE_VERSION env) in
                if negb is_fixed_version then
                  match decode stdout with
                  | Raise e => Raise e
                  | Ok out =>
                      match decode stderr with
                      | Raise e => Raise e
                      | Ok err =>
                          Raise (HordeError
                                   ("Outdated NVIDIA Container Toolkit detected:"
                                      +:+ version +:+ Py.dquote +:+ " not >= "
                                      +:+ version_str env
                                            (NVIDIA_CONTAINER_TOOLKIT_MINIMUM_SAFE_VERSION env))
                                   HordeFailureReason.SECURITY_CHECK_FAILED
                                   (nvidia_toolkit_context return_code out err))
                      end
                  end
                else Ok tt
            end
        end
    end.

Definition run_nvidia_toolkit_version_check_or_fail : M unit :=
  emit (ProbeRun nvidia_toolkit_probe) ;;
  let* out := lift (nvidia_toolkit_container w) in
  lift (nvidia_toolkit_verdict (StatusCode out) (probe_stdout out) (probe_stderr out)).

Definition run_security_checks_or_fail : M unit :=
  run_cve_2022_0492_check_or_fail ;;
  if negb (DEBUG_NO_GPU_MODE w) then run_nvidia_toolkit_version_check_or_fail
  else ret tt.

(** *** Stages *)

Definition _startup_stage : M V0InitialJobRequest :=
  _enter_stage JobStage.EXECUTOR_STARTUP ;;
  (if negb (DEBUG_NO_GPU_MODE w) then
     emit MachineSpecsRead ;;
     let* sp := lift (get_machine_specs w) in
     update (set_specs (Some sp))
   else ret tt) ;;
  run_security_checks_or_fail ;;
  emit InitialMsgAwaited ;;
  let* initial_job_request := lift (initial_msg w) in
  runner (prepare_initial_call initial_job_request) (prepare_initial w) ;;
  send V0ExecutorReadyRequest ;;
  match streaming_details initial_job_request with
  | Some details =>
      match executor_ip details with
      | None => raise (AssertionError "")
      | Some ip =>
          runner (generate_streaming_certificate_call ip (public_key details))
            (generate_streaming_certificate w)
      end
  | None => ret tt
  end ;;
  ret initial_job_request.

Definition _download_stage : M unit :=
  _enter_stage JobStage.VOLUME_DOWNLOAD ;;
  emit FullPayloadAwaited ;;
  let* full_job_request := lift (full_payload w) in
  runner (prepare_full_call full_job_request) (prepare_full w) ;;
  runner download_volume_call (download_volume w) ;;
  send V0VolumesReadyRequest.

Definition fail_if_execution_unsuccessful : M unit :=
  let* result := get execution_result in
  match result with
  | None => raise (AssertionError "No execution result")
  | Some result =>
      if timed_out result then
        raise (JobError "Job container timed out during execution"
                 JobFailureReason.TIMEOUT None)
      else if negb (return_code result =? 0) then
        raise (JobError
                 ("Job container exited with non-zero exit code: "
                    +:+ Py.str_of_int (return_code result))
                 JobFailureReason.NONZERO_RETURN_CODE None)
      else ret tt
  end.

Definition _execution_stage : M unit :=
  _enter_stage JobStage.EXECUTION ;;
  async_with
    (runner start_job_enter_call (start_job_enter w))
    (if is_streaming_job w then
       match executor_certificate w with
       | None => raise (AssertionError "Executor certificate is missing.")
       | Some certificate => send (V0StreamingJobReadyRequest certificate)
       end
     else ret tt)
    (emit (Runner start_job_exit_call) ;;
     update (set_execution_result (fst (start_job_exit w))) ;;
     lift (snd (start_job_exit w))) ;;
  fail_if_execution_unsuccessful ;;
  send V0ExecutionDoneRequest.

Definition _upload_stage : M unit :=
  _enter_stage JobStage.RESULT_UPLOAD ;;
  let* job_result := runner upload_results_call (upload_results w) in
  let* sp := get specs in
  send (V0JobFinishedRequest (JobResult.with_specs job_result sp)).

(** *** The pipeline *)

Definition _execute : M unit :=
  _set_deadline (startup_time_limit env) ;;
  let* initial_job_request :=
    try_except _startup_stage
      (except_TimeoutError
         (HordeError "Timed out waiting for initial job details from miner"
            HordeFailureReason.GENERIC_ERROR None)) in
  let timing_details := executor_timing initial_job_request in
  match timing_details with
  | Some timing => _set_deadline (allowed_leeway timing)
  | None =>
      match timeout_seconds initial_job_request with
      | Some seconds => _set_deadline seconds
      | None =>
          raise (HordeError
                   "No timing received: either timeout_seconds or timing_details must be set"
                   HordeFailureReason.GENERIC_ERROR None)
      end
  end ;;
  (* Download stage *)
  match timing_details with
  | Some timing => _extend_deadline (download_time_limit timing)
  | None => ret tt
  end ;;
  try_except (wait_for (download_expired_on_entry w) _download_stage)
    (except_TimeoutError
       (JobError "Download time exceeded" JobFailureReason.TIMEOUT None)) ;;
  (* Execution stage *)
  match timing_details with
  | Some timing =>
      _extend_deadline (execution_time_limit timing) ;;
      if is_streaming_job w
      then _extend_deadline (streaming_start_time_limit timing)
      else ret tt
  | None => ret tt
  end ;;
  try_except (wait_for (execution_expired_on_entry w) _execution_stage)
    (except_TimeoutError
       (JobError "Execution time exceeded" JobFailureReason.TIMEOUT None)) ;;
  (* Upload stage *)
  match timing_details with
  | Some timing => _extend_deadline (upload_time_limit timing)
  | None => ret tt
  end ;;
  try_except (wait_for (upload_expired_on_entry w) _upload_stage)
    (except_TimeoutError
       (JobError "Upload time exceeded" JobFailureReason.TIMEOUT None)).

(** *** Reporting failures *)

Definition send_job_failed (message : string) (reason : JobFailureReason.t)
    (context : FailureContext) : M unit :=
  let* result := get execution_result in
  let* stage := get current_stage in
  send (V0JobFailedRequest
          {| V0JobFailedRequest.job_uuid := job_uuid env;
             V0JobFailedRequest.stage := stage;
             V0JobFailedRequest.reason := reason;
             V0JobFailedRequest.message := message;
             V0JobFailedRequest.docker_process_exit_status :=
               match result with Some r => Some (return_code r) | None => None end;
             V0JobFailedRequest.docker_process_stdout :=
               match result with Some r => Some (stdout r) | None => None end;
             V0JobFailedRequest.docker_process_stderr :=
               match result with Some r => Some (stderr r) | None => None end;
             V0JobFailedRequest.context := context |}).

Definition send_horde_failed (message : string) (reason : HordeFailureReason.t)
    (context : FailureContext) : M unit :=
  send (V0HordeFailedRequest
          {| V0HordeFailedRequest.job_uuid := job_uuid env;
             V0HordeFailedRequest.reported_by := JobParticipantType.EXECUTOR;
             V0HordeFailedRequest.reason := reason;
             V0HordeFailedRequest.message := message;
             V0HordeFailedRequest.context := context |}).

(** Modelled from the spec: [HordeError.wrap_unhandled] is not under
    [src/].  Any exception that is not a [HordeError] is wrapped as one,
    with the catch-all reason; a [HordeError] is kept. *)
Definition wrap_unhandled (e : exn)
    : string * HordeFailureReason.t * FailureContext :=
  match e with
  | HordeError message reason context => (message, reason, context)
  | _ => (unhandled_message env e, HordeFailureReason.UNHANDLED_EXCEPTION,
          unhandled_context env e)
  end.

(** Modelled from the spec: [HordeError.add_context] is not under [src/];
    it attaches the given entries to the error's context. *)
Definition add_context (context : FailureContext) (extra : gmap string ctx_value)
    : FailureContext :=
  Some (extra ∪ default ∅ context).

(** The [except Exception] clause of [execute]. *)
Definition report_horde_failure (e : exn) : M unit :=
  emit (SentryCaptured e) ;;
  let '(message, reason, context) := wrap_unhandled e in
  let* stage := get current_stage in
  let context := add_context context {[ "stage" := CtxStage stage ]} in
  emit (Logged (LogHordeError (HordeError message reason context))) ;;
  send_horde_failed message reason context.

(** The [finally] clause of [execute]. *)
Definition cleanup : M unit :=
  try_except (runner clean_call (clean w))
    (fun e => emit (Logged (LogCleanupFailed e))).

(** The [except JobError] clause, then the [except Exception] clause. *)
Definition report_failure (e : exn) : M unit :=
  match e with
  | JobError message reason context =>
      emit (Logged (LogJobError e)) ;;
      send_job_failed message reason context
  | _ => report_horde_failure e
  end.

(** [async with self.miner_client] is entered and left around the whole
    run; opening and closing the connection are taken to succeed. *)
Definition execute : M unit :=
  async_with (emit MinerClientEntered)
    (try_finally (try_except _execute report_failure) cleanup)
    (emit MinerClientExited).

End JobDriver.

(** ** A concrete instance for running the driver

    The release-only fragment of [packaging.version] (versions written
    [N(.N)*], compared segment by segment with missing segments read as
    zero), UTF-8 decoding on ASCII input, and a [wrap_unhandled] that
    names the exception.  General statements below hold for every
    instance; this one runs them on concrete input. *)

Module Demo.

Definition digit (c : ascii) : option N :=
  let n := N_of_ascii c in
  if ((48 <=? n) && (n <=? 57))%N then Some (n - 48)%N else None.

Fixpoint parse_from (cur : option N) (acc : list N) (s : string) : option (list N) :=
  match s with
  | EmptyString =>
      match cur with
      | Some n => Some (rev (n :: acc))
      | None => None
      end
  | String c s' =>
      if Ascii.eqb c "." then
        match cur with
        | Some n => parse_from None (n :: acc) s'
        | None => None
        end
      else
        match digit c with
        | Some k => parse_from (Some (10 * default 0 cur + k)%N) acc s'
        | None => None
        end
  end.

Definition parse (s : string) : option (list N) := parse_from None [] s.

Fixpoint compare (a b : list N) : comparison :=
  match a, b with
  | [], _ => if forallb (N.eqb 0) b then Eq else Lt
  | _, [] => if forallb (N.eqb 0) a then Eq else Gt
  | x :: a', y :: b' =>
      match N.compare x y with
      | Eq => compare a' b'
      | c => c
      end
  end.

Definition ge (a b : list N) : bool :=
  match compare a b with Lt => false | _ => true end.

Fixpoint to_str (v : list N) : string :=
  match v with
  | [] => ""
  | [n] => Py.str_of_int (Z.of_N n)
  | n :: v' => Py.str_of_int (Z.of_N n) +:+ "." +:+ to_str v'
  end.

Definition minimum : list N := [1; 17; 4]%N.

Definition is_ascii (s : string) : bool :=
  forallb (fun c => (N_of_ascii c <? 128)%N) (list_ascii_of_string s).

Definition decode_ascii (b : string) : Outcome string :=
  if is_ascii b then Ok b else Raise UnicodeDecodeError.

Definition exn_name (e : exn) : string :=
  match e with
  | JobError _ _ _ => "JobError"
  | HordeError _ _ _ => "HordeError"
  | TimeoutError => "TimeoutError"
  | AssertionError _ => "AssertionError"
  | AttributeError _ => "AttributeError"
  | TypeError _ => "TypeError"
  | InvalidVersion _ => "InvalidVersion"
  | UnicodeDecodeError => "UnicodeDecodeError"
  | OtherError qualname _ => qualname
  end.

Definition message_of (e : exn) : string := "Unhandled exception: " +:+ exn_name e.

Definition context_of (e : exn) : FailureContext := None.

Definition env : Env :=
  {| job_uuid := "00000000-0000-4000-8000-000000000000";
     startup_time_limit := 5;
     Version := list N;
     version_parse := parse;
     version_ge := ge;
     version_str := to_str;
     NVIDIA_CONTAINER_TOOLKIT_MINIMUM_SAFE_VERSION := minimum;
     bytes_decode := decode_ascii;
     unhandled_message := message_of;
     unhandled_context := context_of |}.

(** A probe that finds the host contained, and a current toolkit. *)
Definition contained : ProbeOutput :=
  {| StatusCode := 0;
     probe_stdout := Py.PStr "Contained: cannot escape via CVE-2022-0492";
     probe_stderr := Py.PStr "" |}.

Definition toolkit_1_17_4 : ProbeOutput :=
  {| StatusCode := 0;
     probe_stdout := Py.PStr "NVIDIA Container Runtime Hook version 1.17.4";
     probe_stderr := Py.PStr "" |}.

Definition timing : ExecutorTimingDetails :=
  {| allowed_leeway := 5; download_time_limit := 10; execution_time_limit := 20;
     streaming_start_time_limit := 3; upload_time_limit := 7 |}.

Definition request (t : option ExecutorTimingDetails) (s : option Z)
    (sd : option StreamingDetails) : V0InitialJobRequest :=
  {| executor_timing := t; timeout_seconds := s; streaming_details := sd |}.

Definition finished : ExecutionResult :=
  {| return_code := 0; stdout := Py.PStr "done"; stderr := Py.PStr "";
     timed_out := false |}.

Definition streaming : StreamingDetails :=
  {| executor_ip := Some "127.0.0.1"; public_key := "PK" |}.

(** A world in which every call succeeds but those given: the CVE probe,
    the initial message, the volume download, the end of the job, the
    upload and the cleanup. *)
Definition world (cve : Outcome ProbeOutput) (req : Outcome V0InitialJobRequest)
    (download : Outcome unit) (job_exit : option ExecutionResult * Outcome unit)
    (upload : Outcome JobResult.t) (cleanup : Outcome unit) : World :=
  let streams :=
    match req with
    | Ok r => match streaming_details r with Some _ => true | None => false end
    | Raise _ => false
    end in
  {| DEBUG_NO_GPU_MODE := false;
     get_machine_specs := Ok (MkMachineSpecs "{}");
     cve_2022_0492_container := cve;
     nvidia_toolkit_container := Ok toolkit_1_17_4;
     initial_msg := req;
     prepare_initial := Ok tt;
     generate_streaming_certificate := Ok tt;
     full_payload := Ok (MkV0JobRequest "{}");
     prepare_full := Ok tt;
     download_volume := download;
     is_streaming_job := streams;
     executor_certificate := if streams then Some "CERT" else None;
     start_job_enter := Ok tt;
     start_job_exit := job_exit;
     upload_results := upload;
     clean := cleanup;
     download_expired_on_entry := false;
     execution_expired_on_entry := false;
     upload_expired_on_entry := false |}.

Definition uploaded : JobResult.t :=
  {| JobResult.result := "ok"; JobResult.specs := None |}.

(** Every call succeeds. *)
Definition happy (req : V0InitialJobRequest) : World :=
  world (Ok contained) (Ok req) (Ok tt) (Some finished, Ok tt) (Ok uploaded) (Ok tt).

End Demo.

(** ** Reading a trace *)

(** The three messages that end a run for the miner. *)
Definition is_terminal (m : OutMsg) : bool :=
  match m with
  | V0JobFinishedRequest _ | V0JobFailedRequest _ | V0HordeFailedRequest _ => true
  | _ => false
  end.

(** The messages sent to the miner, in order. *)
Fixpoint outbound (t : list Event) : list OutMsg :=
  match t with
  | [] => []
  | Sent m :: t' => m :: outbound t'
  | _ :: t' => outbound t'
  end.

Definition terminal_messages (t : list Event) : list OutMsg :=
  List.filter is_terminal (outbound t).

Definition is_clean_call (ev : Event) : bool :=
  match ev with Runner clean_call => true | _ => false end.

(** How many times [runner.clean()] was invoked. *)
Definition clean_calls (t : list Event) : nat :=
  length (List.filter is_clean_call t).

(** The deadline calls and the stage entries of a run. *)
Definition is_schedule_event (ev : Event) : bool :=
  match ev with
  | TimerSetTimeout _ | TimerExtendTimeout _ | StageEntered _ => true
  | _ => false
  end.

Definition schedule (t : list Event) : list Event :=
  List.filter is_schedule_event t.

(** Events of the stages' bodies: no terminal message, no cleanup, nothing
    of what [execute] does around [_execute]. *)
Definition is_stage_event (ev : Event) : bool :=
  match ev with
  | Sent m => negb (is_terminal m)
  | Runner clean_call => false
  | MinerClientEntered | MinerClientExited | SentryCaptured _ | Logged _ => false
  | _ => true
  end.

(** A computation all of whose events, on every run, satisfy [P]. *)
Definition emits {A} (P : Event -> bool) (c : M A) : Prop :=
  forall d, forallb P (trace_of (c d)) = true.

(** What the trace of the pipeline looks like: stage events only, closed
    by the finished message exactly when the pipeline returns. *)
Definition pipeline_trace {A} (x : Outcome A * Driver * list Event) : Prop :=
  match outcome_of x with
  | Ok _ =>
      exists t0 r,
        trace_of x = t0 ++ [Sent (V0JobFinishedRequest r)]
        /\ forallb is_stage_event t0 = true
  | Raise _ => forallb is_stage_event (trace_of x) = true
  end.

(** Anything but the executor-ready message. *)
Definition before_ready (ev : Event) : bool :=
  match ev with Sent V0ExecutorReadyRequest => false | _ => true end.

(** Anything but a deadline call or a stage entry. *)
Definition off_schedule (ev : Event) : bool := negb (is_schedule_event ev).

(** The last message of trace [t] is a job failure for a timeout, with
    the given message and the stage that is current in [d]. *)
Definition reports_timeout (t : list Event) (d : Driver) (message : string) : Prop :=
  exists failed,
    last (outbound t) = Some (V0JobFailedRequest failed)
    /\ V0JobFailedRequest.reason failed = JobFailureReason.TIMEOUT
    /\ V0JobFailedRequest.message failed = message
    /\ V0JobFailedRequest.stage failed = current_stage d.

(** A computation that leaves [current_stage] as it found it. *)
Definition keeps_stage {A} (c : M A) : Prop :=
  forall d, current_stage (driver_of (c d)) = current_stage d.

(** The same world, with another outcome for [runner.clean()]. *)
Definition with_clean (o : Outcome unit) (w : World) : World :=
  {| DEBUG_NO_GPU_MODE := DEBUG_NO_GPU_MODE w;
     get_machine_specs := get_machine_specs w;
     cve_2022_0492_container := cve_2022_0492_container w;
     nvidia_toolkit_container := nvidia_toolkit_container w;
     initial_msg := initial_msg w;
     prepare_initial := prepare_initial w;
     generate_streaming_certificate := generate_streaming_certificate w;
     full_payload := full_payload w;
     prepare_full := prepare_full w;
     download_volume := download_volume w;
     is_streaming_job := is_streaming_job w;
     executor_certificate := executor_certificate w;
     start_job_enter := start_job_enter w;
     start_job_exit := start_job_exit w;
     upload_results := upload_results w;
     clean := o;
     download_expired_on_entry := download_expired_on_entry w;
     execution_expired_on_entry := execution_expired_on_entry w;
     upload_expired_on_entry := upload_expired_on_entry w |}.

(** ** Further vocabulary *)

(** The stages a run entered, in order. *)
Fixpoint entered (t : list Event) : list JobStage.t :=
  match t with
  | [] => []
  | StageEntered stage :: t' => stage :: entered t'
  | _ :: t' => entered t'
  end.

(** The stage-transition messages of a run: what was sent, terminal
    messages left out. *)
Definition progress (t : list Event) : list OutMsg :=
  List.filter (fun m => negb (is_terminal m)) (outbound t).

(** A computation that leaves the attribute [f] of the driver as it found
    it. *)
Definition keeps {A X} (f : Driver -> X) (c : M A) : Prop :=
  forall d, f (driver_of (c d)) = f d.

(** Anything but a stage-transition message. *)
Definition no_progress (ev : Event) : bool :=
  match ev with Sent m => is_terminal m | _ => true end.

(** A computation whose stage-transition messages are, on every run, the
    first so many of [full], and all of [full] when it returns. *)
Definition sends {A} (c : M A) (full : list OutMsg) : Prop :=
  forall d,
    progress (trace_of (c d)) `prefix_of` full
    /\ (forall a, outcome_of (c d) = Ok a -> progress (trace_of (c d)) = full).

(** What a streaming job announces once its container is up. *)
Definition streaming_announcement (w : World) : list OutMsg :=
  if is_streaming_job w then
    match executor_certificate w with
    | Some certificate => [V0StreamingJobReadyRequest certificate]
    | None => []
    end
  else [].

(** Work done for the job: awaiting its messages, any call on the runner
    but [clean], any stage-transition message. *)
Definition job_work (ev : Event) : bool :=
  match ev with
  | InitialMsgAwaited | FullPayloadAwaited => true
  | Runner clean_call => false
  | Runner _ => true
  | Sent m => negb (is_terminal m)
  | _ => false
  end.

Definition before_job_work (ev : Event) : bool := negb (job_work ev).

(** Both probes ran to their end and their verdicts were favourable; the
    toolkit probe is not asked for when GPU use is disabled. *)
Definition security_checks_pass (env : Env) (w : World) : Prop :=
  (exists out,
     cve_2022_0492_container w = Ok out
     /\ cve_2022_0492_verdict env (StatusCode out) (probe_stdout out) (probe_stderr out)
        = Ok tt)
  /\ (DEBUG_NO_GPU_MODE w = true
      \/ exists out,
           nvidia_toolkit_container w = Ok out
           /\ nvidia_toolkit_verdict env (StatusCode out) (probe_stdout out)
                (probe_stderr out)
              = Ok tt).

(** Anything but the execution-done message. *)
Definition before_done (ev : Event) : bool :=
  match ev with Sent V0ExecutionDoneRequest => false | _ => true end.

(** Anything but awaiting the full payload. *)
Definition before_payload (ev : Event) : bool :=
  match ev with FullPayloadAwaited => false | _ => true end.

(** The runner's operations of a run, in the order they were invoked. *)
Fixpoint runner_calls (t : list Event) : list RunnerCall :=
  match t with
  | [] => []
  | Runner c :: t' => c :: runner_calls t'
  | _ :: t' => runner_calls t'
  end.

(** The place of a runner operation in the job's life. *)
Definition call_rank (c : RunnerCall) : nat :=
  match c with
  | prepare_initial_call _ => 0
  | generate_streaming_certificate_call _ _ => 1
  | prepare_full_call _ => 2
  | download_volume_call => 3
  | start_job_enter_call => 4
  | start_job_exit_call => 5
  | upload_results_call => 6
  | clean_call => 7
  end%nat.

(** Calls in strictly ascending rank, all of rank in [lo, hi). *)
Definition in_order (lo hi : nat) (calls : list RunnerCall) : Prop :=
  StronglySorted lt (map call_rank calls)
  /\ Forall (fun c => (lo <= call_rank c < hi)%nat) calls.

Definition ranked {A} (lo hi : nat) (c : M A) : Prop :=
  forall d, in_order lo hi (runner_calls (trace_of (c d))).

(** Anything but a call to the runner. *)
Definition no_runner_call (ev : Event) : bool :=
  match ev with Runner _ => false | _ => true end.

(** A string without a line boundary of [str.splitlines]. *)
Definition one_line (s : string) : bool :=
  forallb (fun c => negb (Py.str_linebreak c)) (list_ascii_of_string s).

(** ** Further runs *)

Module Cases.

(** A job on a single timeout in which every call succeeds. *)
Definition single_timeout : World := Demo.happy (Demo.request None (Some 10) None).

(** A streaming job with timing details in which every call succeeds. *)
Definition streaming_job : World :=
  Demo.happy (Demo.request (Some Demo.timing) None (Some Demo.streaming)).

(** An initial request without any timing. *)
Definition untimed : World := Demo.happy (Demo.request None None None).

(** The volume download fails. *)
Definition download_fails : World :=
  Demo.world (Ok Demo.contained) (Ok (Demo.request None (Some 10) None))
    (Raise (JobError "Input volume too large" JobFailureReason.DOWNLOAD_FAILED None))
    (Some Demo.finished, Ok tt) (Ok Demo.uploaded) (Ok tt).

(** The upload of the results fails. *)
Definition upload_fails : World :=
  Demo.world (Ok Demo.contained) (Ok (Demo.request None (Some 10) None))
    (Ok tt) (Some Demo.finished, Ok tt)
    (Raise (JobError "Upload rejected" JobFailureReason.UPLOAD_FAILED None)) (Ok tt).

(** The CVE probe cannot be run. *)
Definition probe_crashes : World :=
  Demo.world (Raise (OtherError "aiodocker.exceptions.DockerError" "no such image"))
    (Ok (Demo.request None (Some 10) None))
    (Ok tt) (Some Demo.finished, Ok tt) (Ok Demo.uploaded) (Ok tt).

(** The CVE probe exits with code 0 and reports an escape. *)
Definition escaped : ProbeOutput :=
  {| StatusCode := 0;
     probe_stdout := Py.PStr "Escaped: host is vulnerable";
     probe_stderr := Py.PStr "" |}.

Definition not_contained : World :=
  Demo.world (Ok escaped) (Ok (Demo.request None (Some 10) None))
    (Ok tt) (Some Demo.finished, Ok tt) (Ok Demo.uploaded) (Ok tt).

(** Leaving the job scope fails after the job has run. *)
Definition exit_fails : World :=
  Demo.world (Ok Demo.contained) (Ok (Demo.request None (Some 10) None))
    (Ok tt) (Some Demo.finished, Raise (OtherError "RuntimeError" "container is gone"))
    (Ok Demo.uploaded) (Ok tt).

End Cases.

(** * Properties *)

(** ** Python helpers on concrete input *)

Example splitlines_ex :
  Py.splitlines Py.str_linebreak
    ("ab" +:+ String Py.CR (String Py.LF "cd") +:+
     String Py.LF (String Py.LF "e" +:+ String Py.LF ""))
  = ["ab"; "cd"; ""; "e"].
Proof. reflexivity. Qed.

Example splitlines_empty :
  Py.splitlines Py.str_linebreak "" = []
  /\ Py.splitlines Py.str_linebreak (String Py.LF "") = [""].
Proof. split; reflexivity. Qed.

Example rpartition_ex :
  Py.rpartition " " "NVIDIA Container Runtime Hook version 1.17.4"
  = ("NVIDIA Container Runtime Hook version", " ", "1.17.4").
Proof. reflexivity. Qed.

Example rpartition_nosep : Py.rpartition " " "1.17.4" = ("", "", "1.17.4").
Proof. reflexivity. Qed.

Example str_of_int_ex : Py.str_of_int (-137) = "-137" /\ Py.str_of_int 0 = "0".
Proof. split; reflexivity. Qed.

Example demo_versions :
  Demo.parse "1.17.4" = Some [1; 17; 4]%N
  /\ Demo.parse "1.17" = Some [1; 17]%N
  /\ Demo.parse "abc" = None
  /\ Demo.ge [1; 17; 4; 0]%N Demo.minimum = true
  /\ Demo.ge [1; 16; 2]%N Demo.minimum = false
  /\ Demo.ge [1; 18]%N Demo.minimum = true.
Proof. repeat split; reflexivity. Qed.

(** ** Running a computation *)

Lemma run_eta {A} (x : Outcome A * Driver * list Event) :
  x = (outcome_of x, driver_of x, trace_of x).
Proof. destruct x as [[o d] t]. reflexivity. Qed.

Lemma bind_outcome {A B} (c : M A) (k : A -> M B) d :
  outcome_of (bind c k d) =
    match outcome_of (c d) with
    | Ok a => outcome_of (k a (driver_of (c d)))
    | Raise e => Raise e
    end.
Proof.
  unfold bind. destruct (c d) as [[[a|e] d1] t1]; cbn; [|reflexivity].
  destruct (k a d1) as [[r d2] t2]. reflexivity.
Qed.

Lemma bind_driver {A B} (c : M A) (k : A -> M B) d :
  driver_of (bind c k d) =
    match outcome_of (c d) with
    | Ok a => driver_of (k a (driver_of (c d)))
    | Raise _ => driver_of (c d)
    end.
Proof.
  unfold bind. destruct (c d) as [[[a|e] d1] t1]; cbn; [|reflexivity].
  destruct (k a d1) as [[r d2] t2]. reflexivity.
Qed.

Lemma bind_trace {A B} (c : M A) (k : A -> M B) d :
  trace_of (bind c k d) =
    trace_of (c d) ++
    match outcome_of (c d) with
    | Ok a => trace_of (k a (driver_of (c d)))
    | Raise _ => []
    end.
Proof.
  unfold bind. destruct (c d) as [[[a|e] d1] t1]; cbn.
  - destruct (k a d1) as [[r d2] t2]. reflexivity.
  - symmetry. apply app_nil_r.
Qed.

Lemma try_except_outcome {A} (c : M A) h d :
  outcome_of (try_except c h d) =
    match outcome_of (c d) with
    | Ok a => Ok a
    | Raise e => outcome_of (h e (driver_of (c d)))
    end.
Proof.
  unfold try_except. destruct (c d) as [[[a|e] d1] t1]; cbn; [reflexivity|].
  destruct (h e d1) as [[r d2] t2]. reflexivity.
Qed.

Lemma try_except_driver {A} (c : M A) h d :
  driver_of (try_except c h d) =
    match outcome_of (c d) with
    | Ok _ => driver_of (c d)
    | Raise e => driver_of (h e (driver_of (c d)))
    end.
Proof.
  unfold try_except. destruct (c d) as [[[a|e] d1] t1]; cbn; [reflexivity|].
  destruct (h e d1) as [[r d2] t2]. reflexivity.
Qed.

Lemma try_except_trace {A} (c : M A) h d :
  trace_of (try_except c h d) =
    trace_of (c d) ++
    match outcome_of (c d) with
    | Ok _ => []
    | Raise e => trace_of (h e (driver_of (c d)))
    end.
Proof.
  unfold try_except. destruct (c d) as [[[a|e] d1] t1]; cbn.
  - symmetry. apply app_nil_r.
  - destruct (h e d1) as [[r d2] t2]. reflexivity.
Qed.

(** A stage under a deadline: [try: ... except TimeoutError: raise ...]
    changes the exception, never the state or the trace. *)
Lemma guarded_run {A} (c : M A) (replacement : exn) d :
  try_except c (except_TimeoutError replacement) d =
    (match outcome_of (c d) with
     | Ok a => Ok a
     | Raise e => Raise (if is_TimeoutError e then replacement else e)
     end, driver_of (c d), trace_of (c d)).
Proof.
  unfold try_except, except_TimeoutError.
  destruct (c d) as [[[a|e] d1] t1]; cbn; [reflexivity|].
  destruct (is_TimeoutError e); cbn; rewrite app_nil_r; reflexivity.
Qed.

(** ** Computations that emit only events of one kind *)

Section Emits.
Context {A B : Type} (P : Event -> bool).

Lemma emits_ret (a : A) : emits P (ret a).
Proof. intros d. reflexivity. Qed.

Lemma emits_raise (e : exn) : emits P (@raise A e).
Proof. intros d. reflexivity. Qed.

Lemma emits_lift (o : Outcome A) : emits P (lift o).
Proof. intros d. reflexivity. Qed.

Lemma emits_get (f : Driver -> A) : emits P (get f).
Proof. intros d. reflexivity. Qed.

Lemma emits_update f : emits P (update f).
Proof. intros d. reflexivity. Qed.

Lemma emits_emit ev : P ev = true -> emits P (emit ev).
Proof. intros H d. cbn. rewrite H. reflexivity. Qed.

Lemma emits_bind (c : M A) (k : A -> M B) :
  emits P c -> (forall a, emits P (k a)) -> emits P (bind c k).
Proof.
  intros Hc Hk d. rewrite bind_trace, forallb_app, Hc. cbn.
  destruct (outcome_of (c d)); [apply Hk | reflexivity].
Qed.

Lemma emits_try_except (c : M A) h :
  emits P c -> (forall e, emits P (h e)) -> emits P (try_except c h).
Proof.
  intros Hc Hh d. rewrite try_except_trace, forallb_app, Hc. cbn.
  destruct (outcome_of (c d)); [reflexivity | apply Hh].
Qed.

Lemma emits_try_finally (c : M A) f :
  emits P c -> emits P f -> emits P (try_finally c f).
Proof.
  intros Hc Hf d. unfold try_finally.
  specialize (Hc d). specialize (Hf (driver_of (c d))).
  destruct (c d) as [[r d1] t1]. cbn in *.
  destruct (f d1) as [[[u|e] d2] t2]; cbn in *;
    rewrite forallb_app, Hc, Hf; reflexivity.
Qed.

Lemma emits_except_TimeoutError (replacement e : exn) :
  emits P (@except_TimeoutError A replacement e).
Proof. unfold except_TimeoutError. destruct (is_TimeoutError e); apply emits_raise. Qed.

Lemma emits_wait_for (expired : bool) (c : M A) :
  emits P c -> emits P (wait_for expired c).
Proof. intros H. unfold wait_for. destruct expired; [apply emits_raise | exact H]. Qed.

End Emits.

Lemma emits_async_with {A} P (enter : M unit) (body : M A) leave :
  emits P enter -> emits P body -> emits P leave ->
  emits P (async_with enter body leave).
Proof.
  intros He Hb Hl. unfold async_with.
  apply emits_bind; [exact He | intros _; apply emits_try_finally; assumption].
Qed.

Lemma emits_runner {A} P (c : RunnerCall) (o : Outcome A) :
  P (Runner c) = true -> emits P (runner c o).
Proof.
  intros H. unfold runner.
  apply emits_bind; [apply emits_emit, H | intros _; apply emits_lift].
Qed.

(** Walks a computation built from the combinators above. *)
Ltac emits_step :=
  lazymatch goal with
  | |- emits _ (bind _ _) => apply emits_bind; [|intros ?]
  | |- emits _ (ret _) => apply emits_ret
  | |- emits _ (raise _) => apply emits_raise
  | |- emits _ (lift _) => apply emits_lift
  | |- emits _ (get _) => apply emits_get
  | |- emits _ (update _) => apply emits_update
  | |- emits _ (emit _) => apply emits_emit; reflexivity
  | |- emits _ (send _) => apply emits_emit; reflexivity
  | |- emits _ (runner _ _) => apply emits_runner; reflexivity
  | |- emits _ (_set_deadline _) => apply emits_emit; reflexivity
  | |- emits _ (_extend_deadline _) => apply emits_emit; reflexivity
  | |- emits _ (try_except _ _) => apply emits_try_except; [|intros ?]
  | |- emits _ (try_finally _ _) => apply emits_try_finally
  | |- emits _ (async_with _ _ _) => apply emits_async_with
  | |- emits _ (wait_for _ _) => apply emits_wait_for
  | |- emits _ (except_TimeoutError _ _) => apply emits_except_TimeoutError
  | |- emits _ (if ?b then _ else _) => destruct b
  | |- emits _ (match ?x with _ => _ end) => destruct x
  end.

Ltac emits_walk := repeat emits_step.

(** Every stage body emits stage events only as long as it sends no
    terminal message; the upload stage is treated apart. *)
Lemma emits_enter_stage stage : emits is_stage_event (_enter_stage stage).
Proof. unfold _enter_stage. emits_walk. Qed.

Lemma emits_security_checks env w :
  emits is_stage_event (run_security_checks_or_fail env w).
Proof.
  unfold run_security_checks_or_fail, run_cve_2022_0492_check_or_fail,
    run_nvidia_toolkit_version_check_or_fail.
  emits_walk.
Qed.

Lemma emits_startup_stage env w : emits is_stage_event (_startup_stage env w).
Proof.
  unfold _startup_stage.
  pose proof (emits_enter_stage JobStage.EXECUTOR_STARTUP).
  pose proof (emits_security_checks env w).
  repeat first [assumption | emits_step].
Qed.

Lemma emits_download_stage w : emits is_stage_event (_download_stage w).
Proof.
  unfold _download_stage.
  pose proof (emits_enter_stage JobStage.VOLUME_DOWNLOAD).
  repeat first [assumption | emits_step].
Qed.

Lemma emits_fail_if_execution_unsuccessful :
  emits is_stage_event fail_if_execution_unsuccessful.
Proof. unfold fail_if_execution_unsuccessful. emits_walk. Qed.

Lemma emits_execution_stage w : emits is_stage_event (_execution_stage w).
Proof.
  unfold _execution_stage.
  pose proof (emits_enter_stage JobStage.EXECUTION).
  pose proof emits_fail_if_execution_unsuccessful.
  repeat first [assumption | emits_step].
Qed.

(** ** The shape of the pipeline's trace *)

Lemma pipeline_bind {A B} (c : M A) (k : A -> M B) :
  emits is_stage_event c ->
  (forall a d, pipeline_trace (k a d)) ->
  forall d, pipeline_trace (bind c k d).
Proof.
  intros Hc Hk d. unfold pipeline_trace.
  rewrite bind_outcome, bind_trace.
  specialize (Hc d).
  destruct (outcome_of (c d)) as [a|e].
  - specialize (Hk a (driver_of (c d))). unfold pipeline_trace in Hk.
    destruct (outcome_of (k a (driver_of (c d)))).
    + destruct Hk as (t0 & r & Ht & Hq).
      exists (trace_of (c d) ++ t0), r. split.
      * rewrite Ht. apply app_assoc.
      * rewrite forallb_app, Hc, Hq. reflexivity.
    + rewrite forallb_app, Hc, Hk. reflexivity.
  - rewrite app_nil_r. exact Hc.
Qed.

Lemma pipeline_guarded {A} (c : M A) (replacement : exn) :
  (forall d, pipeline_trace (c d)) ->
  forall d, pipeline_trace (try_except c (except_TimeoutError replacement) d).
Proof.
  intros Hc d. rewrite guarded_run. specialize (Hc d).
  unfold pipeline_trace in *. cbn.
  destruct (outcome_of (c d)); exact Hc.
Qed.

Lemma pipeline_wait_for {A} (expired : bool) (c : M A) :
  (forall d, pipeline_trace (c d)) ->
  forall d, pipeline_trace (wait_for expired c d).
Proof. intros Hc d. destruct expired; [reflexivity | apply Hc]. Qed.

Lemma pipeline_upload_stage w d : pipeline_trace (_upload_stage w d).
Proof.
  unfold _upload_stage, pipeline_trace, bind, runner, _enter_stage, update,
    emit, lift, get, send.
  cbn. destruct (upload_results w) as [r|e]; cbn.
  - eexists [_; _], _. split; reflexivity.
  - reflexivity.
Qed.

Lemma pipeline_execute env w d : pipeline_trace (_execute env w d).
Proof.
  revert d. unfold _execute.
  pose proof (emits_startup_stage env w) as Hs.
  pose proof (emits_download_stage w) as Hd.
  pose proof (emits_execution_stage w) as He.
  repeat (apply pipeline_bind; [repeat first [assumption | emits_step] | intros ?]).
  apply pipeline_guarded, pipeline_wait_for. intros d. apply pipeline_upload_stage.
Qed.

(** A trace of stage events holds no terminal message and no cleanup. *)
Lemma stage_events_terminal t :
  forallb is_stage_event t = true -> terminal_messages t = [].
Proof.
  unfold terminal_messages.
  induction t as [|ev t IH]; [reflexivity|].
  cbn [forallb]. intros [Hev Ht]%andb_prop.
  destruct ev; cbn; try (apply IH; exact Ht).
  cbn in Hev. destruct (is_terminal m); [discriminate | apply IH; exact Ht].
Qed.

Lemma stage_events_clean t :
  forallb is_stage_event t = true -> List.filter is_clean_call t = [].
Proof.
  induction t as [|ev t IH]; [reflexivity|].
  cbn [forallb]. intros [Hev Ht]%andb_prop.
  destruct ev as [| | | | | | | | |c| | |]; cbn; try (apply IH; exact Ht).
  destruct c; cbn in *; try (apply IH; exact Ht). discriminate.
Qed.

Lemma stage_events_no_clean t :
  forallb is_stage_event t = true -> ~ In (Runner clean_call) t.
Proof.
  intros H Hin. rewrite forallb_forall in H.
  specialize (H _ Hin). discriminate.
Qed.

Lemma outbound_app t1 t2 : outbound (t1 ++ t2) = outbound t1 ++ outbound t2.
Proof.
  induction t1 as [|ev t1 IH]; [reflexivity|].
  destruct ev; cbn; rewrite ?IH; reflexivity.
Qed.

Lemma terminal_messages_app t1 t2 :
  terminal_messages (t1 ++ t2) = terminal_messages t1 ++ terminal_messages t2.
Proof. unfold terminal_messages. rewrite outbound_app. apply List.filter_app. Qed.

(** ** What [execute] adds around the pipeline *)

Lemma cleanup_run w d :
  cleanup w d =
    (Ok tt, d,
     Runner clean_call ::
       match clean w with
       | Ok _ => []
       | Raise e => [Logged (LogCleanupFailed e)]
       end).
Proof.
  unfold cleanup, try_except, runner, bind, emit, lift.
  destruct (clean w) as [[]|e]; reflexivity.
Qed.

Lemma report_job_failure env message reason context d :
  report_failure env (JobError message reason context) d =
    (Ok tt, d,
     [Logged (LogJobError (JobError message reason context));
      Sent (V0JobFailedRequest
              {| V0JobFailedRequest.job_uuid := job_uuid env;
                 V0JobFailedRequest.stage := current_stage d;
                 V0JobFailedRequest.reason := reason;
                 V0JobFailedRequest.message := message;
                 V0JobFailedRequest.docker_process_exit_status :=
                   match execution_result d with
                   | Some r => Some (return_code r)
                   | None => None
                   end;
                 V0JobFailedRequest.docker_process_stdout :=
                   match execution_result d with
                   | Some r => Some (stdout r)
                   | None => None
                   end;
                 V0JobFailedRequest.docker_process_stderr :=
                   match execution_result d with
                   | Some r => Some (stderr r)
                   | None => None
                   end;
                 V0JobFailedRequest.context := context |})]).
Proof. reflexivity. Qed.

Lemma report_horde_failure_run env e d message reason context :
  wrap_unhandled env e = (message, reason, context) ->
  report_horde_failure env e d =
    (Ok tt, d,
     [SentryCaptured e;
      Logged (LogHordeError
                (HordeError message reason
                   (add_context context {[ "stage" := CtxStage (current_stage d) ]})));
      Sent (V0HordeFailedRequest
              {| V0HordeFailedRequest.job_uuid := job_uuid env;
                 V0HordeFailedRequest.reported_by := JobParticipantType.EXECUTOR;
                 V0HordeFailedRequest.reason := reason;
                 V0HordeFailedRequest.message := message;
                 V0HordeFailedRequest.context :=
                   add_context context {[ "stage" := CtxStage (current_stage d) ]} |})]).
Proof.
  intros Hw. unfold report_horde_failure. rewrite Hw. reflexivity.
Qed.

Lemma report_other_failure env e d :
  is_JobError e = false ->
  report_failure env e d = report_horde_failure env e d.
Proof. destruct e; [discriminate | reflexivity ..]. Qed.

(** Reporting never raises and leaves the driver as it is. *)
Lemma report_failure_run env e d :
  report_failure env e d = (Ok tt, d, trace_of (report_failure env e d)).
Proof.
  destruct (is_JobError e) eqn:He.
  - destruct e; try discriminate. reflexivity.
  - rewrite (report_other_failure _ _ _ He).
    destruct (wrap_unhandled env e) as [[m r] c] eqn:Hw.
    rewrite (report_horde_failure_run _ _ _ _ _ _ Hw). reflexivity.
Qed.

(** The whole run, in terms of the pipeline's: [execute] returns normally,
    and its trace is the pipeline's, then the failure report if the
    pipeline raised, then the cleanup. *)
Lemma execute_run env w d :
  execute env w d =
    (Ok tt, driver_of (_execute env w d),
     MinerClientEntered ::
       trace_of (_execute env w d)
       ++ match outcome_of (_execute env w d) with
          | Ok _ => []
          | Raise e => trace_of (report_failure env e (driver_of (_execute env w d)))
          end
       ++ trace_of (cleanup w (driver_of (_execute env w d)))
       ++ [MinerClientExited]).
Proof.
  unfold execute, async_with, try_finally, try_except.
  unfold bind at 1. cbn [emit].
  destruct (_execute env w d) as [[[[]|e] d1] t0];
    cbn [outcome_of driver_of trace_of fst snd].
  - rewrite cleanup_run. cbn. repeat rewrite <- app_assoc. reflexivity.
  - rewrite (report_failure_run env e d1), cleanup_run. cbn.
    repeat rewrite <- app_assoc. reflexivity.
Qed.

Lemma execute_ignores_clean env w d o :
  _execute env (with_clean o w) d = _execute env w d.
Proof. reflexivity. Qed.

Lemma report_failure_outbound env e d :
  exists m, outbound (trace_of (report_failure env e d)) = [m]
            /\ is_terminal m = true
            /\ (if is_JobError e
                then exists f, m = V0JobFailedRequest f
                else exists h, m = V0HordeFailedRequest h)
            /\ ~ In (Runner clean_call) (trace_of (report_failure env e d)).
Proof.
  destruct (is_JobError e) eqn:He.
  - destruct e; try discriminate. rewrite report_job_failure.
    eexists. repeat split; [eexists; reflexivity|].
    cbn. intros [H|[H|[]]]; discriminate.
  - rewrite (report_other_failure _ _ _ He).
    destruct (wrap_unhandled env e) as [[m r] c] eqn:Hw.
    rewrite (report_horde_failure_run _ _ _ _ _ _ Hw).
    eexists. repeat split; [eexists; reflexivity|].
    cbn. intros [H|[H|[H|[]]]]; discriminate.
Qed.

Lemma cleanup_outbound w d : outbound (trace_of (cleanup w d)) = [].
Proof. rewrite cleanup_run. cbn. destruct (clean w); reflexivity. Qed.

(** What the miner receives in a run: what the pipeline sent, then the
    failure report if the pipeline raised. *)
Lemma execute_outbound env w d :
  outbound (trace_of (execute env w d)) =
    outbound (trace_of (_execute env w d))
    ++ match outcome_of (_execute env w d) with
       | Ok _ => []
       | Raise e =>
           outbound (trace_of (report_failure env e (driver_of (_execute env w d))))
       end.
Proof.
  rewrite execute_run. cbn [trace_of snd outbound].
  rewrite !outbound_app, cleanup_outbound. cbn [outbound].
  rewrite !app_nil_r.
  destruct (outcome_of (_execute env w d)); reflexivity.
Qed.

Lemma stage_events_outbound_terminal t :
  forallb is_stage_event t = true -> List.filter is_terminal (outbound t) = [].
Proof. apply stage_events_terminal. Qed.

(** ** The terminal message *)

(** C1.  Every run of [execute] sends exactly one terminal message, and it
    is the last message the miner receives: [V0JobFinishedRequest] when the
    four stages complete, [V0JobFailedRequest] when the pipeline raises a
    [JobError], [V0HordeFailedRequest] when it raises anything else. *)
Theorem execute_sends_one_terminal_message env w d :
  exists m,
    terminal_messages (trace_of (execute env w d)) = [m]
    /\ last (outbound (trace_of (execute env w d))) = Some m
    /\ match outcome_of (_execute env w d) with
       | Ok _ => exists r, m = V0JobFinishedRequest r
       | Raise e =>
           if is_JobError e
           then exists failed, m = V0JobFailedRequest failed
           else exists failed, m = V0HordeFailedRequest failed
       end.
Proof.
  unfold terminal_messages. rewrite execute_outbound.
  pose proof (pipeline_execute env w d) as Hp. unfold pipeline_trace in Hp.
  destruct (outcome_of (_execute env w d)) as [[]|e].
  - destruct Hp as (t0 & r & Ht & Hq). exists (V0JobFinishedRequest r).
    rewrite Ht, app_nil_r, outbound_app. cbn [outbound].
    rewrite List.filter_app, (stage_events_outbound_terminal _ Hq).
    repeat split; [apply last_snoc | eexists; reflexivity].
  - destruct (report_failure_outbound env e (driver_of (_execute env w d)))
      as (m & Hm & Hterm & Hkind & _).
    exists m. rewrite Hm, List.filter_app, (stage_events_outbound_terminal _ Hp).
    cbn. rewrite Hterm. repeat split; [apply last_snoc | exact Hkind].
Qed.

(** ** Cleanup *)

(** C2.  Whatever the pipeline does, [runner.clean()] is invoked exactly
    once; [execute] returns normally even when [clean()] raises, the
    exception is logged, and neither the outcome, nor the driver's state,
    nor what the miner received depends on how [clean()] ended. *)
Theorem clean_runs_once_and_is_contained env w d :
  clean_calls (trace_of (execute env w d)) = 1%nat
  /\ outcome_of (execute env w d) = Ok tt
  /\ (forall e, clean w = Raise e ->
        In (Logged (LogCleanupFailed e)) (trace_of (execute env w d)))
  /\ (forall o,
        outcome_of (execute env (with_clean o w) d) = outcome_of (execute env w d)
        /\ driver_of (execute env (with_clean o w) d) = driver_of (execute env w d)
        /\ outbound (trace_of (execute env (with_clean o w) d))
           = outbound (trace_of (execute env w d))).
Proof.
  repeat split.
  - unfold clean_calls. rewrite execute_run. cbn [trace_of snd].
    pose proof (pipeline_execute env w d) as Hp. unfold pipeline_trace in Hp.
    rewrite cleanup_run. cbn [trace_of snd List.filter is_clean_call].
    rewrite !List.filter_app.
    assert (List.filter is_clean_call (trace_of (_execute env w d)) = []) as ->.
    { destruct (outcome_of (_execute env w d)).
      - destruct Hp as (t0 & r & -> & Hq).
        rewrite List.filter_app, (stage_events_clean _ Hq). reflexivity.
      - apply stage_events_clean, Hp. }
    assert (List.filter is_clean_call
              match outcome_of (_execute env w d) with
              | Ok _ => []
              | Raise e =>
                  trace_of (report_failure env e (driver_of (_execute env w d)))
              end = []) as ->.
    { destruct (outcome_of (_execute env w d)) as [|e]; [reflexivity|].
      destruct (is_JobError e) eqn:He.
      - destruct e; try discriminate. reflexivity.
      - rewrite (report_other_failure _ _ _ He).
        destruct (wrap_unhandled env e) as [[m r] c] eqn:Hw.
        rewrite (report_horde_failure_run _ _ _ _ _ _ Hw). reflexivity. }
    cbn. destruct (clean w); reflexivity.
  - rewrite execute_run. reflexivity.
  - intros e He. rewrite execute_run. cbn [trace_of snd].
    right. rewrite !in_app_iff. right. right. left.
    rewrite cleanup_run, He. cbn. right. left. reflexivity.
  - rewrite !execute_run. reflexivity.
  - rewrite !execute_run. cbn [driver_of fst snd].
    rewrite execute_ignores_clean. reflexivity.
  - rewrite !execute_outbound, execute_ignores_clean. reflexivity.
Qed.

Lemma report_failure_shape env e d :
  exists pre m,
    trace_of (report_failure env e d) = pre ++ [Sent m]
    /\ is_terminal m = true
    /\ ~ In (Runner clean_call) pre.
Proof.
  destruct (is_JobError e) eqn:He.
  - destruct e; try discriminate. rewrite report_job_failure.
    eexists [_], _. repeat split. cbn. intros [H|[]]. discriminate.
  - rewrite (report_other_failure _ _ _ He).
    destruct (wrap_unhandled env e) as [[m r] c] eqn:Hw.
    rewrite (report_horde_failure_run _ _ _ _ _ _ Hw).
    eexists [_; _], _. repeat split. cbn. intros [H|[H|[]]]; discriminate.
Qed.

Lemma execute_shape env w d :
  exists before m after,
    trace_of (execute env w d) = before ++ Sent m :: Runner clean_call :: after
    /\ is_terminal m = true
    /\ ~ In (Runner clean_call) before
    /\ outbound after = [].
Proof.
  pose proof (pipeline_execute env w d) as Hp. unfold pipeline_trace in Hp.
  rewrite execute_run. cbn [trace_of snd]. rewrite cleanup_run. cbn [trace_of snd].
  assert (outbound
            (match clean w with
             | Ok _ => []
             | Raise e => [Logged (LogCleanupFailed e)]
             end ++ [MinerClientExited]) = []) as Hafter.
  { destruct (clean w); reflexivity. }
  destruct (outcome_of (_execute env w d)) as [[]|e].
  - destruct Hp as (t0 & r & Ht & Hq).
    exists (MinerClientEntered :: t0), (V0JobFinishedRequest r).
    eexists. repeat split.
    + rewrite Ht. cbn. rewrite <- app_assoc. reflexivity.
    + intros [H|H]; [discriminate | exact (stage_events_no_clean _ Hq H)].
    + exact Hafter.
  - destruct (report_failure_shape env e (driver_of (_execute env w d)))
      as (pre & m & Hr & Hterm & Hpre).
    exists (MinerClientEntered :: trace_of (_execute env w d) ++ pre), m.
    eexists. repeat split.
    + rewrite Hr. cbn. repeat rewrite <- app_assoc. reflexivity.
    + exact Hterm.
    + intros [H|H]; [discriminate|].
      apply in_app_iff in H as [H|H];
        [exact (stage_events_no_clean _ Hp H) | exact (Hpre H)].
    + exact Hafter.
Qed.

(** C10.  In every run the terminal message is sent and then
    [runner.clean()] is invoked: cleanup is not invoked before it, nothing
    is sent after it, and what the miner received does not depend on how
    [clean()] ended. *)
Theorem terminal_message_precedes_clean env w d :
  exists before m after,
    trace_of (execute env w d) = before ++ Sent m :: Runner clean_call :: after
    /\ is_terminal m = true
    /\ ~ In (Runner clean_call) before
    /\ outbound after = []
    /\ forall o,
         outbound (trace_of (execute env (with_clean o w) d))
         = outbound (trace_of (execute env w d)).
Proof.
  destruct (execute_shape env w d) as (before & m & after & Ht & Hm & Hb & Ha).
  exists before, m, after. repeat split; try assumption.
  intros o. rewrite !execute_outbound, execute_ignores_clean. reflexivity.
Qed.

(** ** Failure reports *)

(** C3.  When the pipeline raises a [JobError], the miner receives, after
    what the pipeline had sent, a [V0JobFailedRequest] with the current
    stage, the error's reason, message and context, and the runner's
    execution result when there is one ([None] fields otherwise).  When it
    raises anything else, the exception is wrapped as a [HordeError], the
    current stage is added to its context under ["stage"], and the miner
    receives a [V0HordeFailedRequest] reported by the executor. *)
Theorem failures_are_reported env w d :
  let run := _execute env w d in
  (forall message reason context,
     outcome_of run = Raise (JobError message reason context) ->
     outbound (trace_of (execute env w d)) =
       outbound (trace_of run) ++
       [V0JobFailedRequest
          {| V0JobFailedRequest.job_uuid := job_uuid env;
             V0JobFailedRequest.stage := current_stage (driver_of run);
             V0JobFailedRequest.reason := reason;
             V0JobFailedRequest.message := message;
             V0JobFailedRequest.docker_process_exit_status :=
               match execution_result (driver_of run) with
               | Some r => Some (return_code r)
               | None => None
               end;
             V0JobFailedRequest.docker_process_stdout :=
               match execution_result (driver_of run) with
               | Some r => Some (stdout r)
               | None => None
               end;
             V0JobFailedRequest.docker_process_stderr :=
               match execution_result (driver_of run) with
               | Some r => Some (stderr r)
               | None => None
               end;
             V0JobFailedRequest.context := context |}])
  /\ (forall e,
        outcome_of run = Raise e ->
        is_JobError e = false ->
        exists message reason wrapped (context : gmap string ctx_value),
          wrap_unhandled env e = (message, reason, wrapped)
          /\ outbound (trace_of (execute env w d)) =
               outbound (trace_of run) ++
               [V0HordeFailedRequest
                  {| V0HordeFailedRequest.job_uuid := job_uuid env;
                     V0HordeFailedRequest.reported_by := JobParticipantType.EXECUTOR;
                     V0HordeFailedRequest.reason := reason;
                     V0HordeFailedRequest.message := message;
                     V0HordeFailedRequest.context := Some context |}]
          /\ context !! "stage" = Some (CtxStage (current_stage (driver_of run)))
          /\ forall key, key <> "stage" ->
               context !! key = default ∅ wrapped !! key).
Proof.
  intros run. split.
  - intros message reason context Ho.
    rewrite execute_outbound. fold run. rewrite Ho, report_job_failure.
    reflexivity.
  - intros e Ho He.
    destruct (wrap_unhandled env e) as [[message reason] wrapped] eqn:Hw.
    exists message, reason, wrapped.
    eexists. split; [reflexivity|]. split; [|split].
    + rewrite execute_outbound. fold run.
      rewrite Ho, (report_other_failure _ _ _ He),
        (report_horde_failure_run _ _ _ _ _ _ Hw).
      reflexivity.
    + apply lookup_union_Some_l, lookup_singleton_eq.
    + intros key Hkey. apply lookup_union_r, lookup_singleton_ne. congruence.
Qed.

(** ** The execution verdict *)

(** C9.  Given an execution result, [fail_if_execution_unsuccessful] looks
    at [timed_out] first: a timed-out job fails with reason [TIMEOUT]
    whatever its return code; [NONZERO_RETURN_CODE] is raised exactly when
    the job did not time out and returned non-zero; a job that neither
    timed out nor returned non-zero passes. *)
Theorem fail_if_execution_unsuccessful_priority d result :
  execution_result d = Some result ->
  let outcome := outcome_of (fail_if_execution_unsuccessful d) in
  (timed_out result = true ->
     outcome = Raise (JobError "Job container timed out during execution"
                        JobFailureReason.TIMEOUT None))
  /\ (timed_out result = false -> return_code result <> 0 ->
        outcome = Raise (JobError
                           ("Job container exited with non-zero exit code: "
                              +:+ Py.str_of_int (return_code result))
                           JobFailureReason.NONZERO_RETURN_CODE None))
  /\ (forall message context,
        outcome = Raise (JobError message JobFailureReason.NONZERO_RETURN_CODE context) ->
        timed_out result = false /\ return_code result <> 0)
  /\ (timed_out result = false -> return_code result = 0 -> outcome = Ok tt).
Proof.
  intros Hr outcome. subst outcome.
  unfold fail_if_execution_unsuccessful, bind, get. rewrite Hr.
  cbn [outcome_of fst].
  destruct (timed_out result); cbn.
  - repeat split; try discriminate.
  - destruct (Z.eqb_spec (return_code result) 0) as [Hz|Hz]; cbn.
    + repeat split; try discriminate; try congruence.
    + repeat split; try discriminate; try congruence.
Qed.

(** ** Streaming certificate *)

Lemma bind_reached {A B} (P : Event -> bool) (c : M A) (k : A -> M B) d ev :
  emits P c -> P ev = false ->
  In ev (trace_of (bind c k d)) ->
  exists a, outcome_of (c d) = Ok a /\ In ev (trace_of (k a (driver_of (c d)))).
Proof.
  intros Hc Hev Hin. rewrite bind_trace in Hin.
  apply in_app_iff in Hin as [Hin|Hin].
  - specialize (Hc d). rewrite forallb_forall in Hc.
    apply Hc in Hin. congruence.
  - destruct (outcome_of (c d)) as [a|e]; [|destruct Hin].
    exists a. split; [reflexivity | exact Hin].
Qed.

Lemma bind_ends_with {A B} (c : M A) (k : A -> M B) d a suffix o :
  outcome_of (c d) = Ok a ->
  (exists t0, trace_of (k a (driver_of (c d))) = t0 ++ suffix)
  /\ outcome_of (k a (driver_of (c d))) = o ->
  (exists t0, trace_of (bind c k d) = t0 ++ suffix)
  /\ outcome_of (bind c k d) = o.
Proof.
  intros Hok [[t0 Ht] Ho]. rewrite bind_trace, bind_outcome, Hok. split.
  - exists (trace_of (c d) ++ t0). rewrite Ht. apply app_assoc.
  - exact Ho.
Qed.

Lemma security_checks_before_ready env w :
  emits before_ready (run_security_checks_or_fail env w).
Proof.
  unfold run_security_checks_or_fail, run_cve_2022_0492_check_or_fail,
    run_nvidia_toolkit_version_check_or_fail.
  emits_walk.
Qed.

(** One step of a run known to have reached the executor-ready message:
    the step returned, and the goal moves to what follows it. *)
Ltac reach H :=
  let a := fresh "a" in
  let Hok := fresh "Hok" in
  apply (bind_reached before_ready) in H as (a & Hok & H);
  [ apply (bind_ends_with _ _ _ _ _ _ Hok)
  | first [ apply security_checks_before_ready
          | unfold _enter_stage; emits_walk ]
  | reflexivity ].

(** C8.  Take an initial request with streaming details and a startup
    stage that got as far as sending executor-ready.  When [executor_ip]
    was supplied (the public key always is), the assertion passes and the
    very next thing the stage does is call
    [runner.generate_streaming_certificate] with that [executor_ip] and
    that [public_key]; the stage then ends as that call does.  When
    [executor_ip] is missing the assertion fails and no certificate is
    asked for. *)
Theorem streaming_certificate_is_generated env w d req details :
  initial_msg w = Ok req ->
  streaming_details req = Some details ->
  let run := _startup_stage env w d in
  In (Sent V0ExecutorReadyRequest) (trace_of run) ->
  match executor_ip details with
  | Some ip =>
      (exists t0,
         trace_of run =
           t0 ++ [Sent V0ExecutorReadyRequest;
                  Runner (generate_streaming_certificate_call ip (public_key details))])
      /\ outcome_of run =
           match generate_streaming_certificate w with
           | Ok _ => Ok req
           | Raise e => Raise e
           end
  | None =>
      (exists t0, trace_of run = t0 ++ [Sent V0ExecutorReadyRequest])
      /\ outcome_of run = Raise (AssertionError "")
  end.
Proof.
  intros Hreq Hsd run Hready. subst run. unfold _startup_stage in *.
  destruct (executor_ip details) as [ip|] eqn:Hip.
  - do 5 reach Hready.
    cbn in Hok3. rewrite Hreq in Hok3. injection Hok3 as <-.
    reach Hready. clear Hready.
    rewrite Hsd, Hip.
    match goal with |- context [bind _ _ ?s] => generalize s end. intros d'.
    unfold bind, send, emit, runner, lift, ret. cbn.
    destruct (generate_streaming_certificate w) as [[]|e]; cbn;
      (split; [exists []; reflexivity | reflexivity]).
  - do 5 reach Hready.
    cbn in Hok3. rewrite Hreq in Hok3. injection Hok3 as <-.
    reach Hready. clear Hready.
    rewrite Hsd, Hip.
    match goal with |- context [bind _ _ ?s] => generalize s end. intros d'.
    unfold bind, send, emit, raise, ret. cbn.
    split; [exists []; reflexivity | reflexivity].
Qed.

(** ** The stage label and the schedule of each stage *)

Lemma keeps_pure {A} (c : M A) :
  (forall d, driver_of (c d) = d) -> keeps_stage c.
Proof. intros H d. rewrite H. reflexivity. Qed.

Lemma keeps_bind {A B} (c : M A) (k : A -> M B) :
  keeps_stage c -> (forall a, keeps_stage (k a)) -> keeps_stage (bind c k).
Proof.
  intros Hc Hk d. rewrite bind_driver.
  destruct (outcome_of (c d)); [rewrite Hk|]; apply Hc.
Qed.

Lemma keeps_try_finally {A} (c : M A) f :
  keeps_stage c -> keeps_stage f -> keeps_stage (try_finally c f).
Proof.
  intros Hc Hf d. unfold try_finally.
  specialize (Hc d). specialize (Hf (driver_of (c d))).
  destruct (c d) as [[r d1] t1]. cbn in *.
  destruct (f d1) as [[[u|e] d2] t2]; cbn in *; congruence.
Qed.

Ltac keeps_step :=
  lazymatch goal with
  | |- keeps_stage (bind _ _) => apply keeps_bind; [|intros ?]
  | |- keeps_stage (try_finally _ _) => apply keeps_try_finally
  | |- keeps_stage (async_with _ _ _) => unfold async_with
  | |- keeps_stage (runner _ _) => unfold runner
  | |- keeps_stage (if ?b then _ else _) => destruct b
  | |- keeps_stage (match ?x with _ => _ end) => destruct x
  | |- keeps_stage (update _) => intros ?; reflexivity
  | |- keeps_stage _ => apply keeps_pure; intros ?; reflexivity
  end.

Lemma stage_current {A} stage (rest : M A) d :
  keeps_stage rest ->
  current_stage (driver_of (bind (_enter_stage stage) (fun _ => rest) d)) = stage.
Proof. intros H. rewrite bind_driver. cbn. rewrite H. reflexivity. Qed.

Lemma download_stage_current w d :
  current_stage (driver_of (_download_stage w d)) = JobStage.VOLUME_DOWNLOAD.
Proof. apply stage_current. repeat keeps_step. Qed.

Lemma execution_stage_current w d :
  current_stage (driver_of (_execution_stage w d)) = JobStage.EXECUTION.
Proof.
  apply stage_current. unfold fail_if_execution_unsuccessful. repeat keeps_step.
Qed.

Lemma upload_stage_current w d :
  current_stage (driver_of (_upload_stage w d)) = JobStage.RESULT_UPLOAD.
Proof. apply stage_current. repeat keeps_step. Qed.

Lemma off_schedule_nil t : forallb off_schedule t = true -> schedule t = [].
Proof.
  unfold schedule, off_schedule.
  induction t as [|ev t IH]; [reflexivity|].
  cbn. intros [Hev Ht]%andb_prop.
  apply negb_true_iff in Hev. rewrite Hev. apply IH, Ht.
Qed.

Lemma stage_schedule {A} stage (rest : M A) d :
  emits off_schedule rest ->
  schedule (trace_of (bind (_enter_stage stage) (fun _ => rest) d)) = [StageEntered stage].
Proof.
  intros H. rewrite bind_trace. cbn.
  rewrite (off_schedule_nil _ (H _)). reflexivity.
Qed.

Lemma security_checks_off_schedule env w :
  emits off_schedule (run_security_checks_or_fail env w).
Proof.
  unfold run_security_checks_or_fail, run_cve_2022_0492_check_or_fail,
    run_nvidia_toolkit_version_check_or_fail.
  emits_walk.
Qed.

Lemma startup_stage_schedule env w d :
  schedule (trace_of (_startup_stage env w d)) = [StageEntered JobStage.EXECUTOR_STARTUP].
Proof.
  apply stage_schedule.
  pose proof (security_checks_off_schedule env w).
  repeat first [assumption | emits_step].
Qed.

Lemma download_stage_schedule w d :
  schedule (trace_of (_download_stage w d)) = [StageEntered JobStage.VOLUME_DOWNLOAD].
Proof. apply stage_schedule. emits_walk. Qed.

Lemma execution_stage_schedule w d :
  schedule (trace_of (_execution_stage w d)) = [StageEntered JobStage.EXECUTION].
Proof.
  apply stage_schedule. unfold fail_if_execution_unsuccessful. emits_walk.
Qed.

Lemma upload_stage_schedule w d :
  schedule (trace_of (_upload_stage w d)) = [StageEntered JobStage.RESULT_UPLOAD].
Proof. apply stage_schedule. emits_walk. Qed.


(** ** The pipeline, stage by stage

    [_execute] in terms of the runs of its four stages: [S] is the startup
    stage, [D], [E] and [U] the download, execution and upload stages under
    [asyncio.wait_for], each started in the state its predecessor left. *)
Lemma _execute_run env w d :
  let S := _startup_stage env w d in
  let D := wait_for (download_expired_on_entry w) (_download_stage w) (driver_of S) in
  let E := wait_for (execution_expired_on_entry w) (_execution_stage w) (driver_of D) in
  let U := wait_for (upload_expired_on_entry w) (_upload_stage w) (driver_of E) in
  let on_timeout (replacement e : exn) := if is_TimeoutError e then replacement else e in
  _execute env w d =
    match outcome_of S with
    | Raise e =>
        (Raise (on_timeout
                  (HordeError "Timed out waiting for initial job details from miner"
                     HordeFailureReason.GENERIC_ERROR None) e),
         driver_of S, TimerSetTimeout (startup_time_limit env) :: trace_of S)
    | Ok req =>
        match executor_timing req, timeout_seconds req with
        | None, None =>
            (Raise (HordeError
                      "No timing received: either timeout_seconds or timing_details must be set"
                      HordeFailureReason.GENERIC_ERROR None),
             driver_of S, TimerSetTimeout (startup_time_limit env) :: trace_of S)
        | timing, seconds =>
            let before_download :=
              match timing, seconds with
              | Some t, _ => [TimerSetTimeout (allowed_leeway t);
                              TimerExtendTimeout (download_time_limit t)]
              | None, Some s => [TimerSetTimeout s]
              | None, None => []
              end in
            let before_execution :=
              match timing with
              | Some t =>
                  TimerExtendTimeout (execution_time_limit t) ::
                    (if is_streaming_job w
                     then [TimerExtendTimeout (streaming_start_time_limit t)]
                     else [])
              | None => []
              end in
            let before_upload :=
              match timing with
              | Some t => [TimerExtendTimeout (upload_time_limit t)]
              | None => []
              end in
            match outcome_of D with
            | Raise e =>
                (Raise (on_timeout
                          (JobError "Download time exceeded" JobFailureReason.TIMEOUT None) e),
                 driver_of D,
                 TimerSetTimeout (startup_time_limit env) ::
                   trace_of S ++ before_download ++ trace_of D)
            | Ok _ =>
                match outcome_of E with
                | Raise e =>
                    (Raise (on_timeout
                              (JobError "Execution time exceeded" JobFailureReason.TIMEOUT None) e),
                     driver_of E,
                     TimerSetTimeout (startup_time_limit env) ::
                       trace_of S ++ before_download ++ trace_of D
                       ++ before_execution ++ trace_of E)
                | Ok _ =>
                    (match outcome_of U with
                     | Ok a => Ok a
                     | Raise e =>
                         Raise (on_timeout
                                  (JobError "Upload time exceeded" JobFailureReason.TIMEOUT None) e)
                     end,
                     driver_of U,
                     TimerSetTimeout (startup_time_limit env) ::
                       trace_of S ++ before_download ++ trace_of D
                       ++ before_execution ++ trace_of E
                       ++ before_upload ++ trace_of U)
                end
            end
        end
    end.
Proof.
  intros S D E U on_timeout. subst S D E U on_timeout.
  unfold _execute.
  unfold bind at 1. cbn [_set_deadline emit].
  unfold bind at 1. rewrite guarded_run.
  destruct (_startup_stage env w d) as [[[req|e] s1] t1];
    cbn [outcome_of driver_of trace_of fst snd]; [|reflexivity].
  unfold bind at 1.
  destruct (executor_timing req) as [timing|]; [|destruct (timeout_seconds req) as [seconds|]];
    cbn [_set_deadline _extend_deadline emit raise ret];
    [| |cbn [app]; rewrite app_nil_r; reflexivity].
  all: unfold bind at 1; cbn [_set_deadline _extend_deadline emit raise ret].
  all: unfold bind at 1; rewrite guarded_run.
  all: destruct (wait_for (download_expired_on_entry w) (_download_stage w) s1)
         as [[[[]|e] s2] t2]; cbn [outcome_of driver_of trace_of fst snd];
       [|cbn [app]; repeat rewrite <- app_assoc; rewrite ?app_nil_r; reflexivity].
  all: unfold bind; cbn [_set_deadline _extend_deadline emit raise ret].
  all: try destruct (is_streaming_job w); cbn [_set_deadline _extend_deadline emit raise ret].
  all: rewrite !guarded_run.
  all: destruct (wait_for (execution_expired_on_entry w) (_execution_stage w) s2)
         as [[[[]|e] s3] t3]; cbn [outcome_of driver_of trace_of fst snd];
       [|cbn [app]; repeat rewrite <- app_assoc; rewrite ?app_nil_r; reflexivity].
  all: destruct (wait_for (upload_expired_on_entry w) (_upload_stage w) s3)
         as [[[[]|e] s4] t4]; cbn [outcome_of driver_of trace_of fst snd].
  all: cbn [app]; repeat rewrite <- app_assoc; rewrite ?app_nil_r; reflexivity.
Qed.

Lemma schedule_app t1 t2 : schedule (t1 ++ t2) = schedule t1 ++ schedule t2.
Proof. apply List.filter_app. Qed.

Lemma guarded_stage_schedule {A} (expired : bool) (c : M A) d ev :
  (forall d, schedule (trace_of (c d)) = [ev]) ->
  schedule (trace_of (wait_for expired c d)) = (if expired then [] else [ev])
  /\ (expired = true -> outcome_of (wait_for expired c d) = Raise TimeoutError).
Proof.
  intros H. destruct expired; cbn.
  - split; reflexivity.
  - split; [apply H | discriminate].
Qed.

(** ** The deadline

    C4.  After a startup stage that returned the initial request [req],
    the deadline calls and stage entries of the pipeline are, in order:
    with timing details (whether or not [timeout_seconds] is also there)
    the deadline is set to [allowed_leeway], then extended by the download
    limit before the download stage is entered, by the execution limit and,
    for a streaming job, the streaming start limit before the execution
    stage, and by the upload limit before the upload stage; with only
    [timeout_seconds] the deadline is set to it and never extended; with
    neither the pipeline raises the "No timing received" horde error.  A
    run that stops early shows a prefix of that schedule. *)
Theorem deadline_follows_timing env w d req :
  outcome_of (_startup_stage env w d) = Ok req ->
  let run := _execute env w d in
  let sched := schedule (trace_of run) in
  let startup :=
    [TimerSetTimeout (startup_time_limit env);
     StageEntered JobStage.EXECUTOR_STARTUP] in
  match executor_timing req, timeout_seconds req with
  | Some t, _ =>
      let full :=
        startup
        ++ [TimerSetTimeout (allowed_leeway t);
            TimerExtendTimeout (download_time_limit t);
            StageEntered JobStage.VOLUME_DOWNLOAD;
            TimerExtendTimeout (execution_time_limit t)]
        ++ (if is_streaming_job w
            then [TimerExtendTimeout (streaming_start_time_limit t)]
            else [])
        ++ [StageEntered JobStage.EXECUTION;
            TimerExtendTimeout (upload_time_limit t);
            StageEntered JobStage.RESULT_UPLOAD] in
      (startup ++ [TimerSetTimeout (allowed_leeway t);
                   TimerExtendTimeout (download_time_limit t)]) `prefix_of` sched
      /\ sched `prefix_of` full
      /\ (outcome_of run = Ok tt -> sched = full)
  | None, Some seconds =>
      let full :=
        startup
        ++ [TimerSetTimeout seconds;
            StageEntered JobStage.VOLUME_DOWNLOAD;
            StageEntered JobStage.EXECUTION;
            StageEntered JobStage.RESULT_UPLOAD] in
      (startup ++ [TimerSetTimeout seconds]) `prefix_of` sched
      /\ sched `prefix_of` full
      /\ (outcome_of run = Ok tt -> sched = full)
  | None, None =>
      sched = startup
      /\ outcome_of run =
           Raise (HordeError
                    "No timing received: either timeout_seconds or timing_details must be set"
                    HordeFailureReason.GENERIC_ERROR None)
  end.
Proof.
  intros HS run sched startup. subst run sched startup.
  pose proof (_execute_run env w d) as Hrun. cbv zeta in Hrun.
  rewrite HS in Hrun. rewrite Hrun. clear Hrun.
  pose proof (startup_stage_schedule env w d) as HsS.
  set (S := _startup_stage env w d) in *.
  destruct (guarded_stage_schedule (download_expired_on_entry w) (_download_stage w)
              (driver_of S) _ (download_stage_schedule w)) as [HsD HxD].
  set (D := wait_for (download_expired_on_entry w) (_download_stage w) (driver_of S)) in *.
  destruct (guarded_stage_schedule (execution_expired_on_entry w) (_execution_stage w)
              (driver_of D) _ (execution_stage_schedule w)) as [HsE HxE].
  set (E := wait_for (execution_expired_on_entry w) (_execution_stage w) (driver_of D)) in *.
  destruct (guarded_stage_schedule (upload_expired_on_entry w) (_upload_stage w)
              (driver_of E) _ (upload_stage_schedule w)) as [HsU HxU].
  set (U := wait_for (upload_expired_on_entry w) (_upload_stage w) (driver_of E)) in *.
  destruct (executor_timing req) as [t|]; [|destruct (timeout_seconds req) as [seconds|]].
  3: { cbn [trace_of outcome_of fst snd]. split; [|reflexivity].
       change (schedule (TimerSetTimeout (startup_time_limit env) :: trace_of S))
         with (TimerSetTimeout (startup_time_limit env) :: schedule (trace_of S)).
       rewrite HsS. reflexivity. }
  all: clearbody S D E U; cbv zeta.
  all: destruct (is_streaming_job w).
  all: destruct (download_expired_on_entry w);
         [rewrite HxD by reflexivity | destruct (outcome_of D) as [[]|?]].
  all: try (destruct (execution_expired_on_entry w);
              [rewrite HxE by reflexivity | destruct (outcome_of E) as [[]|?]]).
  all: try (destruct (upload_expired_on_entry w);
              [rewrite HxU by reflexivity | destruct (outcome_of U) as [[]|?]]).
  all: cbn [trace_of outcome_of fst snd]; unfold schedule in *;
       repeat first [ rewrite List.filter_app
                    | progress cbn [List.filter is_schedule_event app] ];
       rewrite ?HsS, ?HsD, ?HsE, ?HsU; cbn [app].
  all: repeat split; try discriminate; try reflexivity;
       try (eexists; cbn [app]; reflexivity).
Qed.

(** ** Timeouts *)

Lemma job_error_reported env w d message reason context :
  outcome_of (_execute env w d) = Raise (JobError message reason context) ->
  exists failed,
    last (outbound (trace_of (execute env w d))) = Some (V0JobFailedRequest failed)
    /\ V0JobFailedRequest.reason failed = reason
    /\ V0JobFailedRequest.message failed = message
    /\ V0JobFailedRequest.stage failed = current_stage (driver_of (_execute env w d)).
Proof.
  intros Ho. rewrite execute_outbound, Ho, report_job_failure.
  eexists. split; [apply last_snoc|]. repeat split.
Qed.

(** C5.  A [TimeoutError] out of the startup stage becomes the horde
    error "Timed out waiting for initial job details from miner"; out of
    the download, execution or upload stage it becomes a [JobError] with
    reason [TIMEOUT], which the miner receives as a [V0JobFailedRequest]
    carrying the stage current at that time: the stage's own label
    whenever the stage had started. *)
Theorem timeouts_are_classified env w d :
  let S := _startup_stage env w d in
  let D := wait_for (download_expired_on_entry w) (_download_stage w) (driver_of S) in
  let E := wait_for (execution_expired_on_entry w) (_execution_stage w) (driver_of D) in
  let U := wait_for (upload_expired_on_entry w) (_upload_stage w) (driver_of E) in
  (outcome_of S = Raise TimeoutError ->
     outcome_of (_execute env w d) =
       Raise (HordeError "Timed out waiting for initial job details from miner"
                HordeFailureReason.GENERIC_ERROR None))
  /\ (forall req,
        outcome_of S = Ok req ->
        executor_timing req <> None \/ timeout_seconds req <> None ->
        (outcome_of D = Raise TimeoutError ->
           outcome_of (_execute env w d) =
             Raise (JobError "Download time exceeded" JobFailureReason.TIMEOUT None)
           /\ reports_timeout (trace_of (execute env w d)) (driver_of D)
                "Download time exceeded")
        /\ (outcome_of D = Ok tt -> outcome_of E = Raise TimeoutError ->
              outcome_of (_execute env w d) =
                Raise (JobError "Execution time exceeded" JobFailureReason.TIMEOUT None)
              /\ reports_timeout (trace_of (execute env w d)) (driver_of E)
                   "Execution time exceeded")
        /\ (outcome_of D = Ok tt -> outcome_of E = Ok tt ->
            outcome_of U = Raise TimeoutError ->
              outcome_of (_execute env w d) =
                Raise (JobError "Upload time exceeded" JobFailureReason.TIMEOUT None)
              /\ reports_timeout (trace_of (execute env w d)) (driver_of U)
                   "Upload time exceeded"))
  /\ (download_expired_on_entry w = false ->
        current_stage (driver_of D) = JobStage.VOLUME_DOWNLOAD)
  /\ (execution_expired_on_entry w = false ->
        current_stage (driver_of E) = JobStage.EXECUTION)
  /\ (upload_expired_on_entry w = false ->
        current_stage (driver_of U) = JobStage.RESULT_UPLOAD).
Proof.
  intros S D E U.
  pose proof (_execute_run env w d) as Hrun. cbv beta zeta in Hrun.
  fold S D E U in Hrun.
  assert (forall message (x : Outcome unit * Driver * list Event),
            _execute env w d =
              (Raise (JobError message JobFailureReason.TIMEOUT None),
               driver_of x, trace_of (_execute env w d)) ->
            outcome_of (_execute env w d) =
              Raise (JobError message JobFailureReason.TIMEOUT None)
            /\ reports_timeout (trace_of (execute env w d)) (driver_of x) message)
    as Hreport.
  { intros message x Hx.
    assert (outcome_of (_execute env w d)
            = Raise (JobError message JobFailureReason.TIMEOUT None)) as Ho
      by (rewrite Hx; reflexivity).
    split; [exact Ho|].
    destruct (job_error_reported _ _ _ _ _ _ Ho) as (failed & Hl & Hr & Hm & Hst).
    exists failed. repeat split; try assumption.
    rewrite Hst, Hx. reflexivity. }
  split; [|split; [|split; [|split]]].
  - intros HS. rewrite Hrun, HS. reflexivity.
  - intros req HS Htiming. rewrite HS in Hrun.
    assert (match executor_timing req, timeout_seconds req with
            | None, None => False | _, _ => True end) as Hsome.
    { destruct (executor_timing req), (timeout_seconds req); try exact I.
      destruct Htiming; congruence. }
    split; [|split].
    + intros HD. apply Hreport. rewrite Hrun at 1.
      destruct (executor_timing req), (timeout_seconds req);
        try destruct Hsome; rewrite HD; cbn [is_TimeoutError];
        rewrite Hrun, HD; reflexivity.
    + intros HD HE. apply Hreport. rewrite Hrun at 1.
      destruct (executor_timing req), (timeout_seconds req);
        try destruct Hsome; rewrite HD, HE; cbn [is_TimeoutError];
        rewrite Hrun, HD, HE; reflexivity.
    + intros HD HE HU. apply Hreport. rewrite Hrun at 1.
      destruct (executor_timing req), (timeout_seconds req);
        try destruct Hsome; rewrite HD, HE, HU; cbn [is_TimeoutError];
        rewrite Hrun, HD, HE, HU; reflexivity.
  - intros Hx. subst D. rewrite Hx. apply download_stage_current.
  - intros Hx. subst E. rewrite Hx. apply execution_stage_current.
  - intros Hx. subst U. rewrite Hx. apply upload_stage_current.
Qed.

(** ** The security checks *)

(** On [str] output the CVE-2022-0492 check passes exactly when the probe
    exited 0 and printed the expected sentence. *)
Lemma cve_2022_0492_passes_iff env return_code out err :
  cve_2022_0492_verdict env return_code (Py.PStr out) err = Ok tt
  <-> return_code = 0 /\ Py.contains expected_output out = true.
Proof.
  unfold cve_2022_0492_verdict, str_not_in, decode.
  destruct (Z.eqb_spec return_code 0) as [Hz|Hz]; cbn.
  - destruct (Py.contains expected_output out); cbn; split;
      try discriminate; try tauto.
    intros [_ H]. discriminate.
  - split; [discriminate | tauto].
Qed.

(** On [str] output, a probe that exited 0 without the expected sentence
    is a security failure whose context holds the two streams and no
    return code. *)
Lemma cve_2022_0492_sentence_missing env out err :
  Py.contains expected_output out = false ->
  exists message context,
    cve_2022_0492_verdict env 0 (Py.PStr out) err =
      Raise (HordeError message HordeFailureReason.SECURITY_CHECK_FAILED (Some context))
    /\ context !! "stdout" = Some (CtxPy (Py.PStr out))
    /\ context !! "stderr" = Some (CtxPy err)
    /\ context !! "return_code" = None.
Proof.
  intros H. unfold cve_2022_0492_verdict, str_not_in. cbn. rewrite H. cbn.
  eexists _, _. split; [reflexivity|]. repeat split; vm_compute; reflexivity.
Qed.

(** C6.  The failure branch for a non-zero exit code calls [.decode()] on
    the captured output.  On [str] output, which the passing branch
    requires, that raises [AttributeError] before the [HordeError] is
    built; were the output [bytes], the passing branch would raise
    [TypeError] instead.  Either way the check does not end in the
    security failure its code spells out. *)
Theorem cve_2022_0492_nonzero_exit_slip env return_code out err :
  (return_code <> 0 ->
     cve_2022_0492_verdict env return_code (Py.PStr out) err =
       Raise (AttributeError "'str' object has no attribute 'decode'"))
  /\ cve_2022_0492_verdict env 0 (Py.PBytes out) err =
       Raise (TypeError "a bytes-like object is required, not 'str'").
Proof.
  split.
  - intros Hz. unfold cve_2022_0492_verdict.
    destruct (Z.eqb_spec return_code 0); [contradiction | reflexivity].
  - reflexivity.
Qed.

(** On [str] output the toolkit check passes exactly when the probe exited
    0, printed at least one line, and the token after the last space of
    the first line parses to a version that is at least the minimum. *)
Lemma nvidia_toolkit_passes_iff env return_code out err :
  nvidia_toolkit_verdict env return_code (Py.PStr out) err = Ok tt
  <-> return_code = 0
      /\ exists line rest parsed,
           Py.splitlines Py.str_linebreak out = line :: rest
           /\ version_parse env (snd (Py.rpartition " " line)) = Some parsed
           /\ version_ge env parsed (NVIDIA_CONTAINER_TOOLKIT_MINIMUM_SAFE_VERSION env)
              = true.
Proof.
  unfold nvidia_toolkit_verdict, splitlines, rpartition_space_2,
    packaging_version_parse, decode.
  destruct (Z.eqb_spec return_code 0) as [Hz|Hz]; cbn.
  2: { split; [discriminate | tauto]. }
  destruct (Py.splitlines Py.str_linebreak out) as [|line rest]; cbn.
  { split; [discriminate|]. intros [_ (l & r & p & H & _)]. discriminate. }
  destruct (version_parse env (snd (Py.rpartition " " line))) as [parsed|] eqn:Hp.
  2: { split; [discriminate|].
       intros [_ (l & r & p & H & Hp' & _)]. congruence. }
  destruct (version_ge env parsed (NVIDIA_CONTAINER_TOOLKIT_MINIMUM_SAFE_VERSION env))
    eqn:Hge; cbn.
  - split; [|reflexivity]. intros _. split; [exact Hz|].
    exists line, rest, parsed. repeat split; assumption.
  - split; [discriminate|].
    intros [_ (l & r & p & H & Hp' & Hge')]. congruence.
Qed.

(** A non-zero exit and an empty output are security failures. *)
Lemma nvidia_toolkit_nonzero_exit env return_code out err :
  return_code <> 0 ->
  nvidia_toolkit_verdict env return_code out err =
    Raise (HordeError
             ("nvidia-container-toolkit check failed: exit code "
                +:+ Py.str_of_int return_code)
             HordeFailureReason.SECURITY_CHECK_FAILED
             (nvidia_toolkit_context return_code out err)).
Proof.
  intros Hz. unfold nvidia_toolkit_verdict.
  destruct (Z.eqb_spec return_code 0); [contradiction | reflexivity].
Qed.

Lemma nvidia_toolkit_no_output env err :
  nvidia_toolkit_verdict env 0 (Py.PStr "") err =
    Raise (HordeError
             "nvidia-container-toolkit check failed: no output from nvidia-container-toolkit"
             HordeFailureReason.SECURITY_CHECK_FAILED
             (nvidia_toolkit_context 0 (Py.PStr "") err)).
Proof. reflexivity. Qed.

(** The toolkit probe runs only when GPU use is not disabled. *)
Lemma nvidia_toolkit_probe_only_with_gpu env w d :
  In (ProbeRun nvidia_toolkit_probe) (trace_of (run_security_checks_or_fail env w d)) ->
  DEBUG_NO_GPU_MODE w = false.
Proof.
  unfold run_security_checks_or_fail. rewrite bind_trace.
  destruct (DEBUG_NO_GPU_MODE w); [|reflexivity].
  intros Hin. exfalso.
  assert (emits (fun ev => match ev with
                           | ProbeRun nvidia_toolkit_probe => false
                           | _ => true
                           end) (run_cve_2022_0492_check_or_fail env w)) as Hc.
  { unfold run_cve_2022_0492_check_or_fail. emits_walk. }
  apply in_app_iff in Hin as [Hin|Hin].
  - specialize (Hc d). rewrite forallb_forall in Hc. apply Hc in Hin. discriminate.
  - destruct (outcome_of (run_cve_2022_0492_check_or_fail env w d));
      cbn in Hin; contradiction.
Qed.

(** C7.  With a first line whose last token parses to a version below the
    minimum, the check reaches the failure branch, which calls
    [.decode()] on the [str] output it has just split and parsed: it
    raises [AttributeError], not the security failure. *)
Theorem nvidia_toolkit_outdated_slip env out err line rest parsed :
  Py.splitlines Py.str_linebreak out = line :: rest ->
  version_parse env (snd (Py.rpartition " " line)) = Some parsed ->
  version_ge env parsed (NVIDIA_CONTAINER_TOOLKIT_MINIMUM_SAFE_VERSION env) = false ->
  nvidia_toolkit_verdict env 0 (Py.PStr out) err =
    Raise (AttributeError "'str' object has no attribute 'decode'").
Proof.
  intros Hl Hp Hge.
  unfold nvidia_toolkit_verdict, splitlines, rpartition_space_2,
    packaging_version_parse, decode.
  cbn. rewrite Hl. cbn. rewrite Hp, Hge. reflexivity.
Qed.

(** On [bytes] output the toolkit check cannot pass either: splitting the
    first line on a [str] separator raises [TypeError]. *)
Lemma nvidia_toolkit_bytes_never_pass env return_code out err :
  nvidia_toolkit_verdict env return_code (Py.PBytes out) err <> Ok tt.
Proof.
  unfold nvidia_toolkit_verdict, splitlines, rpartition_space_2.
  destruct (negb (return_code =? 0)); [discriminate|].
  destruct (map Py.PBytes (Py.splitlines Py.bytes_linebreak out)) as [|l r] eqn:H;
    [discriminate|].
  destruct l as [s|b]; [|discriminate].
  destruct (Py.splitlines Py.bytes_linebreak out); discriminate.
Qed.

(** * Concrete runs *)

(** The single-timeout happy path: the four messages of a finished job. *)
Example happy_path_messages :
  outbound (trace_of (execute Demo.env (Demo.happy (Demo.request None (Some 10) None)) init))
  = [V0ExecutorReadyRequest; V0VolumesReadyRequest; V0ExecutionDoneRequest;
     V0JobFinishedRequest
       {| JobResult.result := "ok";
          JobResult.specs := Some (MkMachineSpecs "{}") |}].
Proof. reflexivity. Qed.

(** A streaming job announces itself between volumes-ready and
    execution-done. *)
Example streaming_messages :
  outbound (trace_of (execute Demo.env
                        (Demo.happy (Demo.request None (Some 10) (Some Demo.streaming)))
                        init))
  = [V0ExecutorReadyRequest; V0VolumesReadyRequest;
     V0StreamingJobReadyRequest "CERT"; V0ExecutionDoneRequest;
     V0JobFinishedRequest
       {| JobResult.result := "ok";
          JobResult.specs := Some (MkMachineSpecs "{}") |}].
Proof. reflexivity. Qed.

(** A CVE probe that exits 1: the miner is told of an unhandled exception,
    not of a failed security check. *)
Example cve_probe_exit_1_report :
  exists context,
    outbound (trace_of (execute Demo.env
                          (Demo.world
                             (Ok {| StatusCode := 1;
                                    probe_stdout := Py.PStr "";
                                    probe_stderr := Py.PStr "escaped" |})
                             (Ok (Demo.request None (Some 10) None))
                             (Ok tt) (Some Demo.finished, Ok tt)
                             (Ok Demo.uploaded) (Ok tt))
                          init))
    = [V0HordeFailedRequest
         {| V0HordeFailedRequest.job_uuid := job_uuid Demo.env;
            V0HordeFailedRequest.reported_by := JobParticipantType.EXECUTOR;
            V0HordeFailedRequest.reason := HordeFailureReason.UNHANDLED_EXCEPTION;
            V0HordeFailedRequest.message := "Unhandled exception: AttributeError";
            V0HordeFailedRequest.context := context |}].
Proof. eexists. reflexivity. Qed.

Lemma execute_sends_one_terminal_message_witness :
  exists m,
    terminal_messages
      (trace_of (execute Demo.env (Demo.happy (Demo.request None (Some 10) None)) init))
    = [m]
    /\ last (outbound
               (trace_of (execute Demo.env
                            (Demo.happy (Demo.request None (Some 10) None)) init)))
       = Some m
    /\ exists r, m = V0JobFinishedRequest r.
Proof.
  exact (execute_sends_one_terminal_message Demo.env
           (Demo.happy (Demo.request None (Some 10) None)) init).
Defined.

Lemma clean_runs_once_and_is_contained_witness :
  In (Logged (LogCleanupFailed (OtherError "RuntimeError" "network is busy")))
    (trace_of (execute Demo.env
                 (Demo.world (Ok Demo.contained)
                    (Ok (Demo.request None (Some 10) None))
                    (Ok tt) (Some Demo.finished, Ok tt) (Ok Demo.uploaded)
                    (Raise (OtherError "RuntimeError" "network is busy")))
                 init)).
Proof.
  exact (proj1 (proj2 (proj2
           (clean_runs_once_and_is_contained Demo.env
              (Demo.world (Ok Demo.contained)
                 (Ok (Demo.request None (Some 10) None))
                 (Ok tt) (Some Demo.finished, Ok tt) (Ok Demo.uploaded)
                 (Raise (OtherError "RuntimeError" "network is busy")))
              init)))
           (OtherError "RuntimeError" "network is busy") eq_refl).
Defined.

Lemma terminal_message_precedes_clean_witness :
  exists before m after,
    trace_of (execute Demo.env (Demo.happy (Demo.request None (Some 10) None)) init)
    = before ++ Sent m :: Runner clean_call :: after
    /\ is_terminal m = true
    /\ ~ In (Runner clean_call) before
    /\ outbound after = []
    /\ forall o,
         outbound (trace_of (execute Demo.env
                               (with_clean o (Demo.happy (Demo.request None (Some 10) None)))
                               init))
         = outbound (trace_of (execute Demo.env
                                 (Demo.happy (Demo.request None (Some 10) None)) init)).
Proof.
  exact (terminal_message_precedes_clean Demo.env
           (Demo.happy (Demo.request None (Some 10) None)) init).
Defined.

(** An oversized volume, and an initial request without timing. *)
Lemma failures_are_reported_witness :
  outbound (trace_of (execute Demo.env
                        (Demo.world (Ok Demo.contained)
                           (Ok (Demo.request None (Some 10) None))
                           (Raise (JobError "Input volume too large"
                                     JobFailureReason.DOWNLOAD_FAILED None))
                           (Some Demo.finished, Ok tt) (Ok Demo.uploaded) (Ok tt))
                        init))
  = [V0ExecutorReadyRequest;
     V0JobFailedRequest
       {| V0JobFailedRequest.job_uuid := job_uuid Demo.env;
          V0JobFailedRequest.stage := JobStage.VOLUME_DOWNLOAD;
          V0JobFailedRequest.reason := JobFailureReason.DOWNLOAD_FAILED;
          V0JobFailedRequest.message := "Input volume too large";
          V0JobFailedRequest.docker_process_exit_status := None;
          V0JobFailedRequest.docker_process_stdout := None;
          V0JobFailedRequest.docker_process_stderr := None;
          V0JobFailedRequest.context := None |}]
  /\ exists message reason wrapped (context : gmap string ctx_value),
       wrap_unhandled Demo.env
         (HordeError
            "No timing received: either timeout_seconds or timing_details must be set"
            HordeFailureReason.GENERIC_ERROR None)
       = (message, reason, wrapped)
       /\ outbound (trace_of (execute Demo.env
                                (Demo.happy (Demo.request None None None)) init))
          = [V0ExecutorReadyRequest;
             V0HordeFailedRequest
               {| V0HordeFailedRequest.job_uuid := job_uuid Demo.env;
                  V0HordeFailedRequest.reported_by := JobParticipantType.EXECUTOR;
                  V0HordeFailedRequest.reason := reason;
                  V0HordeFailedRequest.message := message;
                  V0HordeFailedRequest.context := Some context |}]
       /\ context !! "stage" = Some (CtxStage JobStage.EXECUTOR_STARTUP)
       /\ forall key, key <> "stage" -> context !! key = default ∅ wrapped !! key.
Proof.
  split.
  - exact (proj1 (failures_are_reported Demo.env
                    (Demo.world (Ok Demo.contained)
                       (Ok (Demo.request None (Some 10) None))
                       (Raise (JobError "Input volume too large"
                                 JobFailureReason.DOWNLOAD_FAILED None))
                       (Some Demo.finished, Ok tt) (Ok Demo.uploaded) (Ok tt))
                    init)
             "Input volume too large" JobFailureReason.DOWNLOAD_FAILED None eq_refl).
  - exact (proj2 (failures_are_reported Demo.env
                    (Demo.happy (Demo.request None None None)) init)
             (HordeError
                "No timing received: either timeout_seconds or timing_details must be set"
                HordeFailureReason.GENERIC_ERROR None)
             eq_refl eq_refl).
Defined.

(** A streaming job with timing details, although [timeout_seconds] is
    there as well: the full schedule.  Then a job with [timeout_seconds]
    only, and one with no timing at all. *)
Lemma deadline_follows_timing_witness :
  schedule (trace_of (_execute Demo.env
                        (Demo.happy (Demo.request (Some Demo.timing) (Some 10)
                                       (Some Demo.streaming)))
                        init))
  = [TimerSetTimeout 5; StageEntered JobStage.EXECUTOR_STARTUP;
     TimerSetTimeout 5; TimerExtendTimeout 10;
     StageEntered JobStage.VOLUME_DOWNLOAD;
     TimerExtendTimeout 20; TimerExtendTimeout 3;
     StageEntered JobStage.EXECUTION;
     TimerExtendTimeout 7; StageEntered JobStage.RESULT_UPLOAD]
  /\ schedule (trace_of (_execute Demo.env
                           (Demo.happy (Demo.request None (Some 10) None)) init))
     = [TimerSetTimeout 5; StageEntered JobStage.EXECUTOR_STARTUP;
        TimerSetTimeout 10;
        StageEntered JobStage.VOLUME_DOWNLOAD;
        StageEntered JobStage.EXECUTION;
        StageEntered JobStage.RESULT_UPLOAD]
  /\ outcome_of (_execute Demo.env (Demo.happy (Demo.request None None None)) init)
     = Raise (HordeError
                "No timing received: either timeout_seconds or timing_details must be set"
                HordeFailureReason.GENERIC_ERROR None).
Proof.
  split; [|split].
  - exact (proj2 (proj2
             (deadline_follows_timing Demo.env
                (Demo.happy (Demo.request (Some Demo.timing) (Some 10)
                               (Some Demo.streaming)))
                init
                (Demo.request (Some Demo.timing) (Some 10) (Some Demo.streaming))
                eq_refl))
             eq_refl).
  - exact (proj2 (proj2
             (deadline_follows_timing Demo.env
                (Demo.happy (Demo.request None (Some 10) None)) init
                (Demo.request None (Some 10) None) eq_refl))
             eq_refl).
  - exact (proj2
             (deadline_follows_timing Demo.env
                (Demo.happy (Demo.request None None None)) init
                (Demo.request None None None) eq_refl)).
Defined.

Lemma single_timeout_has_timing :
  executor_timing (Demo.request None (Some 10) None) <> None
  \/ timeout_seconds (Demo.request None (Some 10) None) <> None.
Proof. right. discriminate. Qed.

(** The initial message never comes; then the volume download, the job
    and the upload each outlast the deadline. *)
Lemma timeouts_are_classified_witness :
  outcome_of (_execute Demo.env
                (Demo.world (Ok Demo.contained) (Raise TimeoutError) (Ok tt)
                   (Some Demo.finished, Ok tt) (Ok Demo.uploaded) (Ok tt))
                init)
  = Raise (HordeError "Timed out waiting for initial job details from miner"
             HordeFailureReason.GENERIC_ERROR None)
  /\ (exists failed,
        last (outbound
                (trace_of (execute Demo.env
                             (Demo.world (Ok Demo.contained)
                                (Ok (Demo.request None (Some 10) None))
                                (Raise TimeoutError)
                                (Some Demo.finished, Ok tt) (Ok Demo.uploaded) (Ok tt))
                             init)))
        = Some (V0JobFailedRequest failed)
        /\ V0JobFailedRequest.reason failed = JobFailureReason.TIMEOUT
        /\ V0JobFailedRequest.message failed = "Download time exceeded"
        /\ V0JobFailedRequest.stage failed = JobStage.VOLUME_DOWNLOAD)
  /\ (exists failed,
        last (outbound
                (trace_of (execute Demo.env
                             (Demo.world (Ok Demo.contained)
                                (Ok (Demo.request None (Some 10) None))
                                (Ok tt) (None, Raise TimeoutError)
                                (Ok Demo.uploaded) (Ok tt))
                             init)))
        = Some (V0JobFailedRequest failed)
        /\ V0JobFailedRequest.reason failed = JobFailureReason.TIMEOUT
        /\ V0JobFailedRequest.message failed = "Execution time exceeded"
        /\ V0JobFailedRequest.stage failed = JobStage.EXECUTION)
  /\ (exists failed,
        last (outbound
                (trace_of (execute Demo.env
                             (Demo.world (Ok Demo.contained)
                                (Ok (Demo.request None (Some 10) None))
                                (Ok tt) (Some Demo.finished, Ok tt)
                                (Raise TimeoutError) (Ok tt))
                             init)))
        = Some (V0JobFailedRequest failed)
        /\ V0JobFailedRequest.reason failed = JobFailureReason.TIMEOUT
        /\ V0JobFailedRequest.message failed = "Upload time exceeded"
        /\ V0JobFailedRequest.stage failed = JobStage.RESULT_UPLOAD).
Proof.
  split; [|split; [|split]].
  - exact (proj1 (timeouts_are_classified Demo.env
                    (Demo.world (Ok Demo.contained) (Raise TimeoutError) (Ok tt)
                       (Some Demo.finished, Ok tt) (Ok Demo.uploaded) (Ok tt))
                    init)
             eq_refl).
  - exact (proj2 (proj1 (proj1 (proj2
             (timeouts_are_classified Demo.env
                (Demo.world (Ok Demo.contained)
                   (Ok (Demo.request None (Some 10) None))
                   (Raise TimeoutError)
                   (Some Demo.finished, Ok tt) (Ok Demo.uploaded) (Ok tt))
                init))
             (Demo.request None (Some 10) None) eq_refl
             single_timeout_has_timing)
             eq_refl)).
  - exact (proj2 (proj1 (proj2 (proj1 (proj2
             (timeouts_are_classified Demo.env
                (Demo.world (Ok Demo.contained)
                   (Ok (Demo.request None (Some 10) None))
                   (Ok tt) (None, Raise TimeoutError)
                   (Ok Demo.uploaded) (Ok tt))
                init))
             (Demo.request None (Some 10) None) eq_refl
             single_timeout_has_timing))
             eq_refl eq_refl)).
  - exact (proj2 (proj2 (proj2 (proj1 (proj2
             (timeouts_are_classified Demo.env
                (Demo.world (Ok Demo.contained)
                   (Ok (Demo.request None (Some 10) None))
                   (Ok tt) (Some Demo.finished, Ok tt)
                   (Raise TimeoutError) (Ok tt))
                init))
             (Demo.request None (Some 10) None) eq_refl
             single_timeout_has_timing))
             eq_refl eq_refl eq_refl)).
Defined.

Lemma cve_2022_0492_nonzero_exit_slip_witness :
  cve_2022_0492_verdict Demo.env 1 (Py.PStr "") (Py.PStr "escaped")
  = Raise (AttributeError "'str' object has no attribute 'decode'").
Proof.
  apply (proj1 (cve_2022_0492_nonzero_exit_slip Demo.env 1 "" (Py.PStr "escaped"))).
  lia.
Defined.

Lemma nvidia_toolkit_outdated_slip_witness :
  nvidia_toolkit_verdict Demo.env 0
    (Py.PStr "NVIDIA Container Runtime Hook version 1.16.2") (Py.PStr "")
  = Raise (AttributeError "'str' object has no attribute 'decode'").
Proof.
  apply (nvidia_toolkit_outdated_slip Demo.env
           "NVIDIA Container Runtime Hook version 1.16.2" (Py.PStr "")
           "NVIDIA Container Runtime Hook version 1.16.2" [] [1; 16; 2]%N);
    reflexivity.
Defined.

(** Streaming details with and without [executor_ip]. *)
Lemma streaming_certificate_is_generated_witness :
  ((exists t0,
      trace_of (_startup_stage Demo.env
                  (Demo.happy (Demo.request None (Some 10) (Some Demo.streaming)))
                  init)
      = t0 ++ [Sent V0ExecutorReadyRequest;
               Runner (generate_streaming_certificate_call "127.0.0.1" "PK")])
   /\ outcome_of (_startup_stage Demo.env
                    (Demo.happy (Demo.request None (Some 10) (Some Demo.streaming)))
                    init)
      = Ok (Demo.request None (Some 10) (Some Demo.streaming)))
  /\ ((exists t0,
         trace_of (_startup_stage Demo.env
                     (Demo.happy (Demo.request None (Some 10)
                                    (Some {| executor_ip := None; public_key := "PK" |})))
                     init)
         = t0 ++ [Sent V0ExecutorReadyRequest])
      /\ outcome_of (_startup_stage Demo.env
                       (Demo.happy (Demo.request None (Some 10)
                                      (Some {| executor_ip := None; public_key := "PK" |})))
                       init)
         = Raise (AssertionError "")).
Proof.
  split.
  - apply (streaming_certificate_is_generated Demo.env
             (Demo.happy (Demo.request None (Some 10) (Some Demo.streaming)))
             init
             (Demo.request None (Some 10) (Some Demo.streaming))
             Demo.streaming eq_refl eq_refl).
    vm_compute. do 6 right. left. reflexivity.
  - apply (streaming_certificate_is_generated Demo.env
             (Demo.happy (Demo.request None (Some 10)
                            (Some {| executor_ip := None; public_key := "PK" |})))
             init
             (Demo.request None (Some 10)
                (Some {| executor_ip := None; public_key := "PK" |}))
             {| executor_ip := None; public_key := "PK" |} eq_refl eq_refl).
    vm_compute. do 6 right. left. reflexivity.
Defined.

(** A job that timed out and was killed with 137 fails for the timeout; a
    job that exited 3 fails for its return code; a job that exited 0
    passes. *)
Lemma fail_if_execution_unsuccessful_priority_witness :
  outcome_of
    (fail_if_execution_unsuccessful
       (set_execution_result
          (Some {| return_code := 137; stdout := Py.PStr ""; stderr := Py.PStr "";
                   timed_out := true |})
          init))
  = Raise (JobError "Job container timed out during execution"
             JobFailureReason.TIMEOUT None)
  /\ outcome_of
       (fail_if_execution_unsuccessful
          (set_execution_result
             (Some {| return_code := 3; stdout := Py.PStr ""; stderr := Py.PStr "";
                      timed_out := false |})
             init))
     = Raise (JobError "Job container exited with non-zero exit code: 3"
                JobFailureReason.NONZERO_RETURN_CODE None)
  /\ outcome_of
       (fail_if_execution_unsuccessful (set_execution_result (Some Demo.finished) init))
     = Ok tt.
Proof.
  split; [|split].
  - exact (proj1 (fail_if_execution_unsuccessful_priority
                    (set_execution_result
                       (Some {| return_code := 137; stdout := Py.PStr "";
                                stderr := Py.PStr ""; timed_out := true |})
                       init)
                    {| return_code := 137; stdout := Py.PStr ""; stderr := Py.PStr "";
                       timed_out := true |}
                    eq_refl)
             eq_refl).
  - apply (proj1 (proj2 (fail_if_execution_unsuccessful_priority
                    (set_execution_result
                       (Some {| return_code := 3; stdout := Py.PStr "";
                                stderr := Py.PStr ""; timed_out := false |})
                       init)
                    {| return_code := 3; stdout := Py.PStr ""; stderr := Py.PStr "";
                       timed_out := false |}
                    eq_refl))).
    + reflexivity.
    + cbn. lia.
  - exact (proj2 (proj2 (proj2 (fail_if_execution_unsuccessful_priority
                    (set_execution_result (Some Demo.finished) init)
                    Demo.finished eq_refl)))
             eq_refl eq_refl).
Defined.

(** * Further properties *)

(** ** Attributes the stages leave alone *)

Lemma keeps_pure_at {A X} (f : Driver -> X) (c : M A) :
  (forall d, driver_of (c d) = d) -> keeps f c.
Proof. intros H d. rewrite H. reflexivity. Qed.

Lemma keeps_bind_at {A B X} (f : Driver -> X) (c : M A) (k : A -> M B) :
  keeps f c -> (forall a, keeps f (k a)) -> keeps f (bind c k).
Proof.
  intros Hc Hk d. rewrite bind_driver.
  destruct (outcome_of (c d)); [rewrite Hk|]; apply Hc.
Qed.

Lemma keeps_try_finally_at {A X} (f : Driver -> X) (c : M A) fin :
  keeps f c -> keeps f fin -> keeps f (try_finally c fin).
Proof.
  intros Hc Hf d. unfold try_finally.
  specialize (Hc d). specialize (Hf (driver_of (c d))).
  destruct (c d) as [[r d1] t1]. cbn in *.
  destruct (fin d1) as [[[u|e] d2] t2]; cbn in *; congruence.
Qed.

Lemma keeps_guarded {A X} (f : Driver -> X) (c : M A) replacement :
  keeps f c -> keeps f (try_except c (except_TimeoutError replacement)).
Proof. intros Hc d. rewrite guarded_run. apply Hc. Qed.

Lemma keeps_wait_for {A X} (f : Driver -> X) (expired : bool) (c : M A) :
  keeps f c -> keeps f (wait_for expired c).
Proof. intros Hc. destruct expired; [intros d; reflexivity | exact Hc]. Qed.

Ltac keeps_at_step :=
  lazymatch goal with
  | |- keeps _ (bind _ _) => apply keeps_bind_at; [|intros ?]
  | |- keeps _ (try_finally _ _) => apply keeps_try_finally_at
  | |- keeps _ (async_with _ _ _) => unfold async_with
  | |- keeps _ (runner _ _) => unfold runner
  | |- keeps _ (_enter_stage _) => unfold _enter_stage
  | |- keeps _ (wait_for _ _) => apply keeps_wait_for
  | |- keeps _ (if ?b then _ else _) => destruct b
  | |- keeps _ (match ?x with _ => _ end) => destruct x
  | |- keeps _ (update _) => intros ?; reflexivity
  | |- keeps _ _ => apply keeps_pure_at; intros ?; reflexivity
  end.

Ltac keeps_at_walk := repeat keeps_at_step.

Lemma security_checks_keep {X} (f : Driver -> X) env w :
  keeps f (run_security_checks_or_fail env w).
Proof.
  unfold run_security_checks_or_fail, run_cve_2022_0492_check_or_fail,
    run_nvidia_toolkit_version_check_or_fail.
  keeps_at_walk.
Qed.

Lemma startup_stage_current env w d :
  current_stage (driver_of (_startup_stage env w d)) = JobStage.EXECUTOR_STARTUP.
Proof.
  apply stage_current.
  assert (keeps_stage (run_security_checks_or_fail env w)) as Hs
    by exact (security_checks_keep current_stage env w).
  repeat first [assumption | keeps_step].
Qed.

Lemma entered_app t1 t2 : entered (t1 ++ t2) = entered t1 ++ entered t2.
Proof.
  induction t1 as [|ev t1 IH]; [reflexivity|].
  destruct ev; cbn; rewrite ?IH; reflexivity.
Qed.

Lemma entered_schedule t : entered (schedule t) = entered t.
Proof.
  unfold schedule. induction t as [|ev t IH]; [reflexivity|].
  destruct ev; cbn; rewrite ?IH; reflexivity.
Qed.

Lemma entered_stage_events t :
  (forall ev, In ev t -> match ev with StageEntered _ => False | _ => True end) ->
  entered t = [].
Proof.
  induction t as [|ev t IH]; [reflexivity|].
  intros H. pose proof (H ev (or_introl eq_refl)) as Hev.
  destruct ev; try contradiction; cbn; apply IH; intros ev' Hin; apply H; right; exact Hin.
Qed.

(** The stages a guarded stage run enters, and where it leaves the label. *)
Lemma guarded_stage_entered {A} (expired : bool) (c : M A) d stage :
  (forall d, schedule (trace_of (c d)) = [StageEntered stage]) ->
  (forall d, current_stage (driver_of (c d)) = stage) ->
  entered (trace_of (wait_for expired c d)) = (if expired then [] else [stage])
  /\ current_stage (driver_of (wait_for expired c d))
     = (if expired then current_stage d else stage)
  /\ (expired = true -> outcome_of (wait_for expired c d) = Raise TimeoutError).
Proof.
  intros Hs Hc. destruct expired; cbn.
  - repeat split.
  - rewrite <- entered_schedule, Hs, Hc. repeat split. discriminate.
Qed.

(** The stages a pipeline run enters and the label it ends with. *)
Lemma pipeline_stages env w d :
  entered (trace_of (_execute env w d))
    `prefix_of` [JobStage.EXECUTOR_STARTUP; JobStage.VOLUME_DOWNLOAD;
                 JobStage.EXECUTION; JobStage.RESULT_UPLOAD]
  /\ last (entered (trace_of (_execute env w d)))
     = Some (current_stage (driver_of (_execute env w d)))
  /\ (outcome_of (_execute env w d) = Ok tt ->
      entered (trace_of (_execute env w d))
      = [JobStage.EXECUTOR_STARTUP; JobStage.VOLUME_DOWNLOAD;
         JobStage.EXECUTION; JobStage.RESULT_UPLOAD]).
Proof.
  pose proof (_execute_run env w d) as Hrun. cbv beta zeta in Hrun.
  rewrite Hrun. clear Hrun.
  assert (entered (trace_of (_startup_stage env w d)) = [JobStage.EXECUTOR_STARTUP])
    as HsS by (rewrite <- entered_schedule, startup_stage_schedule; reflexivity).
  pose proof (startup_stage_current env w d) as HcS.
  set (S := _startup_stage env w d) in *.
  destruct (guarded_stage_entered (download_expired_on_entry w) (_download_stage w)
              (driver_of S) _ (download_stage_schedule w) (download_stage_current w))
    as (HsD & HcD & HxD).
  set (D := wait_for (download_expired_on_entry w) (_download_stage w) (driver_of S)) in *.
  destruct (guarded_stage_entered (execution_expired_on_entry w) (_execution_stage w)
              (driver_of D) _ (execution_stage_schedule w) (execution_stage_current w))
    as (HsE & HcE & HxE).
  set (E := wait_for (execution_expired_on_entry w) (_execution_stage w) (driver_of D)) in *.
  destruct (guarded_stage_entered (upload_expired_on_entry w) (_upload_stage w)
              (driver_of E) _ (upload_stage_schedule w) (upload_stage_current w))
    as (HsU & HcU & HxU).
  set (U := wait_for (upload_expired_on_entry w) (_upload_stage w) (driver_of E)) in *.
  clearbody S D E U.
  destruct (outcome_of S) as [req|e]; cbn [trace_of driver_of outcome_of fst snd].
  2: { cbn [entered]. rewrite HsS, HcS. cbn.
       repeat split; [eexists; reflexivity | discriminate]. }
  destruct (executor_timing req) as [timing|];
    [|destruct (timeout_seconds req) as [seconds|]].
  3: { cbn [trace_of driver_of outcome_of fst snd entered]. rewrite HsS, HcS. cbn.
       repeat split; [eexists; reflexivity | discriminate]. }
  all: destruct (is_streaming_job w).
  all: destruct (download_expired_on_entry w);
         [rewrite HxD by reflexivity | destruct (outcome_of D) as [[]|?]].
  all: try (destruct (execution_expired_on_entry w);
              [rewrite HxE by reflexivity | destruct (outcome_of E) as [[]|?]]).
  all: try (destruct (upload_expired_on_entry w);
              [rewrite HxU by reflexivity | destruct (outcome_of U) as [[]|?]]).
  all: cbn [trace_of driver_of outcome_of fst snd];
       repeat first [ rewrite entered_app | progress cbn [entered app] ];
       rewrite ?HsS, ?HsD, ?HsE, ?HsU; cbn [app];
       rewrite ?HcU, ?HcE, ?HcD, ?HcS.
  all: repeat split; try discriminate; try reflexivity;
       try (eexists; cbn [app]; reflexivity).
Qed.

(** ** What the run adds to the pipeline's stages and messages *)

Lemma report_failure_entered env e d : entered (trace_of (report_failure env e d)) = [].
Proof.
  destruct (is_JobError e) eqn:He.
  - destruct e; try discriminate. reflexivity.
  - rewrite (report_other_failure _ _ _ He).
    destruct (wrap_unhandled env e) as [[m r] c] eqn:Hw.
    rewrite (report_horde_failure_run _ _ _ _ _ _ Hw). reflexivity.
Qed.

Lemma execute_entered env w d :
  entered (trace_of (execute env w d)) = entered (trace_of (_execute env w d)).
Proof.
  rewrite execute_run. cbn [trace_of snd entered].
  rewrite !entered_app, cleanup_run. cbn [trace_of snd].
  assert (entered match outcome_of (_execute env w d) with
                  | Ok _ => []
                  | Raise e =>
                      trace_of (report_failure env e (driver_of (_execute env w d)))
                  end = []) as ->.
  { destruct (outcome_of (_execute env w d)); [reflexivity | apply report_failure_entered]. }
  destruct (clean w); cbn; rewrite app_nil_r; reflexivity.
Qed.

Lemma execute_driver env w d :
  driver_of (execute env w d) = driver_of (_execute env w d).
Proof. rewrite execute_run. reflexivity. Qed.

Lemma stage_events_nonterminal t :
  forallb is_stage_event t = true ->
  forall m, In m (outbound t) -> is_terminal m = false.
Proof.
  induction t as [|ev t IH]; [intros _ m []|].
  cbn [forallb]. intros [Hev Ht]%andb_prop m Hin.
  destruct ev; cbn in Hin; try (apply IH; assumption).
  destruct Hin as [<-|Hin]; [|apply IH; assumption].
  cbn in Hev. apply negb_true_iff in Hev. exact Hev.
Qed.

(** The terminal message of a run, read back from what the miner
    received. *)
Lemma terminal_in_outbound env w d m :
  In m (outbound (trace_of (execute env w d))) ->
  is_terminal m = true ->
  match outcome_of (_execute env w d) with
  | Ok _ => exists r, m = V0JobFinishedRequest r
  | Raise e =>
      outbound (trace_of (report_failure env e (driver_of (_execute env w d)))) = [m]
  end.
Proof.
  rewrite execute_outbound. intros Hin Hm.
  pose proof (pipeline_execute env w d) as Hp. unfold pipeline_trace in Hp.
  destruct (outcome_of (_execute env w d)) as [[]|e].
  - destruct Hp as (t0 & r & Ht & Hq). rewrite Ht, app_nil_r, outbound_app in Hin.
    apply in_app_iff in Hin as [Hin|Hin].
    + rewrite (stage_events_nonterminal _ Hq _ Hin) in Hm. discriminate.
    + cbn in Hin. destruct Hin as [<-|[]]. eexists. reflexivity.
  - apply in_app_iff in Hin as [Hin|Hin].
    + rewrite (stage_events_nonterminal _ Hp _ Hin) in Hm. discriminate.
    + destruct (report_failure_outbound env e (driver_of (_execute env w d)))
        as (m' & Hm' & _). rewrite Hm' in Hin |- *.
      destruct Hin as [<-|[]]. reflexivity.
Qed.

Lemma finished_means_completed env w d r :
  In (V0JobFinishedRequest r) (outbound (trace_of (execute env w d))) ->
  outcome_of (_execute env w d) = Ok tt.
Proof.
  intros Hin. pose proof (terminal_in_outbound env w d _ Hin eq_refl) as H.
  destruct (outcome_of (_execute env w d)) as [[]|e]; [reflexivity|].
  destruct (report_failure_outbound env e (driver_of (_execute env w d)))
    as (m' & Hm' & _ & Hkind & _).
  rewrite Hm' in H. injection H as ->.
  destruct (is_JobError e); destruct Hkind as [x Hx]; discriminate.
Qed.

(** ** Stages *)

(** X1.  The stages of a run are entered in pipeline order, each at most
    once and none skipped: startup, then volume download, then execution,
    then result upload.  The driver's [current_stage] at the end of the
    run is the last stage entered, and a run that reported a finished job
    entered all four. *)
Theorem stages_are_entered_in_order env w d :
  let t := trace_of (execute env w d) in
  entered t `prefix_of` [JobStage.EXECUTOR_STARTUP; JobStage.VOLUME_DOWNLOAD;
                         JobStage.EXECUTION; JobStage.RESULT_UPLOAD]
  /\ last (entered t) = Some (current_stage (driver_of (execute env w d)))
  /\ (forall r, In (V0JobFinishedRequest r) (outbound t) ->
        entered t = [JobStage.EXECUTOR_STARTUP; JobStage.VOLUME_DOWNLOAD;
                     JobStage.EXECUTION; JobStage.RESULT_UPLOAD]).
Proof.
  intros t. subst t. rewrite execute_entered, execute_driver.
  destruct (pipeline_stages env w d) as (Hpre & Hlast & Hall).
  repeat split; try assumption.
  intros r Hin. apply Hall. exact (finished_means_completed _ _ _ _ Hin).
Qed.

(** X2.  A failure message names the stage the run was in: the [stage] of
    a [V0JobFailedRequest], and the ["stage"] entry of the context of a
    [V0HordeFailedRequest], is the last stage the run entered. *)
Theorem failure_names_the_last_stage_entered env w d :
  let t := trace_of (execute env w d) in
  (forall failed,
     In (V0JobFailedRequest failed) (outbound t) ->
     last (entered t) = Some (V0JobFailedRequest.stage failed))
  /\ (forall failed,
        In (V0HordeFailedRequest failed) (outbound t) ->
        exists (context : gmap string ctx_value) stage,
          V0HordeFailedRequest.context failed = Some context
          /\ context !! "stage" = Some (CtxStage stage)
          /\ last (entered t) = Some stage).
Proof.
  intros t. subst t. rewrite execute_entered.
  destruct (pipeline_stages env w d) as (_ & Hlast & _).
  split.
  - intros failed Hin.
    pose proof (terminal_in_outbound env w d _ Hin eq_refl) as H.
    destruct (outcome_of (_execute env w d)) as [[]|e];
      [destruct H as [r Hr]; discriminate|].
    destruct (is_JobError e) eqn:He.
    + destruct e; try discriminate. rewrite report_job_failure in H.
      cbn in H. injection H as <-. exact Hlast.
    + rewrite (report_other_failure _ _ _ He) in H.
      destruct (wrap_unhandled env e) as [[m r] c] eqn:Hw.
      rewrite (report_horde_failure_run _ _ _ _ _ _ Hw) in H. discriminate.
  - intros failed Hin.
    pose proof (terminal_in_outbound env w d _ Hin eq_refl) as H.
    destruct (outcome_of (_execute env w d)) as [[]|e];
      [destruct H as [r Hr]; discriminate|].
    destruct (is_JobError e) eqn:He.
    + destruct e; try discriminate.
    + rewrite (report_other_failure _ _ _ He) in H.
      destruct (wrap_unhandled env e) as [[m r] c] eqn:Hw.
      rewrite (report_horde_failure_run _ _ _ _ _ _ Hw) in H.
      cbn in H. injection H as <-. cbn.
      eexists _, _. split; [reflexivity|]. split; [|exact Hlast].
      apply lookup_union_Some_l, lookup_singleton_eq.
Qed.

(** ** Stage-transition messages *)

Lemma progress_app t1 t2 : progress (t1 ++ t2) = progress t1 ++ progress t2.
Proof. unfold progress. rewrite outbound_app. apply List.filter_app. Qed.

Lemma no_progress_nil t : forallb no_progress t = true -> progress t = [].
Proof.
  unfold progress. induction t as [|ev t IH]; [reflexivity|].
  cbn [forallb]. intros [Hev Ht]%andb_prop.
  destruct ev; cbn; try (apply IH; exact Ht).
  cbn in Hev. rewrite Hev. cbn. apply IH, Ht.
Qed.

Lemma sends_silent {A} (c : M A) : emits no_progress c -> sends c [].
Proof.
  intros H d. rewrite (no_progress_nil _ (H d)). split; [reflexivity | intros; reflexivity].
Qed.

Lemma sends_raise {A} (e : exn) full : sends (@raise A e) full.
Proof. intros d. split; [apply prefix_nil | discriminate]. Qed.

Lemma sends_send m : is_terminal m = false -> sends (send m) [m].
Proof.
  intros Hm d. unfold progress. cbn. rewrite Hm. cbn.
  split; [reflexivity | intros; reflexivity].
Qed.

Lemma sends_bind {A B} (c : M A) (k : A -> M B) l1 l2 :
  sends c l1 -> (forall a, sends (k a) l2) -> sends (bind c k) (l1 ++ l2).
Proof.
  intros Hc Hk d. rewrite bind_trace, bind_outcome, progress_app.
  destruct (Hc d) as [Hpre Hfull].
  destruct (outcome_of (c d)) as [a|e].
  - rewrite (Hfull a eq_refl). destruct (Hk a (driver_of (c d))) as [Hpre' Hfull'].
    split; [apply prefix_app, Hpre' | intros b Hb; rewrite (Hfull' b Hb); reflexivity].
  - cbn. rewrite app_nil_r. split; [|discriminate].
    apply prefix_app_r, Hpre.
Qed.

Lemma sends_after {A B} (c : M A) (k : A -> M B) full :
  emits no_progress c -> (forall a, sends (k a) full) -> sends (bind c k) full.
Proof. intros Hc Hk. apply (sends_bind c k [] full); [apply sends_silent, Hc | exact Hk]. Qed.

Lemma sends_before {A B} (c : M A) (k : A -> M B) full :
  sends c full -> (forall a, emits no_progress (k a)) -> sends (bind c k) full.
Proof.
  intros Hc Hk. rewrite <- (app_nil_r full).
  apply sends_bind; [exact Hc | intros a; apply sends_silent, Hk].
Qed.

Lemma sends_finally {A} (c : M A) fin full :
  sends c full -> emits no_progress fin -> sends (try_finally c fin) full.
Proof.
  intros Hc Hf d. unfold try_finally.
  destruct (Hc d) as [Hpre Hfull]. specialize (Hf (driver_of (c d))).
  destruct (c d) as [[r d1] t1]. cbn [trace_of outcome_of driver_of fst snd] in *.
  destruct (fin d1) as [[[u|e] d2] t2]; cbn [trace_of outcome_of driver_of fst snd] in *;
    rewrite progress_app, (no_progress_nil _ Hf), app_nil_r.
  - split; [exact Hpre | exact Hfull].
  - split; [exact Hpre | discriminate].
Qed.

Lemma sends_guarded {A} (c : M A) replacement full :
  sends c full -> sends (try_except c (except_TimeoutError replacement)) full.
Proof.
  intros Hc d. rewrite guarded_run. cbn. destruct (Hc d) as [Hpre Hfull].
  split; [exact Hpre|]. intros a Ha. destruct (outcome_of (c d)) as [a'|e]; [|discriminate].
  exact (Hfull a' eq_refl).
Qed.

Lemma sends_wait_for {A} (expired : bool) (c : M A) full :
  sends c full -> sends (wait_for expired c) full.
Proof. intros Hc. destruct expired; [apply sends_raise | exact Hc]. Qed.

Ltac silent := repeat first [assumption | emits_step].

Lemma security_checks_silent env w :
  emits no_progress (run_security_checks_or_fail env w).
Proof.
  unfold run_security_checks_or_fail, run_cve_2022_0492_check_or_fail,
    run_nvidia_toolkit_version_check_or_fail.
  emits_walk.
Qed.

Lemma startup_stage_sends env w : sends (_startup_stage env w) [V0ExecutorReadyRequest].
Proof.
  unfold _startup_stage. pose proof (security_checks_silent env w).
  do 5 (apply sends_after; [unfold _enter_stage; silent | intros ?]).
  apply sends_after; [silent | intros _].
  apply sends_before; [apply sends_send; reflexivity | intros _; silent].
Qed.

Lemma download_stage_sends w : sends (_download_stage w) [V0VolumesReadyRequest].
Proof.
  unfold _download_stage.
  do 5 (apply sends_after; [unfold _enter_stage; silent | intros ?]).
  apply sends_send. reflexivity.
Qed.

Lemma execution_stage_sends w :
  sends (_execution_stage w) (streaming_announcement w ++ [V0ExecutionDoneRequest]).
Proof.
  unfold _execution_stage, async_with.
  apply sends_after; [unfold _enter_stage; silent | intros _].
  apply sends_bind.
  - apply sends_after; [silent | intros _].
    apply sends_finally; [|silent].
    unfold streaming_announcement. destruct (is_streaming_job w).
    + destruct (executor_certificate w);
        [apply sends_send; reflexivity | apply sends_raise].
    + apply sends_silent. silent.
  - intros _. apply sends_after;
      [unfold fail_if_execution_unsuccessful; silent | intros _].
    apply sends_send. reflexivity.
Qed.

Lemma upload_stage_sends w : sends (_upload_stage w) [].
Proof. apply sends_silent. unfold _upload_stage, _enter_stage. silent. Qed.

Lemma pipeline_sends env w :
  sends (_execute env w)
    ([V0ExecutorReadyRequest] ++ [V0VolumesReadyRequest]
     ++ (streaming_announcement w ++ [V0ExecutionDoneRequest]) ++ []).
Proof.
  unfold _execute.
  apply sends_after; [silent | intros _].
  apply sends_bind; [apply sends_guarded, startup_stage_sends | intros req].
  do 2 (apply sends_after; [silent | intros _]).
  apply sends_bind; [apply sends_guarded, sends_wait_for, download_stage_sends | intros _].
  apply sends_after; [silent | intros _].
  apply sends_bind; [apply sends_guarded, sends_wait_for, execution_stage_sends | intros _].
  apply sends_after; [silent | intros _].
  apply sends_guarded, sends_wait_for, upload_stage_sends.
Qed.

Lemma stage_events_progress t :
  forallb is_stage_event t = true -> progress t = outbound t.
Proof.
  intros H. unfold progress.
  assert (forall m, In m (outbound t) -> negb (is_terminal m) = true) as Hall.
  { intros m Hin. rewrite (stage_events_nonterminal _ H _ Hin). reflexivity. }
  induction (outbound t) as [|m l IH]; [reflexivity|].
  cbn. rewrite (Hall m (or_introl eq_refl)). f_equal.
  apply IH. intros m' Hin. apply Hall. right. exact Hin.
Qed.

(** What the miner receives: the pipeline's stage-transition messages,
    then one terminal message. *)
Lemma execute_outbound_split env w d :
  progress (trace_of (execute env w d)) = progress (trace_of (_execute env w d))
  /\ exists m,
       outbound (trace_of (execute env w d))
       = progress (trace_of (_execute env w d)) ++ [m]
       /\ is_terminal m = true.
Proof.
  pose proof (pipeline_execute env w d) as Hp. unfold pipeline_trace in Hp.
  split.
  - unfold progress. rewrite execute_outbound, List.filter_app.
    destruct (outcome_of (_execute env w d)) as [[]|e]; [apply app_nil_r|].
    destruct (report_failure_outbound env e (driver_of (_execute env w d)))
      as (m & Hm & Hterm & _).
    rewrite Hm. cbn [List.filter]. rewrite Hterm. apply app_nil_r.
  - rewrite execute_outbound.
    destruct (outcome_of (_execute env w d)) as [[]|e].
    + destruct Hp as (t0 & r & Ht & Hq).
      exists (V0JobFinishedRequest r). split; [|reflexivity].
      rewrite Ht, progress_app, outbound_app, (stage_events_progress _ Hq).
      rewrite !app_nil_r. reflexivity.
    + destruct (report_failure_outbound env e (driver_of (_execute env w d)))
        as (m & Hm & Hterm & _).
      exists m. split; [|exact Hterm].
      rewrite Hm, (stage_events_progress _ Hp). reflexivity.
Qed.

(** X3.  What the miner receives in a run is a run of stage-transition
    messages followed by exactly one terminal message.  The
    stage-transition messages are the first so many of: executor ready,
    volumes ready, the streaming-ready announcement (for a streaming job
    with a certificate), execution done; none is repeated or out of
    order, and a finished job has sent them all. *)
Theorem messages_follow_the_pipeline env w d :
  let t := trace_of (execute env w d) in
  let full :=
    [V0ExecutorReadyRequest; V0VolumesReadyRequest]
    ++ streaming_announcement w ++ [V0ExecutionDoneRequest] in
  progress t `prefix_of` full
  /\ (exists m, outbound t = progress t ++ [m] /\ is_terminal m = true)
  /\ (forall r, In (V0JobFinishedRequest r) (outbound t) -> progress t = full).
Proof.
  intros t full. subst t full.
  destruct (execute_outbound_split env w d) as [Hprog (m & Hout & Hm)].
  destruct (pipeline_sends env w d) as [Hpre Hfull].
  cbn [app] in Hpre, Hfull. rewrite app_nil_r in Hpre, Hfull.
  rewrite Hprog. split; [exact Hpre|]. split.
  - exists m. split; assumption.
  - intros r Hin. apply (Hfull tt). exact (finished_means_completed _ _ _ _ Hin).
Qed.

(** ** Where an event of the pipeline comes from *)

(** An event of the pipeline's trace is a deadline call, or an event of
    one of the four stage runs; a later stage runs only when the earlier
    ones returned. *)
Lemma in_pipeline env w d ev :
  let S := _startup_stage env w d in
  let D := wait_for (download_expired_on_entry w) (_download_stage w) (driver_of S) in
  let E := wait_for (execution_expired_on_entry w) (_execution_stage w) (driver_of D) in
  let U := wait_for (upload_expired_on_entry w) (_upload_stage w) (driver_of E) in
  In ev (trace_of (_execute env w d)) ->
  is_schedule_event ev = true
  \/ In ev (trace_of S)
  \/ (exists req, outcome_of S = Ok req)
     /\ (In ev (trace_of D)
         \/ outcome_of D = Ok tt
            /\ (In ev (trace_of E)
                \/ outcome_of E = Ok tt /\ In ev (trace_of U))).
Proof.
  intros S D E U.
  pose proof (_execute_run env w d) as Hrun. cbv beta zeta in Hrun.
  fold S D E U in Hrun. rewrite Hrun. clear Hrun. clearbody S D E U.
  destruct (outcome_of S) as [req|e]; cbn [trace_of snd].
  2: { intros [<-|Hin]; [left; reflexivity | right; left; exact Hin]. }
  assert (exists r : V0InitialJobRequest, Ok req = Ok r) as Hreq by (eexists; reflexivity).
  destruct (executor_timing req) as [timing|];
    [|destruct (timeout_seconds req) as [seconds|]].
  3: { cbn [trace_of snd]. intros [<-|Hin]; [left; reflexivity | right; left; exact Hin]. }
  all: destruct (outcome_of D) as [[]|?]; [destruct (outcome_of E) as [[]|?]|];
       cbn [trace_of snd]; intros [<-|Hin]; [left; reflexivity| |left; reflexivity|
                                              |left; reflexivity|].
  all: repeat (apply in_app_iff in Hin as [Hin|Hin]);
       try (right; left; exact Hin);
       try (left; destruct (is_streaming_job w); cbn in Hin;
            repeat (destruct Hin as [<-|Hin]; [reflexivity|]); contradiction);
       right; right; (split; [exact Hreq|]); tauto.
Qed.

(** ** The security gate *)

Lemma bind_ok_inv {A B} (c : M A) (k : A -> M B) d b :
  outcome_of (bind c k d) = Ok b ->
  exists a, outcome_of (c d) = Ok a /\ outcome_of (k a (driver_of (c d))) = Ok b.
Proof.
  rewrite bind_outcome. destruct (outcome_of (c d)) as [a|e]; [|discriminate].
  intros H. exists a. split; [reflexivity | exact H].
Qed.

Lemma security_checks_ok env w d :
  outcome_of (run_security_checks_or_fail env w d) = Ok tt ->
  security_checks_pass env w.
Proof.
  unfold run_security_checks_or_fail, run_cve_2022_0492_check_or_fail,
    run_nvidia_toolkit_version_check_or_fail, security_checks_pass.
  intros H. apply bind_ok_inv in H as ([] & Hcve & Hrest). split.
  - apply bind_ok_inv in Hcve as (_ & _ & Hcve).
    apply bind_ok_inv in Hcve as (out & Hout & Hv).
    exists out. split; [exact Hout | exact Hv].
  - destruct (DEBUG_NO_GPU_MODE w); [left; reflexivity | right].
    cbn [negb] in Hrest.
    apply bind_ok_inv in Hrest as (_ & _ & Hrest).
    apply bind_ok_inv in Hrest as (out & Hout & Hv).
    exists out. split; [exact Hout | exact Hv].
Qed.

Lemma security_checks_before_work env w :
  emits before_job_work (run_security_checks_or_fail env w).
Proof.
  unfold run_security_checks_or_fail, run_cve_2022_0492_check_or_fail,
    run_nvidia_toolkit_version_check_or_fail.
  emits_walk.
Qed.

(** Job work in the startup stage, or a startup stage that returns, means
    the checks passed. *)
Lemma startup_work_needs_checks env w d :
  (forall ev, job_work ev = true -> In ev (trace_of (_startup_stage env w d)) ->
     security_checks_pass env w)
  /\ (forall req, outcome_of (_startup_stage env w d) = Ok req ->
        security_checks_pass env w).
Proof.
  unfold _startup_stage. split.
  - intros ev Hev Hin.
    assert (before_job_work ev = false) as Hb by (unfold before_job_work; rewrite Hev; reflexivity).
    apply (bind_reached before_job_work) in Hin as (a1 & _ & Hin);
      [|unfold _enter_stage; emits_walk | exact Hb].
    apply (bind_reached before_job_work) in Hin as (a2 & _ & Hin);
      [|emits_walk | exact Hb].
    apply (bind_reached before_job_work) in Hin as (a3 & Hok & Hin);
      [|apply security_checks_before_work | exact Hb].
    destruct a3. exact (security_checks_ok _ _ _ Hok).
  - intros req Hok.
    apply bind_ok_inv in Hok as (a1 & _ & Hok).
    apply bind_ok_inv in Hok as (a2 & _ & Hok).
    apply bind_ok_inv in Hok as ([] & Hsec & _).
    exact (security_checks_ok _ _ _ Hsec).
Qed.

Lemma report_failure_no_work env e d ev :
  In ev (trace_of (report_failure env e d)) -> job_work ev = false.
Proof.
  destruct (is_JobError e) eqn:He.
  - destruct e; try discriminate. rewrite report_job_failure.
    cbn. intros [<-|[<-|[]]]; reflexivity.
  - rewrite (report_other_failure _ _ _ He).
    destruct (wrap_unhandled env e) as [[m r] c] eqn:Hw.
    rewrite (report_horde_failure_run _ _ _ _ _ _ Hw).
    cbn. intros [<-|[<-|[<-|[]]]]; reflexivity.
Qed.

(** Job work in a run comes from the pipeline. *)
Lemma work_is_in_pipeline env w d ev :
  job_work ev = true ->
  In ev (trace_of (execute env w d)) ->
  In ev (trace_of (_execute env w d)).
Proof.
  intros Hev. rewrite execute_run. cbn [trace_of snd].
  intros [<-|Hin]; [discriminate|].
  apply in_app_iff in Hin as [Hin|Hin]; [exact Hin|].
  apply in_app_iff in Hin as [Hin|Hin].
  - destruct (outcome_of (_execute env w d)); [destruct Hin|].
    rewrite (report_failure_no_work _ _ _ _ Hin) in Hev. discriminate.
  - rewrite cleanup_run in Hin. cbn in Hin.
    destruct Hin as [<-|Hin]; [discriminate|].
    apply in_app_iff in Hin as [Hin|[<-|[]]]; [|discriminate].
    destruct (clean w); [destruct Hin|].
    destruct Hin as [<-|[]]. discriminate.
Qed.

(** X4.  The security gate comes first: the driver awaits the job's
    messages, calls the runner (cleanup apart) and sends a
    stage-transition message only in a run whose CVE-2022-0492 check
    passed and, unless GPU use is disabled, whose toolkit check passed
    too. *)
Theorem job_work_needs_security_checks env w d ev :
  job_work ev = true ->
  In ev (trace_of (execute env w d)) ->
  security_checks_pass env w.
Proof.
  intros Hev Hin. apply (work_is_in_pipeline _ _ _ _ Hev) in Hin.
  destruct (startup_work_needs_checks env w d) as [Hwork Hok].
  apply in_pipeline in Hin. cbv zeta in Hin.
  destruct Hin as [Hs|[Hin|[[req Hreq] _]]].
  - destruct ev; discriminate.
  - exact (Hwork _ Hev Hin).
  - exact (Hok _ Hreq).
Qed.

(** ** Machine specs *)

Lemma download_stage_keeps_specs w : keeps specs (_download_stage w).
Proof. unfold _download_stage. keeps_at_walk. Qed.

Lemma download_stage_keeps_result w : keeps execution_result (_download_stage w).
Proof. unfold _download_stage. keeps_at_walk. Qed.

Lemma startup_stage_keeps_result env w : keeps execution_result (_startup_stage env w).
Proof.
  unfold _startup_stage.
  pose proof (security_checks_keep execution_result env w).
  repeat first [assumption | keeps_at_step].
Qed.

Lemma upload_stage_keeps_result w : keeps execution_result (_upload_stage w).
Proof. unfold _upload_stage. keeps_at_walk. Qed.

Lemma upload_stage_run w d :
  _upload_stage w d =
    match upload_results w with
    | Ok job_result =>
        (Ok tt, set_current_stage JobStage.RESULT_UPLOAD d,
         [StageEntered JobStage.RESULT_UPLOAD; Runner upload_results_call;
          Sent (V0JobFinishedRequest (JobResult.with_specs job_result (specs d)))])
    | Raise e =>
        (Raise e, set_current_stage JobStage.RESULT_UPLOAD d,
         [StageEntered JobStage.RESULT_UPLOAD; Runner upload_results_call])
    end.
Proof.
  unfold _upload_stage, _enter_stage, runner, send, bind, emit, update, lift, get.
  cbn. destruct (upload_results w); reflexivity.
Qed.

Lemma execution_stage_keeps_specs w : keeps specs (_execution_stage w).
Proof.
  unfold _execution_stage, fail_if_execution_unsuccessful. keeps_at_walk.
Qed.

(** The specs a startup stage that returned leaves behind. *)
Lemma startup_stage_specs env w d req :
  outcome_of (_startup_stage env w d) = Ok req ->
  if DEBUG_NO_GPU_MODE w
  then specs (driver_of (_startup_stage env w d)) = specs d
  else exists sp, get_machine_specs w = Ok sp
                  /\ specs (driver_of (_startup_stage env w d)) = Some sp.
Proof.
  unfold _startup_stage. intros Hok.
  rewrite bind_driver. apply bind_ok_inv in Hok as ([] & H1 & Hok). rewrite H1.
  rewrite bind_driver. apply bind_ok_inv in Hok as ([] & H2 & Hok). rewrite H2.
  match goal with
  | |- context [driver_of (?k ?s)] =>
      match type of Hok with
      | outcome_of (k s) = _ => assert (keeps specs k) as Hk
      end
  end.
  { pose proof (security_checks_keep specs env w).
    repeat first [assumption | keeps_at_step]. }
  destruct (DEBUG_NO_GPU_MODE w); cbn [negb] in *.
  - rewrite Hk. reflexivity.
  - apply bind_ok_inv in H2 as (_ & _ & H2).
    apply bind_ok_inv in H2 as (sp & Hsp & _).
    unfold lift in Hsp. cbn [outcome_of fst] in Hsp.
    exists sp. split; [exact Hsp|]. rewrite Hk.
    unfold bind, emit, lift, update. cbn. rewrite Hsp. reflexivity.
Qed.

Lemma in_outbound t m : In m (outbound t) <-> In (Sent m) t.
Proof.
  induction t as [|ev t IH]; [reflexivity|].
  destruct ev; cbn; rewrite ?IH; try (split; [tauto | intros [H|H]; [discriminate | exact H]]).
  split; intros [H|H]; try (left; congruence); right; exact H.
Qed.

Lemma finished_is_in_pipeline env w d r :
  In (V0JobFinishedRequest r) (outbound (trace_of (execute env w d))) ->
  In (Sent (V0JobFinishedRequest r)) (trace_of (_execute env w d)).
Proof.
  intros Hin. pose proof (finished_means_completed _ _ _ _ Hin) as Hok.
  rewrite execute_outbound, Hok, app_nil_r in Hin. apply in_outbound, Hin.
Qed.

Lemma stage_events_no_finished {A} (c : M A) d r :
  emits is_stage_event c -> ~ In (Sent (V0JobFinishedRequest r)) (trace_of (c d)).
Proof.
  intros Hc Hin. specialize (Hc d). rewrite forallb_forall in Hc.
  apply Hc in Hin. discriminate.
Qed.

(** X5.  The result of a finished job is the one the runner's
    [upload_results] returned, stamped with the machine specs captured at
    startup: those [get_machine_specs] returned or, when GPU use is
    disabled and the specs are not read, the driver's initial ones. *)
Theorem finished_result_carries_startup_specs env w d r :
  In (V0JobFinishedRequest r) (outbound (trace_of (execute env w d))) ->
  exists job_result,
    upload_results w = Ok job_result
    /\ if DEBUG_NO_GPU_MODE w
       then r = JobResult.with_specs job_result (specs d)
       else exists sp, get_machine_specs w = Ok sp
                       /\ r = JobResult.with_specs job_result (Some sp).
Proof.
  intros Hin. apply finished_is_in_pipeline in Hin.
  apply in_pipeline in Hin. cbv zeta in Hin.
  destruct Hin as [Hs|[Hin|[[req Hreq] Hin]]].
  - discriminate.
  - exfalso. exact (stage_events_no_finished _ _ _ (emits_startup_stage env w) Hin).
  - pose proof (startup_stage_specs env w d req Hreq) as Hspecs.
    set (S := _startup_stage env w d) in *.
    assert (specs (driver_of (wait_for (download_expired_on_entry w)
                                (_download_stage w) (driver_of S)))
            = specs (driver_of S)) as HD
      by apply (keeps_wait_for specs), download_stage_keeps_specs.
    set (D := wait_for (download_expired_on_entry w) (_download_stage w) (driver_of S)) in *.
    assert (specs (driver_of (wait_for (execution_expired_on_entry w)
                                (_execution_stage w) (driver_of D)))
            = specs (driver_of D)) as HE
      by apply (keeps_wait_for specs), execution_stage_keeps_specs.
    set (E := wait_for (execution_expired_on_entry w) (_execution_stage w) (driver_of D)) in *.
    destruct Hin as [Hin|[_ [Hin|[_ Hin]]]].
    + exfalso. subst D.
      exact (stage_events_no_finished _ _ _
               (emits_wait_for _ _ _ (emits_download_stage w)) Hin).
    + exfalso. subst E.
      exact (stage_events_no_finished _ _ _
               (emits_wait_for _ _ _ (emits_execution_stage w)) Hin).
    + destruct (upload_expired_on_entry w); [destruct Hin|].
      cbn [wait_for] in Hin. rewrite upload_stage_run in Hin.
      destruct (upload_results w) as [job_result|e]; cbn in Hin.
      * destruct Hin as [Hin|[Hin|[Hin|[]]]]; try discriminate.
        injection Hin as <-. exists job_result. split; [reflexivity|].
        rewrite HE, HD.
        destruct (DEBUG_NO_GPU_MODE w).
        -- rewrite Hspecs. reflexivity.
        -- destruct Hspecs as (sp & Hsp & ->). exists sp. split; [exact Hsp | reflexivity].
      * destruct Hin as [Hin|[Hin|[]]]; discriminate.
Qed.

(** ** The job scope and the execution result *)

(** X6.  The job scope of the execution stage: when entering it fails the
    stage fails with that error and the scope is not left; once entered
    it is left exactly once whatever happens inside (a streaming job
    without a certificate included), the runner's [execution_result] is
    then what the runner left there, nothing but the streaming
    announcement is sent inside it, and an error raised on leaving is the
    stage's error. *)
Theorem job_scope_is_left_once_entered w d :
  let run := _execution_stage w d in
  match start_job_enter w with
  | Raise e =>
      run = (Raise e, set_current_stage JobStage.EXECUTION d,
             [StageEntered JobStage.EXECUTION; Runner start_job_enter_call])
  | Ok _ =>
      execution_result (driver_of run) = fst (start_job_exit w)
      /\ (exists rest,
            trace_of run
            = StageEntered JobStage.EXECUTION :: Runner start_job_enter_call
                :: map Sent (streaming_announcement w)
                ++ Runner start_job_exit_call :: rest
            /\ forall c, ~ In (Runner c) rest)
      /\ (forall e, snd (start_job_exit w) = Raise e -> outcome_of run = Raise e)
  end.
Proof.
  unfold _execution_stage, fail_if_execution_unsuccessful, async_with, try_finally,
    streaming_announcement, _enter_stage, runner, send, bind, emit, update, lift,
    get, raise, ret.
  cbn.
  destruct (start_job_enter w) as [[]|e]; cbn; [|reflexivity].
  destruct (start_job_exit w) as [result leaving]. cbn.
  destruct (is_streaming_job w); [destruct (executor_certificate w)|];
    destruct leaving as [[]|e']; cbn;
    try (destruct result as [result|]; cbn;
         [destruct (timed_out result); cbn;
          [|destruct (negb (return_code result =? 0)); cbn]|]).
  all: split; [reflexivity|]; split;
       [eexists; split; [reflexivity|]; cbn; intros c H;
        repeat (destruct H as [H|H]; [discriminate|]); exact H
       | intros e0 He0; congruence].
Qed.

(** An execution stage that returns has a result that neither timed out
    nor returned non-zero. *)
Lemma execution_stage_ok w d :
  outcome_of (_execution_stage w d) = Ok tt ->
  exists result,
    fst (start_job_exit w) = Some result
    /\ execution_result (driver_of (_execution_stage w d)) = Some result
    /\ timed_out result = false
    /\ return_code result = 0.
Proof.
  unfold _execution_stage, fail_if_execution_unsuccessful, async_with, try_finally,
    _enter_stage, runner, send, bind, emit, update, lift, get, raise, ret.
  cbn.
  destruct (start_job_enter w) as [[]|e]; cbn; [|discriminate].
  destruct (start_job_exit w) as [result leaving]. cbn.
  destruct (is_streaming_job w); [destruct (executor_certificate w)|];
    destruct leaving as [[]|e']; cbn; try discriminate.
  all: destruct result as [result|]; cbn; [|discriminate];
       destruct (timed_out result) eqn:Ht; cbn; [discriminate|];
       destruct (Z.eqb_spec (return_code result) 0) as [Hz|Hz]; cbn; [|discriminate];
       intros _; exists result; repeat split; assumption.
Qed.

Lemma wait_for_cases {A} (expired : bool) (c : M A) d :
  expired = true /\ wait_for expired c d = (Raise TimeoutError, d, [])
  \/ expired = false /\ wait_for expired c d = c d.
Proof. destruct expired; [left | right]; split; reflexivity. Qed.

(** Where the pipeline leaves the stage label and the execution result:
    up to the download stage the result is untouched; in the upload stage
    it is that of a job that returned 0 without timing out. *)
Lemma pipeline_final_state env w d :
  let final := driver_of (_execute env w d) in
  (current_stage final = JobStage.EXECUTOR_STARTUP
   \/ current_stage final = JobStage.VOLUME_DOWNLOAD ->
   execution_result final = execution_result d)
  /\ (current_stage final = JobStage.RESULT_UPLOAD ->
      exists result,
        fst (start_job_exit w) = Some result
        /\ execution_result final = Some result
        /\ timed_out result = false
        /\ return_code result = 0).
Proof.
  pose proof (_execute_run env w d) as Hrun. cbv beta zeta in Hrun.
  rewrite Hrun. clear Hrun.
  pose proof (startup_stage_current env w d) as HcS.
  pose proof (startup_stage_keeps_result env w d) as HrS.
  set (S := _startup_stage env w d) in *.
  pose proof (download_stage_current w (driver_of S)) as HcD.
  pose proof (download_stage_keeps_result w (driver_of S)) as HrD.
  set (D := _download_stage w (driver_of S)) in *.
  pose proof (execution_stage_current w (driver_of D)) as HcE.
  pose proof (execution_stage_ok w (driver_of D)) as HrE.
  set (E := _execution_stage w (driver_of D)) in *.
  pose proof (upload_stage_current w (driver_of E)) as HcU.
  pose proof (upload_stage_keeps_result w (driver_of E)) as HrU.
  set (U := _upload_stage w (driver_of E)) in *.
  destruct (outcome_of S) as [req|e]; cbn [outcome_of driver_of fst snd];
    [destruct (executor_timing req) as [timing|];
       [|destruct (timeout_seconds req) as [seconds|]]|];
    cbn [outcome_of driver_of fst snd].
  3,4: split; [intros [H|H]; congruence | intros H; congruence].
  all: destruct (download_expired_on_entry w); cbn [wait_for raise outcome_of driver_of fst snd];
       [split; [intros [H|H]; congruence | intros H; congruence]|];
       fold D; destruct (outcome_of D) as [[]|?]; cbn [outcome_of driver_of fst snd];
       [|split; [intros [H|H]; congruence | intros H; congruence]].
  all: destruct (execution_expired_on_entry w);
       cbn [wait_for raise outcome_of driver_of fst snd];
       [split; [intros [H|H]; congruence | intros H; congruence]|];
       fold E; destruct (outcome_of E) as [[]|?]; cbn [outcome_of driver_of fst snd];
       [|split; [intros [H|H]; congruence | intros H; congruence]].
  all: destruct (upload_expired_on_entry w);
       cbn [wait_for raise outcome_of driver_of fst snd];
       [split; [intros [H|H]; congruence | intros H; congruence]|];
       fold U.
  all: split; [intros [H|H]; congruence|]; intros _;
       destruct (HrE eq_refl) as (result & H1 & H2 & H3 & H4);
       exists result; repeat split; congruence.
Qed.

(** A job failure the miner received is the one built from the
    pipeline's last state. *)
Lemma job_failed_fields env w d failed :
  In (V0JobFailedRequest failed) (outbound (trace_of (execute env w d))) ->
  let final := driver_of (_execute env w d) in
  V0JobFailedRequest.stage failed = current_stage final
  /\ V0JobFailedRequest.docker_process_exit_status failed
     = match execution_result final with Some r => Some (return_code r) | None => None end
  /\ V0JobFailedRequest.docker_process_stdout failed
     = match execution_result final with Some r => Some (stdout r) | None => None end
  /\ V0JobFailedRequest.docker_process_stderr failed
     = match execution_result final with Some r => Some (stderr r) | None => None end.
Proof.
  intros Hin final. subst final.
  pose proof (terminal_in_outbound env w d _ Hin eq_refl) as H.
  destruct (outcome_of (_execute env w d)) as [[]|e];
    [destruct H as [r Hr]; discriminate|].
  destruct (is_JobError e) eqn:He.
  - destruct e; try discriminate. rewrite report_job_failure in H.
    cbn in H. injection H as <-. repeat split.
  - rewrite (report_other_failure _ _ _ He) in H.
    destruct (wrap_unhandled env e) as [[m r] c] eqn:Hw.
    rewrite (report_horde_failure_run _ _ _ _ _ _ Hw) in H. discriminate.
Qed.

(** X7.  A job failure reported from the startup or the download stage
    carries no exit status and no output, for a driver whose runner had
    no execution result to begin with: the job has not run. *)
Theorem early_job_failure_has_no_process_output env w d failed :
  execution_result d = None ->
  In (V0JobFailedRequest failed) (outbound (trace_of (execute env w d))) ->
  V0JobFailedRequest.stage failed = JobStage.EXECUTOR_STARTUP
  \/ V0JobFailedRequest.stage failed = JobStage.VOLUME_DOWNLOAD ->
  V0JobFailedRequest.docker_process_exit_status failed = None
  /\ V0JobFailedRequest.docker_process_stdout failed = None
  /\ V0JobFailedRequest.docker_process_stderr failed = None.
Proof.
  intros Hnone Hin Hstage.
  destruct (job_failed_fields _ _ _ _ Hin) as (Hs & Hx & Ho & He).
  destruct (pipeline_final_state env w d) as [Hearly _].
  rewrite Hs in Hstage. rewrite (Hearly Hstage), Hnone in Hx, Ho, He.
  repeat split; assumption.
Qed.

(** X8.  A job failure reported from the upload stage carries the outcome
    of the job that ran: exit status 0 and the output the runner left on
    leaving the job scope. *)
Theorem upload_failure_carries_job_output env w d failed :
  In (V0JobFailedRequest failed) (outbound (trace_of (execute env w d))) ->
  V0JobFailedRequest.stage failed = JobStage.RESULT_UPLOAD ->
  exists result,
    fst (start_job_exit w) = Some result
    /\ V0JobFailedRequest.docker_process_exit_status failed = Some 0
    /\ V0JobFailedRequest.docker_process_stdout failed = Some (stdout result)
    /\ V0JobFailedRequest.docker_process_stderr failed = Some (stderr result).
Proof.
  intros Hin Hstage.
  destruct (job_failed_fields _ _ _ _ Hin) as (Hs & Hx & Ho & He).
  destruct (pipeline_final_state env w d) as [_ Hupload].
  rewrite Hs in Hstage.
  destruct (Hupload Hstage) as (result & Hexit & Hres & _ & Hrc).
  rewrite Hres in Hx, Ho, He. rewrite Hrc in Hx.
  exists result. repeat split; assumption.
Qed.

Lemma security_checks_before_done env w :
  emits before_done (run_security_checks_or_fail env w).
Proof.
  unfold run_security_checks_or_fail, run_cve_2022_0492_check_or_fail,
    run_nvidia_toolkit_version_check_or_fail.
  emits_walk.
Qed.

Lemma execution_done_sent w d :
  In (Sent V0ExecutionDoneRequest) (trace_of (_execution_stage w d)) ->
  outcome_of (_execution_stage w d) = Ok tt.
Proof.
  unfold _execution_stage. intros Hin.
  apply (bind_reached before_done) in Hin as ([] & H1 & Hin);
    [|unfold _enter_stage; emits_walk | reflexivity].
  apply (bind_reached before_done) in Hin as ([] & H2 & Hin);
    [|repeat first [emits_step | apply emits_emit; reflexivity] | reflexivity].
  apply (bind_reached before_done) in Hin as ([] & H3 & Hin);
    [|unfold fail_if_execution_unsuccessful; emits_walk | reflexivity].
  rewrite !bind_outcome, H1, H2, H3. reflexivity.
Qed.

Lemma not_in_emits {A} P (c : M A) d ev :
  emits P c -> P ev = false -> ~ In ev (trace_of (c d)).
Proof.
  intros Hc Hev Hin. specialize (Hc d). rewrite forallb_forall in Hc.
  apply Hc in Hin. congruence.
Qed.

(** X9.  Execution-done is announced only for a job that ran to its end:
    the runner left an execution result that did not time out and whose
    return code is 0. *)
Theorem execution_done_means_clean_exit env w d :
  In V0ExecutionDoneRequest (outbound (trace_of (execute env w d))) ->
  exists result,
    fst (start_job_exit w) = Some result
    /\ timed_out result = false
    /\ return_code result = 0.
Proof.
  intros Hin. apply in_outbound in Hin.
  apply (work_is_in_pipeline env w d (Sent V0ExecutionDoneRequest) eq_refl) in Hin.
  apply in_pipeline in Hin. cbv zeta in Hin.
  destruct Hin as [Hs|[Hin|[_ [Hin|[_ [Hin|[_ Hin]]]]]]].
  - discriminate.
  - exfalso. revert Hin. apply (not_in_emits before_done); [|reflexivity].
    unfold _startup_stage, _enter_stage.
    pose proof (security_checks_before_done env w).
    repeat first [assumption | emits_step].
  - exfalso. revert Hin. apply (not_in_emits before_done); [|reflexivity].
    unfold _download_stage, _enter_stage. emits_walk.
  - destruct (execution_expired_on_entry w); [destruct Hin|].
    cbn [wait_for] in Hin. apply execution_done_sent in Hin.
    destruct (execution_stage_ok _ _ Hin) as (result & H1 & _ & H3 & H4).
    exists result. repeat split; assumption.
  - exfalso. revert Hin. apply (not_in_emits before_done); [|reflexivity].
    unfold _upload_stage, _enter_stage. emits_walk.
Qed.

(** ** A request without timing *)

Lemma security_checks_before_payload env w :
  emits before_payload (run_security_checks_or_fail env w).
Proof.
  unfold run_security_checks_or_fail, run_cve_2022_0492_check_or_fail,
    run_nvidia_toolkit_version_check_or_fail.
  emits_walk.
Qed.

(** X10.  An initial request with neither timing details nor
    [timeout_seconds]: the miner receives executor-ready and then a horde
    failure "No timing received" reported by the executor, whose context
    names the startup stage; the full payload is never awaited. *)
Theorem missing_timing_is_reported env w d req :
  outcome_of (_startup_stage env w d) = Ok req ->
  executor_timing req = None ->
  timeout_seconds req = None ->
  outbound (trace_of (execute env w d))
  = [V0ExecutorReadyRequest;
     V0HordeFailedRequest
       {| V0HordeFailedRequest.job_uuid := job_uuid env;
          V0HordeFailedRequest.reported_by := JobParticipantType.EXECUTOR;
          V0HordeFailedRequest.reason := HordeFailureReason.GENERIC_ERROR;
          V0HordeFailedRequest.message :=
            "No timing received: either timeout_seconds or timing_details must be set";
          V0HordeFailedRequest.context :=
            Some {[ "stage" := CtxStage JobStage.EXECUTOR_STARTUP ]} |}]
  /\ ~ In FullPayloadAwaited (trace_of (execute env w d)).
Proof.
  intros HS Ht Hs.
  pose proof (_execute_run env w d) as Hrun. cbv beta zeta in Hrun.
  rewrite HS, Ht, Hs in Hrun.
  split.
  - rewrite execute_outbound, Hrun. cbn [outcome_of driver_of trace_of fst snd outbound].
    destruct (startup_stage_sends env w d) as [_ Hfull].
    rewrite <- (stage_events_progress _ (emits_startup_stage env w d)), (Hfull _ HS).
    rewrite report_other_failure by reflexivity.
    erewrite report_horde_failure_run by reflexivity.
    rewrite startup_stage_current. cbn [trace_of snd outbound app].
    unfold add_context. cbn [default]. rewrite (right_id_L ∅ (∪)). reflexivity.
  - intros Hin.
    apply (work_is_in_pipeline env w d FullPayloadAwaited eq_refl) in Hin.
    rewrite Hrun in Hin. cbn [trace_of snd] in Hin.
    destruct Hin as [Hin|Hin]; [discriminate|].
    revert Hin. apply (not_in_emits before_payload); [|reflexivity].
    unfold _startup_stage, _enter_stage.
    pose proof (security_checks_before_payload env w).
    repeat first [assumption | emits_step].
Qed.

(** ** The order of the runner's operations *)

Lemma runner_calls_app t1 t2 :
  runner_calls (t1 ++ t2) = runner_calls t1 ++ runner_calls t2.
Proof.
  induction t1 as [|ev t1 IH]; [reflexivity|].
  destruct ev; cbn; rewrite ?IH; reflexivity.
Qed.

Lemma no_runner_calls t : forallb no_runner_call t = true -> runner_calls t = [].
Proof.
  induction t as [|ev t IH]; [reflexivity|].
  cbn [forallb]. intros [Hev Ht]%andb_prop.
  destruct ev; try discriminate; cbn; apply IH, Ht.
Qed.

Lemma in_order_nil lo hi : in_order lo hi [].
Proof. split; constructor. Qed.

Lemma in_order_one lo hi c :
  (lo <= call_rank c < hi)%nat -> in_order lo hi [c].
Proof.
  intros H. split.
  - cbn. constructor; constructor.
  - constructor; [exact H | constructor].
Qed.

Lemma in_order_weaken lo hi lo' hi' calls :
  (lo' <= lo)%nat -> (hi <= hi')%nat ->
  in_order lo hi calls -> in_order lo' hi' calls.
Proof.
  intros Hlo Hhi [Hs Hb]. split; [exact Hs|].
  eapply List.Forall_impl; [|exact Hb]. cbn. intros c Hc. lia.
Qed.

Lemma in_order_app lo mid hi l1 l2 :
  (lo <= mid <= hi)%nat ->
  in_order lo mid l1 -> in_order mid hi l2 -> in_order lo hi (l1 ++ l2).
Proof.
  intros Hm [Hs1 Hb1] [Hs2 Hb2]. split.
  - clear Hm. induction l1 as [|c l1 IH]; [exact Hs2|]. cbn in *.
    inversion Hs1 as [|? ? Hs1' Hc]; subst.
    inversion Hb1 as [|? ? Hc1 Hb1']; subst.
    constructor; [apply IH; assumption|].
    rewrite List.map_app. apply List.Forall_app. split; [exact Hc|].
    rewrite List.Forall_map. eapply List.Forall_impl; [|exact Hb2].
    cbn. intros c' Hc'. lia.
  - apply List.Forall_app. split.
    + eapply List.Forall_impl; [|exact Hb1]. cbn. intros c Hc. lia.
    + eapply List.Forall_impl; [|exact Hb2]. cbn. intros c Hc. lia.
Qed.

Lemma ranked_silent {A} lo hi (c : M A) : emits no_runner_call c -> ranked lo hi c.
Proof. intros H d. rewrite (no_runner_calls _ (H d)). apply in_order_nil. Qed.

Lemma ranked_runner {A} lo hi (c : RunnerCall) (o : Outcome A) :
  (lo <= call_rank c < hi)%nat -> ranked lo hi (runner c o).
Proof. intros H d. cbn. apply in_order_one, H. Qed.

Lemma ranked_bind {A B} lo mid hi (c : M A) (k : A -> M B) :
  (lo <= mid <= hi)%nat ->
  ranked lo mid c -> (forall a, ranked mid hi (k a)) -> ranked lo hi (bind c k).
Proof.
  intros Hm Hc Hk d. rewrite bind_trace, runner_calls_app.
  apply (in_order_app lo mid hi); [exact Hm | apply Hc |].
  destruct (outcome_of (c d)) as [a|e]; [apply Hk | apply in_order_nil].
Qed.

Lemma ranked_after {A B} lo hi (c : M A) (k : A -> M B) :
  (lo <= hi)%nat ->
  emits no_runner_call c -> (forall a, ranked lo hi (k a)) -> ranked lo hi (bind c k).
Proof.
  intros Hm Hc Hk. apply (ranked_bind lo lo hi); [lia | apply ranked_silent, Hc | exact Hk].
Qed.

Lemma ranked_finally {A} lo mid hi (c : M A) fin :
  (lo <= mid <= hi)%nat ->
  ranked lo mid c -> ranked mid hi fin -> ranked lo hi (try_finally c fin).
Proof.
  intros Hm Hc Hf d. unfold try_finally.
  specialize (Hc d). specialize (Hf (driver_of (c d))).
  destruct (c d) as [[r d1] t1]. cbn [trace_of outcome_of driver_of fst snd] in *.
  destruct (fin d1) as [[[u|e] d2] t2]; cbn [trace_of outcome_of driver_of fst snd] in *;
    rewrite runner_calls_app; apply (in_order_app lo mid hi); assumption.
Qed.

Lemma ranked_guarded {A} lo hi (c : M A) replacement :
  ranked lo hi c -> ranked lo hi (try_except c (except_TimeoutError replacement)).
Proof. intros Hc d. rewrite guarded_run. cbn. apply Hc. Qed.

Lemma ranked_wait_for {A} lo hi (expired : bool) (c : M A) :
  ranked lo hi c -> ranked lo hi (wait_for expired c).
Proof.
  intros Hc. destruct expired; [intros d; apply in_order_nil | exact Hc].
Qed.

Lemma ranked_weaken {A} lo hi lo' hi' (c : M A) :
  (lo' <= lo)%nat -> (hi <= hi')%nat -> ranked lo hi c -> ranked lo' hi' c.
Proof. intros Hlo Hhi Hc d. apply (in_order_weaken lo hi); auto. Qed.

Ltac quiet := repeat first [assumption | emits_step].

Lemma security_checks_call_nothing env w :
  emits no_runner_call (run_security_checks_or_fail env w).
Proof.
  unfold run_security_checks_or_fail, run_cve_2022_0492_check_or_fail,
    run_nvidia_toolkit_version_check_or_fail.
  emits_walk.
Qed.

Lemma startup_stage_ranked env w : ranked 0 2 (_startup_stage env w).
Proof.
  unfold _startup_stage. pose proof (security_checks_call_nothing env w).
  do 5 (apply ranked_after; [lia | unfold _enter_stage; quiet | intros ?]).
  apply (ranked_bind 0 1 2); [lia | apply ranked_runner; cbn; lia | intros _].
  apply ranked_after; [lia | quiet | intros _].
  apply (ranked_bind 1 2 2); [lia | | intros _; apply ranked_silent; quiet].
  destruct (streaming_details _) as [details|]; [|apply ranked_silent; quiet].
  destruct (executor_ip details); [|apply ranked_silent; quiet].
  apply ranked_runner. cbn. lia.
Qed.

Lemma download_stage_ranked w : ranked 2 4 (_download_stage w).
Proof.
  unfold _download_stage.
  do 3 (apply ranked_after; [lia | unfold _enter_stage; quiet | intros ?]).
  apply (ranked_bind 2 3 4); [lia | apply ranked_runner; cbn; lia | intros _].
  apply (ranked_bind 3 4 4); [lia | apply ranked_runner; cbn; lia | intros _].
  apply ranked_silent. quiet.
Qed.

Lemma execution_stage_ranked w : ranked 4 6 (_execution_stage w).
Proof.
  unfold _execution_stage, async_with.
  apply ranked_after; [lia | unfold _enter_stage; quiet | intros _].
  apply (ranked_bind 4 6 6); [lia | | intros _; apply ranked_silent;
    unfold fail_if_execution_unsuccessful; quiet].
  apply (ranked_bind 4 5 6); [lia | apply ranked_runner; cbn; lia | intros _].
  apply (ranked_finally 5 5 6); [lia | apply ranked_silent; quiet |].
  intros d. cbn. apply in_order_one. cbn. lia.
Qed.

Lemma upload_stage_ranked w : ranked 6 7 (_upload_stage w).
Proof.
  unfold _upload_stage.
  apply ranked_after; [lia | unfold _enter_stage; quiet | intros _].
  apply (ranked_bind 6 7 7); [lia | apply ranked_runner; cbn; lia | intros ?].
  apply ranked_silent. quiet.
Qed.

Lemma pipeline_ranked env w : ranked 0 7 (_execute env w).
Proof.
  unfold _execute.
  apply ranked_after; [lia | quiet | intros _].
  apply (ranked_bind 0 2 7);
    [lia | apply ranked_guarded, startup_stage_ranked | intros req].
  do 2 (apply ranked_after; [lia | quiet | intros _]).
  apply (ranked_bind 2 4 7);
    [lia | apply ranked_guarded, ranked_wait_for, download_stage_ranked | intros _].
  apply ranked_after; [lia | quiet | intros _].
  apply (ranked_bind 4 6 7);
    [lia | apply ranked_guarded, ranked_wait_for, execution_stage_ranked | intros _].
  apply ranked_after; [lia | quiet | intros _].
  apply (ranked_weaken 6 7); [lia | lia |].
  apply ranked_guarded, ranked_wait_for, upload_stage_ranked.
Qed.

Lemma report_failure_calls_nothing env e d :
  runner_calls (trace_of (report_failure env e d)) = [].
Proof.
  destruct (is_JobError e) eqn:He.
  - destruct e; try discriminate. rewrite report_job_failure. reflexivity.
  - rewrite (report_other_failure _ _ _ He).
    destruct (wrap_unhandled env e) as [[m r] c] eqn:Hw.
    rewrite (report_horde_failure_run _ _ _ _ _ _ Hw). reflexivity.
Qed.

(** X11.  The runner is driven in a fixed order: in any run its
    operations are invoked in the order prepare_initial,
    generate_streaming_certificate, prepare_full, download_volume,
    entering start_job, leaving start_job, upload_results, each at most
    once, and clean is the last call made. *)
Theorem runner_is_driven_in_order env w d :
  exists calls,
    runner_calls (trace_of (execute env w d)) = calls ++ [clean_call]
    /\ StronglySorted lt (map call_rank (calls ++ [clean_call])).
Proof.
  exists (runner_calls (trace_of (_execute env w d))).
  rewrite execute_run. cbn [trace_of snd runner_calls].
  rewrite !runner_calls_app, cleanup_run. cbn [trace_of snd runner_calls].
  assert (runner_calls
            match outcome_of (_execute env w d) with
            | Ok _ => []
            | Raise e => trace_of (report_failure env e (driver_of (_execute env w d)))
            end = []) as ->.
  { destruct (outcome_of (_execute env w d)); [reflexivity|].
    apply report_failure_calls_nothing. }
  assert (runner_calls
            match clean w with
            | Ok _ => []
            | Raise e => [Logged (LogCleanupFailed e)]
            end = []) as ->.
  { destruct (clean w); reflexivity. }
  cbn [runner_calls app].
  split; [reflexivity|].
  apply (in_order_app 0 7 8);
    [lia | apply pipeline_ranked | apply in_order_one; cbn; lia].
Qed.

(** ** What the security checks read *)

Lemma append_cons a (s t : string) : String a s +:+ t = String a (s +:+ t).
Proof. reflexivity. Qed.

Lemma append_empty_l (t : string) : "" +:+ t = t.
Proof. reflexivity. Qed.

Lemma append_empty_r (s : string) : s +:+ "" = s.
Proof. induction s as [|a s IH]; [reflexivity|]. rewrite append_cons, IH. reflexivity. Qed.

Lemma append_assoc (a b c : string) : (a +:+ b) +:+ c = a +:+ b +:+ c.
Proof.
  induction a as [|x a IH]; [reflexivity|]. rewrite !append_cons, IH. reflexivity.
Qed.

Lemma starts_with_iff p s :
  Py.starts_with p s = true <-> exists post, s = p +:+ post.
Proof.
  revert s. induction p as [|a p IH]; intros s; cbn [Py.starts_with].
  - split; [intros _; exists s; reflexivity | reflexivity].
  - destruct s as [|b s].
    + split; [discriminate | intros [post H]; discriminate].
    + destruct (Ascii.eqb_spec a b) as [<-|Hab].
      * rewrite IH. split; intros [post H]; exists post; rewrite append_cons in *;
          congruence.
      * split; [discriminate | intros [post H]; rewrite append_cons in H; congruence].
Qed.

Lemma contains_iff needle hay :
  Py.contains needle hay = true <-> exists pre post, hay = pre +:+ needle +:+ post.
Proof.
  induction hay as [|b hay IH].
  - cbn [Py.contains]. rewrite orb_false_r, starts_with_iff. split.
    + intros [post H]. exists "", post. exact H.
    + intros (pre & post & H). destruct pre; [exists post; exact H|discriminate].
  - cbn [Py.contains]. rewrite orb_true_iff, starts_with_iff, IH. split.
    + intros [[post H]|(pre & post & H)].
      * exists "", post. exact H.
      * exists (String b pre), post. rewrite append_cons, H. reflexivity.
    + intros (pre & post & H). destruct pre as [|a pre].
      * left. exists post. exact H.
      * right. exists pre, post. rewrite append_cons in H. congruence.
Qed.

(** X12.  The CVE-2022-0492 check passes exactly when the probe exited
    with code 0 and its standard output is a [str] in which the sentence
    "Contained: cannot escape via CVE-2022-0492" occurs; what stands
    before and after the sentence, and standard error, do not matter. *)
Theorem cve_2022_0492_passes_on_the_sentence env return_code stdout stderr :
  cve_2022_0492_verdict env return_code stdout stderr = Ok tt
  <-> return_code = 0
      /\ exists pre post,
           stdout = Py.PStr (pre +:+ "Contained: cannot escape via CVE-2022-0492" +:+ post).
Proof.
  destruct stdout as [s|b].
  - rewrite cve_2022_0492_passes_iff, contains_iff. unfold expected_output.
    split; intros [Hz (pre & post & H)]; (split; [exact Hz|]); exists pre, post;
      congruence.
  - split.
    + intros H. exfalso. revert H. unfold cve_2022_0492_verdict, str_not_in, decode.
      destruct (negb (return_code =? 0)); [|discriminate].
      destruct (bytes_decode env b); [|discriminate].
      destruct stderr as [e|e]; [discriminate|].
      destruct (bytes_decode env e); discriminate.
    + intros [_ (pre & post & H)]. discriminate.
Qed.

(** The first line [splitlines] returns: what precedes the first line
    feed, when no line boundary stands before it. *)
Lemma splitlines_first_line cur started line tail :
  one_line line = true ->
  tail = "" \/ (exists rest, tail = String Py.LF rest) ->
  started = true \/ line <> "" \/ tail <> "" ->
  exists more,
    Py.splitlines_from Py.str_linebreak cur started (line +:+ tail)
    = (cur +:+ line) :: more.
Proof.
  revert cur started. induction line as [|a line IH]; intros cur started Hl Ht Hs.
  - rewrite append_empty_l, append_empty_r.
    destruct Ht as [->|[rest ->]].
    + destruct Hs as [->|[H|H]]; [|contradiction ..]. exists []. reflexivity.
    + destruct rest; eexists; reflexivity.
  - cbn in Hl. apply andb_prop in Hl as [Ha Hl].
    rewrite append_cons. cbn [Py.splitlines_from].
    destruct (Py.str_linebreak a); [discriminate|].
    destruct (IH (cur +:+ String a "") true Hl Ht (or_introl eq_refl)) as [more H].
    exists more. rewrite H, append_assoc. reflexivity.
Qed.

Lemma has_char_append sep p s : Py.has_char sep (p +:+ String sep s) = true.
Proof.
  induction p as [|a p IH].
  - rewrite append_empty_l. cbn. rewrite Ascii.eqb_refl. reflexivity.
  - rewrite append_cons. cbn [Py.has_char]. rewrite IH. apply orb_true_r.
Qed.

(** [rpartition] splits at the last separator. *)
Lemma rpartition_last sep p s :
  Py.has_char sep s = false ->
  Py.rpartition sep (p +:+ String sep s) = (p, String sep "", s).
Proof.
  intros Hs. induction p as [|a p IH].
  - rewrite append_empty_l. cbn. rewrite Hs, Ascii.eqb_refl. reflexivity.
  - rewrite append_cons. cbn [Py.rpartition]. rewrite has_char_append, IH. reflexivity.
Qed.

(** X13.  The toolkit check reads the last word of the first line: when
    the probe exited with code 0 and its standard output is a [str]
    whose first line ends in a space and a word, the check passes
    exactly when that word parses as a version that is at least the
    minimum safe version.  The rest of the first line, the later lines
    and standard error do not matter. *)
Theorem nvidia_toolkit_reads_the_last_word env prefix version tail stderr :
  one_line prefix = true ->
  one_line version = true ->
  Py.has_char " " version = false ->
  tail = "" \/ (exists rest, tail = String Py.LF rest) ->
  nvidia_toolkit_verdict env 0
    (Py.PStr ((prefix +:+ " " +:+ version) +:+ tail)) stderr = Ok tt
  <-> exists parsed,
        version_parse env version = Some parsed
        /\ version_ge env parsed (NVIDIA_CONTAINER_TOOLKIT_MINIMUM_SAFE_VERSION env)
           = true.
Proof.
  intros Hp Hv Hsp Ht.
  assert (one_line (prefix +:+ " " +:+ version) = true) as Hl.
  { unfold one_line in *. clear -Hp Hv.
    induction prefix as [|a p IH].
    - rewrite append_empty_l. cbn. exact Hv.
    - rewrite append_cons. cbn in *.
      apply andb_prop in Hp as [Ha Hp]. rewrite Ha. exact (IH Hp). }
  destruct (splitlines_first_line "" false (prefix +:+ " " +:+ version) tail Hl Ht)
    as [more Hsplit].
  { right. left. destruct prefix; discriminate. }
  rewrite append_empty_l in Hsplit.
  rewrite nvidia_toolkit_passes_iff. unfold Py.splitlines. rewrite Hsplit.
  split.
  - intros [_ (line & rest & parsed & Heq & Hparse & Hge)].
    injection Heq as <- _.
    rewrite (rpartition_last " " prefix version Hsp : Py.rpartition " " (prefix +:+ " " +:+ version) = _) in Hparse.
    exists parsed. split; assumption.
  - intros (parsed & Hparse & Hge). split; [reflexivity|].
    exists (prefix +:+ " " +:+ version), more, parsed.
    rewrite (rpartition_last " " prefix version Hsp : Py.rpartition " " (prefix +:+ " " +:+ version) = _).
    repeat split; assumption.
Qed.

(** ** A host that fails the CVE check *)

Lemma failed_cve_check_ends_startup env w d out e :
  DEBUG_NO_GPU_MODE w = true \/ (exists sp, get_machine_specs w = Ok sp) ->
  cve_2022_0492_container w = Ok out ->
  cve_2022_0492_verdict env (StatusCode out) (probe_stdout out) (probe_stderr out)
  = Raise e ->
  outcome_of (_startup_stage env w d) = Raise e
  /\ outbound (trace_of (_startup_stage env w d)) = []
  /\ runner_calls (trace_of (_startup_stage env w d)) = [].
Proof.
  intros Hg Hc Hv.
  unfold _startup_stage, run_security_checks_or_fail, run_cve_2022_0492_check_or_fail,
    _enter_stage.
  unfold bind, update, emit, lift, ret. rewrite Hc, Hv.
  destruct Hg as [Hg|[sp Hg]]; rewrite Hg.
  - cbn. repeat split; reflexivity.
  - destruct (DEBUG_NO_GPU_MODE w); cbn; repeat split; reflexivity.
Qed.

(** X14.  A host whose CVE-2022-0492 probe exits with code 0 without
    printing the expected sentence does not get the job: the only message
    the miner receives is a horde failure with reason
    security-check-failed, whose context holds the probe's two streams
    and the startup stage, and the only runner operation invoked is
    clean. *)
Theorem failed_cve_check_ends_the_run env w d out s :
  DEBUG_NO_GPU_MODE w = true \/ (exists sp, get_machine_specs w = Ok sp) ->
  cve_2022_0492_container w = Ok out ->
  StatusCode out = 0 ->
  probe_stdout out = Py.PStr s ->
  Py.contains "Contained: cannot escape via CVE-2022-0492" s = false ->
  outbound (trace_of (execute env w d))
  = [V0HordeFailedRequest
       {| V0HordeFailedRequest.job_uuid := job_uuid env;
          V0HordeFailedRequest.reported_by := JobParticipantType.EXECUTOR;
          V0HordeFailedRequest.reason := HordeFailureReason.SECURITY_CHECK_FAILED;
          V0HordeFailedRequest.message :=
            "CVE-HordeFailureReason-0492 check failed: " +:+ Py.dquote
              +:+ "Contained: cannot escape via CVE-2022-0492" +:+ Py.dquote
              +:+ " not in stdout.";
          V0HordeFailedRequest.context :=
            Some ({[ "stage" := CtxStage JobStage.EXECUTOR_STARTUP ]}
                  ∪ {[ "stdout" := CtxPy (Py.PStr s);
                       "stderr" := CtxPy (probe_stderr out) ]}) |}]
  /\ runner_calls (trace_of (execute env w d)) = [clean_call].
Proof.
  intros Hg Hc Hz Hs Hno.
  assert (cve_2022_0492_verdict env (StatusCode out) (probe_stdout out) (probe_stderr out)
          = Raise (HordeError
                     ("CVE-HordeFailureReason-0492 check failed: " +:+ Py.dquote
                        +:+ expected_output +:+ Py.dquote +:+ " not in stdout.")
                     HordeFailureReason.SECURITY_CHECK_FAILED
                     (Some {[ "stdout" := CtxPy (Py.PStr s);
                              "stderr" := CtxPy (probe_stderr out) ]}))) as Hv.
  { rewrite Hz, Hs. unfold cve_2022_0492_verdict, str_not_in.
    change (negb (0 =? 0)) with false. cbv iota.
    unfold expected_output. rewrite Hno. reflexivity. }
  destruct (failed_cve_check_ends_startup env w d out _ Hg Hc Hv) as (HS & Hout & Hcalls).
  pose proof (_execute_run env w d) as Hrun. cbv beta zeta in Hrun.
  rewrite HS in Hrun. cbn [is_TimeoutError] in Hrun.
  split.
  - rewrite execute_outbound, Hrun. cbn [outcome_of driver_of trace_of fst snd outbound].
    rewrite Hout. rewrite report_other_failure by reflexivity.
    erewrite report_horde_failure_run by reflexivity.
    rewrite startup_stage_current. reflexivity.
  - rewrite execute_run. cbn [trace_of snd runner_calls].
    rewrite !runner_calls_app, cleanup_run, Hrun.
    cbn [outcome_of driver_of trace_of fst snd runner_calls].
    rewrite Hcalls, report_failure_calls_nothing.
    destruct (clean w); reflexivity.
Qed.

(** * Further concrete runs *)

Lemma stages_are_entered_in_order_witness :
  In (V0JobFinishedRequest
        {| JobResult.result := "ok"; JobResult.specs := Some (MkMachineSpecs "{}") |})
     (outbound (trace_of (execute Demo.env Cases.single_timeout init)))
  /\ entered (trace_of (execute Demo.env Cases.single_timeout init))
     = [JobStage.EXECUTOR_STARTUP; JobStage.VOLUME_DOWNLOAD;
        JobStage.EXECUTION; JobStage.RESULT_UPLOAD].
Proof.
  assert (In (V0JobFinishedRequest
                {| JobResult.result := "ok";
                   JobResult.specs := Some (MkMachineSpecs "{}") |})
             (outbound (trace_of (execute Demo.env Cases.single_timeout init)))) as Hin
    by (vm_compute; auto 10).
  split; [exact Hin|].
  exact (proj2 (proj2 (stages_are_entered_in_order Demo.env Cases.single_timeout init))
           _ Hin).
Defined.

Lemma failure_names_the_last_stage_entered_witness :
  (exists failed,
     In (V0JobFailedRequest failed)
        (outbound (trace_of (execute Demo.env Cases.download_fails init)))
     /\ V0JobFailedRequest.stage failed = JobStage.VOLUME_DOWNLOAD
     /\ last (entered (trace_of (execute Demo.env Cases.download_fails init)))
        = Some (V0JobFailedRequest.stage failed))
  /\ (exists failed,
        In (V0HordeFailedRequest failed)
           (outbound (trace_of (execute Demo.env Cases.probe_crashes init)))
        /\ exists (context : gmap string ctx_value) stage,
             V0HordeFailedRequest.context failed = Some context
             /\ context !! "stage" = Some (CtxStage stage)
             /\ last (entered (trace_of (execute Demo.env Cases.probe_crashes init)))
                = Some stage).
Proof.
  split.
  - eexists. split; [lazy; right; left; reflexivity|]. split; [reflexivity|].
    apply (proj1 (failure_names_the_last_stage_entered Demo.env Cases.download_fails init)).
    lazy. right. left. reflexivity.
  - eexists. split; [lazy; left; reflexivity|].
    apply (proj2 (failure_names_the_last_stage_entered Demo.env Cases.probe_crashes init)).
    lazy. left. reflexivity.
Defined.

Lemma messages_follow_the_pipeline_witness :
  In (V0JobFinishedRequest
        {| JobResult.result := "ok"; JobResult.specs := Some (MkMachineSpecs "{}") |})
     (outbound (trace_of (execute Demo.env Cases.streaming_job init)))
  /\ progress (trace_of (execute Demo.env Cases.streaming_job init))
     = [V0ExecutorReadyRequest; V0VolumesReadyRequest;
        V0StreamingJobReadyRequest "CERT"; V0ExecutionDoneRequest].
Proof.
  assert (In (V0JobFinishedRequest
                {| JobResult.result := "ok";
                   JobResult.specs := Some (MkMachineSpecs "{}") |})
             (outbound (trace_of (execute Demo.env Cases.streaming_job init)))) as Hin
    by (vm_compute; auto 10).
  split; [exact Hin|].
  exact (proj2 (proj2 (messages_follow_the_pipeline Demo.env Cases.streaming_job init))
           _ Hin).
Defined.

Lemma job_work_needs_security_checks_witness :
  job_work (Runner download_volume_call) = true
  /\ In (Runner download_volume_call)
        (trace_of (execute Demo.env Cases.single_timeout init))
  /\ security_checks_pass Demo.env Cases.single_timeout.
Proof.
  assert (In (Runner download_volume_call)
             (trace_of (execute Demo.env Cases.single_timeout init))) as Hin
    by (vm_compute; auto 30).
  split; [reflexivity|]. split; [exact Hin|].
  exact (job_work_needs_security_checks Demo.env Cases.single_timeout init
           (Runner download_volume_call) eq_refl Hin).
Defined.

Lemma finished_result_carries_startup_specs_witness :
  In (V0JobFinishedRequest
        {| JobResult.result := "ok"; JobResult.specs := Some (MkMachineSpecs "{}") |})
     (outbound (trace_of (execute Demo.env Cases.single_timeout init)))
  /\ exists job_result,
       upload_results Cases.single_timeout = Ok job_result
       /\ exists sp,
            get_machine_specs Cases.single_timeout = Ok sp
            /\ {| JobResult.result := "ok"; JobResult.specs := Some (MkMachineSpecs "{}") |}
               = JobResult.with_specs job_result (Some sp).
Proof.
  assert (In (V0JobFinishedRequest
                {| JobResult.result := "ok";
                   JobResult.specs := Some (MkMachineSpecs "{}") |})
             (outbound (trace_of (execute Demo.env Cases.single_timeout init)))) as Hin
    by (vm_compute; auto 10).
  split; [exact Hin|].
  exact (finished_result_carries_startup_specs Demo.env Cases.single_timeout init _ Hin).
Defined.

Lemma job_scope_is_left_once_entered_witness :
  snd (start_job_exit Cases.exit_fails)
  = Raise (OtherError "RuntimeError" "container is gone")
  /\ outcome_of (_execution_stage Cases.exit_fails init)
     = Raise (OtherError "RuntimeError" "container is gone").
Proof.
  split; [reflexivity|].
  exact (proj2 (proj2 (job_scope_is_left_once_entered Cases.exit_fails init))
           (OtherError "RuntimeError" "container is gone") eq_refl).
Defined.

Lemma early_job_failure_has_no_process_output_witness :
  exists failed,
    execution_result init = None
    /\ In (V0JobFailedRequest failed)
          (outbound (trace_of (execute Demo.env Cases.download_fails init)))
    /\ V0JobFailedRequest.stage failed = JobStage.VOLUME_DOWNLOAD
    /\ V0JobFailedRequest.docker_process_exit_status failed = None
    /\ V0JobFailedRequest.docker_process_stdout failed = None
    /\ V0JobFailedRequest.docker_process_stderr failed = None.
Proof.
  eexists. split; [reflexivity|].
  assert (forall P Q R : Prop, P -> Q -> (P -> Q -> R) -> P /\ Q /\ R) as Hcut by tauto.
  apply Hcut; [lazy; right; left; reflexivity | reflexivity |].
  intros Hin Hstage.
  exact (early_job_failure_has_no_process_output Demo.env Cases.download_fails init _
           eq_refl Hin (or_intror Hstage)).
Defined.

Lemma upload_failure_carries_job_output_witness :
  exists failed,
    In (V0JobFailedRequest failed)
       (outbound (trace_of (execute Demo.env Cases.upload_fails init)))
    /\ V0JobFailedRequest.stage failed = JobStage.RESULT_UPLOAD
    /\ exists result,
         fst (start_job_exit Cases.upload_fails) = Some result
         /\ V0JobFailedRequest.docker_process_exit_status failed = Some 0
         /\ V0JobFailedRequest.docker_process_stdout failed = Some (stdout result)
         /\ V0JobFailedRequest.docker_process_stderr failed = Some (stderr result).
Proof.
  eexists.
  assert (forall P Q R : Prop, P -> Q -> (P -> Q -> R) -> P /\ Q /\ R) as Hcut by tauto.
  apply Hcut; [lazy; do 3 right; left; reflexivity | reflexivity |].
  intros Hin Hstage.
  exact (upload_failure_carries_job_output Demo.env Cases.upload_fails init _ Hin Hstage).
Defined.

Lemma execution_done_means_clean_exit_witness :
  In V0ExecutionDoneRequest
     (outbound (trace_of (execute Demo.env Cases.single_timeout init)))
  /\ exists result,
       fst (start_job_exit Cases.single_timeout) = Some result
       /\ timed_out result = false
       /\ return_code result = 0.
Proof.
  assert (In V0ExecutionDoneRequest
             (outbound (trace_of (execute Demo.env Cases.single_timeout init)))) as Hin
    by (vm_compute; auto 10).
  split; [exact Hin|].
  exact (execution_done_means_clean_exit Demo.env Cases.single_timeout init Hin).
Defined.

Lemma missing_timing_is_reported_witness :
  outcome_of (_startup_stage Demo.env Cases.untimed init)
  = Ok (Demo.request None None None)
  /\ outbound (trace_of (execute Demo.env Cases.untimed init))
     = [V0ExecutorReadyRequest;
        V0HordeFailedRequest
          {| V0HordeFailedRequest.job_uuid := job_uuid Demo.env;
             V0HordeFailedRequest.reported_by := JobParticipantType.EXECUTOR;
             V0HordeFailedRequest.reason := HordeFailureReason.GENERIC_ERROR;
             V0HordeFailedRequest.message :=
               "No timing received: either timeout_seconds or timing_details must be set";
             V0HordeFailedRequest.context :=
               Some {[ "stage" := CtxStage JobStage.EXECUTOR_STARTUP ]} |}]
  /\ ~ In FullPayloadAwaited (trace_of (execute Demo.env Cases.untimed init)).
Proof.
  split; [vm_compute; reflexivity|].
  exact (missing_timing_is_reported Demo.env Cases.untimed init
           (Demo.request None None None) eq_refl eq_refl eq_refl).
Defined.

Lemma cve_2022_0492_passes_on_the_sentence_witness :
  cve_2022_0492_verdict Demo.env 0
    (Py.PStr ("probe: " +:+ "Contained: cannot escape via CVE-2022-0492" +:+ "."))
    (Py.PStr "warning")
  = Ok tt.
Proof.
  apply (proj2 (cve_2022_0492_passes_on_the_sentence Demo.env 0
                  (Py.PStr ("probe: " +:+ "Contained: cannot escape via CVE-2022-0492"
                              +:+ "."))
                  (Py.PStr "warning"))).
  split; [reflexivity|]. exists "probe: ", ".". reflexivity.
Defined.

Lemma nvidia_toolkit_reads_the_last_word_witness :
  one_line "NVIDIA Container Runtime Hook version" = true
  /\ one_line "1.17.4" = true
  /\ Py.has_char " " "1.17.4" = false
  /\ (nvidia_toolkit_verdict Demo.env 0
        (Py.PStr (("NVIDIA Container Runtime Hook version" +:+ " " +:+ "1.17.4")
                    +:+ String Py.LF "commit: 5d2f6a9"))
        (Py.PStr "")
      = Ok tt
      <-> exists parsed,
            version_parse Demo.env "1.17.4" = Some parsed
            /\ version_ge Demo.env parsed
                 (NVIDIA_CONTAINER_TOOLKIT_MINIMUM_SAFE_VERSION Demo.env) = true).
Proof.
  split; [reflexivity|]. split; [reflexivity|]. split; [reflexivity|].
  apply (nvidia_toolkit_reads_the_last_word Demo.env
           "NVIDIA Container Runtime Hook version" "1.17.4"
           (String Py.LF "commit: 5d2f6a9") (Py.PStr ""));
    [reflexivity | reflexivity | reflexivity |].
  right. exists "commit: 5d2f6a9". reflexivity.
Defined.

Lemma failed_cve_check_ends_the_run_witness :
  outbound (trace_of (execute Demo.env Cases.not_contained init))
  = [V0HordeFailedRequest
       {| V0HordeFailedRequest.job_uuid := job_uuid Demo.env;
          V0HordeFailedRequest.reported_by := JobParticipantType.EXECUTOR;
          V0HordeFailedRequest.reason := HordeFailureReason.SECURITY_CHECK_FAILED;
          V0HordeFailedRequest.message :=
            "CVE-HordeFailureReason-0492 check failed: " +:+ Py.dquote
              +:+ "Contained: cannot escape via CVE-2022-0492" +:+ Py.dquote
              +:+ " not in stdout.";
          V0HordeFailedRequest.context :=
            Some ({[ "stage" := CtxStage JobStage.EXECUTOR_STARTUP ]}
                  ∪ {[ "stdout" := CtxPy (Py.PStr "Escaped: host is vulnerable");
                       "stderr" := CtxPy (Py.PStr "") ]}) |}]
  /\ runner_calls (trace_of (execute Demo.env Cases.not_contained init)) = [clean_call].
Proof.
  apply (failed_cve_check_ends_the_run Demo.env Cases.not_contained init Cases.escaped
           "Escaped: host is vulnerable").
  - right. exists (MkMachineSpecs "{}"). reflexivity.
  - reflexivity.
  - reflexivity.
  - reflexivity.
  - vm_compute. reflexivity.
Defined.
